(** * Aerofit case study: the data pipeline and the chart renderer

    A shallow embedding of [src/data_processing.py] and [src/plots.py].

    Modelling conventions
    - A pandas DataFrame is an ordered list of named, typed columns; column
      names are pairwise distinct, as in a frame [pd.read_csv] loads, and the
      theorems about whole frames say so.
    - A loaded column is numeric (int64/float64) or object dtype holding
      text; boolean columns are not modelled.
    - A numeric cell is a finite rational or missing (NaN).  Comparisons
      between float64 values are exact, so thresholds and data are compared
      as the rationals they denote; medians and quantiles are computed
      exactly.  IEEE infinities occur as bin edges only.
    - Text is ASCII: case mapping and whitespace are the ASCII ones.
    - A raised Python exception is an explicit [Raise] result.
    - Reading and writing files is left out: [process] runs from the frame
      [load_data] returns to the frame that is written; the renderer starts
      from the frame read back, and a chart whose columns are present is
      taken to be drawn and saved. *)

From Stdlib Require Import String Ascii List Bool Arith ZArith QArith Lia Lqa.
From Stdlib Require Import Qround Sorted DecimalString.
Import ListNotations.
Local Close Scope Q_scope.
Local Open Scope string_scope.
Local Open Scope list_scope.
Local Open Scope nat_scope.

Set Implicit Arguments.

(* ================================================================== *)
(** * Text *)

Module Text.

(** Code points for which Python's [str.isspace] holds, within ASCII: the same
    set is stripped by [str.strip()] and matched by the regex class [\s]. *)
Definition is_space (c : ascii) : bool :=
  let n := nat_of_ascii c in
  ((9 <=? n) && (n <=? 13)) || ((28 <=? n) && (n <=? 32)).

Definition lower_char (c : ascii) : ascii :=
  let n := nat_of_ascii c in
  if (65 <=? n) && (n <=? 90) then ascii_of_nat (n + 32) else c.

Definition upper_char (c : ascii) : ascii :=
  let n := nat_of_ascii c in
  if (97 <=? n) && (n <=? 122) then ascii_of_nat (n - 32) else c.

Fixpoint smap (f : ascii -> ascii) (s : string) : string :=
  match s with
  | EmptyString => EmptyString
  | String c r => String (f c) (smap f r)
  end.

(** [str.lower()] and [str.upper()] *)
Definition lower : string -> string := smap lower_char.
Definition upper : string -> string := smap upper_char.

(** [c in s] for a one-character needle *)
Fixpoint contains (c : ascii) (s : string) : bool :=
  match s with
  | EmptyString => false
  | String d r => Ascii.eqb c d || contains c r
  end.

Fixpoint lstrip (s : string) : string :=
  match s with
  | EmptyString => EmptyString
  | String c r => if is_space c then lstrip r else s
  end.

Fixpoint all_space (s : string) : bool :=
  match s with
  | EmptyString => true
  | String c r => is_space c && all_space r
  end.

Fixpoint rstrip (s : string) : string :=
  match s with
  | EmptyString => EmptyString
  | String c r => if all_space s then EmptyString else String c (rstrip r)
  end.

(** [str.strip()] *)
Definition strip (s : string) : string := rstrip (lstrip s).

(** Replacing the regex [\s+] by the empty text: every whitespace character
    is dropped. *)
Fixpoint remove_spaces (s : string) : string :=
  match s with
  | EmptyString => EmptyString
  | String c r => if is_space c then remove_spaces r else String c (remove_spaces r)
  end.

(** [s.replace(" ", "_")] *)
Definition space_to_underscore (c : ascii) : ascii :=
  if Ascii.eqb c " "%char then "_"%char else c.

(** [needle in s] for an arbitrary needle *)
Fixpoint has_substring (needle s : string) : bool :=
  String.prefix needle s ||
  match s with
  | EmptyString => false
  | String _ r => has_substring needle r
  end.

End Text.

(* ================================================================== *)
(** * Exceptions *)

Inductive exn : Type :=
| ValueError
| TypeError
| AttributeError
| KeyError.

Inductive result (A : Type) : Type :=
| Ok (a : A)
| Raise (e : exn).
Arguments Ok {A} a.
Arguments Raise {A} e.

Definition bind {A B : Type} (r : result A) (k : A -> result B) : result B :=
  match r with
  | Ok a => k a
  | Raise e => Raise e
  end.

Notation "x <- r ;; k" := (bind r (fun x => k))
  (at level 61, r at next level, right associativity).

(** [try: r except Exception: h] *)
Definition try_except {A : Type} (r : result A) (h : result A) : result A :=
  match r with
  | Ok a => Ok a
  | Raise _ => h
  end.

(* ================================================================== *)
(** * Numbers and binning *)

(** A bin edge: a float64 value that is not NaN. *)
Inductive edge : Type :=
| NegInf
| Edge (q : Q)
| PosInf.

(** [e < x] for a finite [x] *)
Definition edge_ltb (e : edge) (x : Q) : bool :=
  match e with
  | NegInf => true
  | Edge b => negb (Qle_bool x b)
  | PosInf => false
  end.

(** [e == x] for a finite [x] *)
Definition edge_is (e : edge) (x : Q) : bool :=
  match e with
  | Edge b => Qeq_bool b x
  | _ => false
  end.

Definition edge_eqb (a b : edge) : bool :=
  match a, b with
  | NegInf, NegInf => true
  | PosInf, PosInf => true
  | Edge x, Edge y => Qeq_bool x y
  | _, _ => false
  end.

(** [a <= b] on edges *)
Definition edge_leb (a b : edge) : bool :=
  match a, b with
  | NegInf, _ => true
  | _, PosInf => true
  | Edge x, Edge y => Qle_bool x y
  | _, _ => false
  end.

(** [numpy.searchsorted(bins, x, side="left")] on increasing [bins]: the
    number of edges strictly below [x]. *)
Fixpoint searchsorted_left (bins : list edge) (x : Q) : nat :=
  match bins with
  | [] => 0
  | b :: bs => if edge_ltb b x then S (searchsorted_left bs x) else 0
  end.

Fixpoint increasing (bins : list edge) : bool :=
  match bins with
  | a :: (b :: _) as r => edge_leb a b && increasing r
  | _ => true
  end.

Fixpoint has_duplicate (bins : list edge) : bool :=
  match bins with
  | [] => false
  | b :: bs => existsb (edge_eqb b) bs || has_duplicate bs
  end.

(** One value through pandas' [_bins_to_cuts] with [right=True]: a missing
    value, an index of 0 and an index of [len(bins)] all give a missing
    label. *)
Definition label_of (bins : list edge) (labels : list string)
           (include_lowest : bool) (x : option Q) : option string :=
  match x with
  | None => None
  | Some v =>
      let ids := searchsorted_left bins v in
      let ids := if include_lowest && match bins with
                                      | b :: _ => edge_is b v
                                      | [] => false
                                      end
                 then 1 else ids in
      if (ids =? 0)%nat || (ids =? length bins)%nat then None
      else nth_error labels (ids - 1)
  end.

(** pandas' [_bins_to_cuts]: duplicate edges raise (unless there are exactly
    two edges), and so does a label list of the wrong length. *)
Definition bins_to_cuts (bins : list edge) (labels : list string)
           (include_lowest : bool) (xs : list (option Q))
  : result (list (option string)) :=
  if has_duplicate bins && negb (length bins =? 2)%nat then Raise ValueError
  else if negb (length labels =? length bins - 1)%nat then Raise ValueError
  else Ok (map (label_of bins labels include_lowest) xs).

(** [pd.cut(x, bins=[...], labels=[...])] on numeric data *)
Definition cut_bins (bins : list edge) (labels : list string)
           (xs : list (option Q)) : result (list (option string)) :=
  if negb (increasing bins) then Raise ValueError
  else bins_to_cuts bins labels false xs.

(* ================================================================== *)
(** * Per-value feature rules of [feature_engineering] *)

(** [lambda x: "male" if "m" in x else ("female" if "f" in x else x)],
    applied to the lower-cased value *)
Definition gender_map (x : string) : string :=
  if Text.contains "m"%char x then "male"
  else if Text.contains "f"%char x then "female"
  else x.

Definition gender_label_of (g : string) : string := gender_map (Text.lower g).

Definition usage_bins : list edge := [NegInf; Edge 2.99%Q; Edge 5.0%Q; PosInf].
Definition usage_labels : list string := ["casual"; "regular"; "heavy"].

Definition age_bins : list edge := [Edge 0%Q; Edge 24%Q; Edge 34%Q; Edge 44%Q; Edge 54%Q; Edge 120%Q].
Definition age_labels : list string := ["<25"; "25-34"; "35-44"; "45-54"; "55+"].

Definition usage_category_of (x : option Q) : option string :=
  label_of usage_bins usage_labels false x.

Definition age_bucket_of (x : option Q) : option string :=
  label_of age_bins age_labels false x.

(* ================================================================== *)
(** * Data frames *)

(** A column as [pd.read_csv] produces it: numeric with NaN for a missing
    cell, or object dtype holding text with NaN for a missing cell. *)
Inductive column : Type :=
| CFloat (xs : list (option Q))
| CObject (xs : list (option string)).

(** A column of the frame that [feature_engineering] builds: a loaded column,
    or one of the dtypes the derivations introduce. *)
Inductive series : Type :=
| Plain (c : column)
| Categorical (xs : list (option string))
| Datetime (xs : list (option Z))
| Dates (xs : list (option Z)).

Section Frame.
Variable C : Type.

(** Columns in table order. *)
Definition frame : Type := list (string * C).

Definition columns (df : frame) : list string := map fst df.

(** [df.get(name)] *)
Fixpoint get (name : string) (df : frame) : option C :=
  match df with
  | [] => None
  | (n, c) :: r => if String.eqb name n then Some c else get name r
  end.

(** [name in df.columns] *)
Definition has (name : string) (df : frame) : bool :=
  match get name df with
  | Some _ => true
  | None => false
  end.

(** [df[name] = c]: an existing column is replaced where it stands, a new
    one is appended. *)
Fixpoint set (name : string) (c : C) (df : frame) : frame :=
  match df with
  | [] => [(name, c)]
  | (n, c0) :: r =>
      if String.eqb name n then (n, c) :: r else (n, c0) :: set name c r
  end.
End Frame.

Definition column_length (c : column) : nat :=
  match c with
  | CFloat xs => length xs
  | CObject xs => length xs
  end.

Definition series_length (s : series) : nat :=
  match s with
  | Plain c => column_length c
  | Categorical xs => length xs
  | Datetime xs => length xs
  | Dates xs => length xs
  end.

(** [len(df)] *)
Definition nrows (df : frame column) : nat :=
  match df with
  | [] => 0
  | (_, c) :: _ => column_length c
  end.

Definition series_nrows (df : frame series) : nat :=
  match df with
  | [] => 0
  | (_, s) :: _ => series_length s
  end.

(** Every column has one cell per row. *)
Definition rectangular (df : frame column) : Prop :=
  Forall (fun nc => column_length (snd nc) = nrows df) df.

(* ------------------------------------------------------------------ *)
(** ** Rows, for duplicate removal *)

Inductive cell : Type :=
| NumCell (q : Q)
| StrCell (s : string)
| NaN.

(** pandas hashes rows to find duplicates: two missing cells are equal. *)
Definition cell_eqb (a b : cell) : bool :=
  match a, b with
  | NumCell x, NumCell y => Qeq_bool x y
  | StrCell x, StrCell y => String.eqb x y
  | NaN, NaN => true
  | _, _ => false
  end.

Fixpoint row_eqb (r1 r2 : list cell) : bool :=
  match r1, r2 with
  | [], [] => true
  | a :: r1', b :: r2' => cell_eqb a b && row_eqb r1' r2'
  | _, _ => false
  end.

Definition cells (c : column) : list cell :=
  match c with
  | CFloat xs => map (fun x => match x with Some q => NumCell q | None => NaN end) xs
  | CObject xs => map (fun x => match x with Some s => StrCell s | None => NaN end) xs
  end.

Fixpoint zip_with {A B C : Type} (f : A -> B -> C) (xs : list A) (ys : list B) : list C :=
  match xs, ys with
  | x :: xs', y :: ys' => f x y :: zip_with f xs' ys'
  | _, _ => []
  end.

(** [n] rows out of columns of [n] cells each: row [i] collects cell [i] of
    every column, in column order. *)
Fixpoint transpose (n : nat) (cols : list (list cell)) : list (list cell) :=
  match cols with
  | [] => repeat [] n
  | c :: cs => zip_with cons c (transpose n cs)
  end.

Definition rows (df : frame column) : list (list cell) :=
  transpose (nrows df) (map (fun nc => cells (snd nc)) df).

(** [df.duplicated()]: a row is marked when an equal row stands before it. *)
Fixpoint duplicated_from (seen rs : list (list cell)) : list bool :=
  match rs with
  | [] => []
  | r :: rest => existsb (row_eqb r) seen :: duplicated_from (r :: seen) rest
  end.

Definition duplicated (df : frame column) : list bool :=
  duplicated_from [] (rows df).

(** Boolean indexing: the cells whose mark is [false] are kept. *)
Fixpoint drop_marked {A : Type} (marks : list bool) (xs : list A) : list A :=
  match marks, xs with
  | m :: ms, x :: r => if m then drop_marked ms r else x :: drop_marked ms r
  | _, _ => []
  end.

Definition column_drop (marks : list bool) (c : column) : column :=
  match c with
  | CFloat xs => CFloat (drop_marked marks xs)
  | CObject xs => CObject (drop_marked marks xs)
  end.

(** [df.drop_duplicates().reset_index(drop=True)] *)
Definition drop_duplicates (df : frame column) : frame column :=
  let marks := duplicated df in
  map (fun nc => (fst nc, column_drop marks (snd nc))) df.

(* ------------------------------------------------------------------ *)
(** ** Numeric summaries *)

Definition dropna {A : Type} (xs : list (option A)) : list A :=
  flat_map (fun x => match x with Some v => [v] | None => [] end) xs.

Fixpoint insert_sorted (x : Q) (l : list Q) : list Q :=
  match l with
  | [] => [x]
  | y :: r => if Qle_bool x y then x :: l else y :: insert_sorted x r
  end.

Definition sort_asc (l : list Q) : list Q := fold_right insert_sorted [] l.

(** [Series.median(skipna=True)]; [None] is NaN, the median of no values. *)
Definition median (xs : list (option Q)) : option Q :=
  let v := sort_asc (dropna xs) in
  let n := length v in
  if n =? 0 then None
  else if Nat.odd n then Some (nth (n / 2) v 0%Q)
  else Some ((nth (n / 2 - 1) v 0%Q + nth (n / 2) v 0%Q) / 2)%Q.

(** [Series.fillna(m)] *)
Definition fillna (m : Q) (xs : list (option Q)) : list (option Q) :=
  map (fun x => match x with Some _ => x | None => Some m end) xs.

Fixpoint distinct_by {A : Type} (eqb : A -> A -> bool) (l : list A) : list A :=
  match l with
  | [] => []
  | x :: r => x :: filter (fun y => negb (eqb x y)) (distinct_by eqb r)
  end.

(** [Series.nunique()]: the distinct values, NaN left out *)
Definition nunique (c : column) : nat :=
  match c with
  | CFloat xs => length (distinct_by Qeq_bool (dropna xs))
  | CObject xs => length (distinct_by String.eqb (dropna xs))
  end.

(** The quantile [k/q] of sorted values by linear interpolation between the
    two nearest ranks, as [Series.quantile] computes it. *)
Definition quantile (v : list Q) (k q : nat) : Q :=
  let h := (inject_Z (Z.of_nat ((length v - 1) * k)) / inject_Z (Z.of_nat q))%Q in
  let lo := Z.to_nat (Qfloor h) in
  let frac := (h - inject_Z (Qfloor h))%Q in
  let a := nth lo v 0%Q in
  let b := nth (Nat.min (S lo) (length v - 1)) v 0%Q in
  (a + (b - a) * frac)%Q.

(** [pd.qcut(x, q, labels=labels)]: the edges are the quantiles [0/q .. q/q]
    of the values present; with no value present every edge is NaN and the
    edges are not unique. *)
Definition qcut (q : nat) (labels : list string) (xs : list (option Q))
  : result (list (option string)) :=
  match sort_asc (dropna xs) with
  | [] => Raise ValueError
  | v => bins_to_cuts (map (fun k => Edge (quantile v k q)) (seq 0 (S q)))
                      labels true xs
  end.

(** [numpy.linspace(a, b, n + 1)] *)
Definition linspace (a b : Q) (n : nat) : list Q :=
  map (fun k => (a + inject_Z (Z.of_nat k) * (b - a) / inject_Z (Z.of_nat n))%Q)
      (seq 0 (S n)).

Definition Qabs_val (x : Q) : Q := if Qle_bool 0 x then x else (- x)%Q.

(** [pd.cut(x, bins=n, labels=labels)]: [n] equal-width bins over the range
    of the data, the lowest edge moved down by 0.1% of the range; a constant
    column gets a range of 0.1% of its value to either side. *)
Definition cut_equal_width (n : nat) (labels : list string)
           (xs : list (option Q)) : result (list (option string)) :=
  if length xs =? 0 then Raise ValueError
  else
    match sort_asc (dropna xs) with
    | [] => Raise ValueError
    | (mn :: _) as v =>
        let mx := last v mn in
        let edges :=
          if Qeq_bool mn mx then
            let d := if Qeq_bool mn 0 then 0.001%Q else (0.001 * Qabs_val mn)%Q in
            linspace (mn - d)%Q (mx + d)%Q n
          else
            match linspace mn mx n with
            | [] => []
            | b0 :: r => (b0 - (mx - mn) * 0.001)%Q :: r
            end in
        bins_to_cuts (map Edge edges) labels false xs
    end.

(* ================================================================== *)
(** * The pandas operations the program takes from the library

    What these do on text is not part of the repository: they are taken as
    given, and every theorem below holds for all of them. *)

Record library : Type := {
  (** [pd.to_numeric] on one text cell; [None] where it does not parse *)
  parse_num : string -> option Q;
  (** [str(x)] of a number, as [astype(str)] writes it *)
  str_of_num : Q -> string;
  (** [pd.to_datetime(..., errors="coerce")] on one text cell: nanoseconds
      since the epoch, [None] (NaT) where it does not parse *)
  datetime_of_str : string -> option Z;
  (** the same on one number *)
  datetime_of_num : Q -> option Z;
  (** the text [to_csv] writes for a timestamp and for a calendar date *)
  str_of_datetime : Z -> string;
  str_of_date : Z -> string;
  (** [pd.read_csv]'s dtype inference over one column of written text *)
  read_csv_infer : list (option string) -> column
}.

Section Pipeline.
Variable L : library.

(* ---------------------------------------------------------------- *)
(** ** [basic_clean] *)

(** [lambda c: c.strip().lower().replace(" ", "_")] *)
Definition rename_column (c : string) : string :=
  Text.smap Text.space_to_underscore (Text.lower (Text.strip c)).

(** [Series.astype(str)]: a missing cell becomes the text "nan". *)
Definition astype_str (c : column) : list string :=
  match c with
  | CFloat xs =>
      map (fun x => match x with Some q => str_of_num L q | None => "nan" end) xs
  | CObject xs =>
      map (fun x => match x with Some s => s | None => "nan" end) xs
  end.

(** [col.astype(str).str.strip()] *)
Definition strip_text (c : column) : column :=
  CObject (map (fun s => Some (Text.strip s)) (astype_str c)).

Definition is_object (c : column) : bool :=
  match c with
  | CObject _ => true
  | CFloat _ => false
  end.

(** [df.select_dtypes(include="object").columns.tolist()] *)
Definition object_columns (df : frame column) : list string :=
  columns (filter (fun nc => is_object (snd nc)) df).

(** One round of a [for name in names: if name in df.columns: df[name] = f(df[name])] loop. *)
Definition update_column (f : column -> column) (df : frame column)
           (name : string) : frame column :=
  match get name df with
  | Some c => set name (f c) df
  | None => df
  end.

Definition basic_clean (df : frame column) : frame column :=
  let df := map (fun nc => (rename_column (fst nc), snd nc)) df in
  let df := drop_duplicates df in
  fold_left (update_column strip_text) (object_columns df) df.

(* ---------------------------------------------------------------- *)
(** ** [impute_and_cast] *)

Definition numeric_candidates : list string :=
  ["income"; "miles"; "usage"; "fitness"; "age"; "year"; "price";
   "quantity"; "count"].

Definition categorical_columns : list string :=
  ["product"; "gender"; "education"].

(** [pd.to_numeric(col, errors="coerce")] *)
Definition to_numeric (c : column) : list (option Q) :=
  match c with
  | CFloat xs => xs
  | CObject xs =>
      map (fun x => match x with Some s => parse_num L s | None => None end) xs
  end.

(** The value the loop fills with: the median, or 0 when it is NaN. *)
Definition fill_value (xs : list (option Q)) : Q :=
  match median xs with
  | Some m => m
  | None => 0%Q
  end.

Definition impute_column (c : column) : column :=
  let xs := to_numeric c in
  CFloat (fillna (fill_value xs) xs).

Definition impute_and_cast (df : frame column) : frame column :=
  let df := fold_left (update_column impute_column) numeric_candidates df in
  fold_left (update_column strip_text) categorical_columns df.

(* ---------------------------------------------------------------- *)
(** ** [feature_engineering] *)

Definition bucket_labels : list string := ["low"; "medium"; "high"].

(** The [.str] accessor: text columns only. *)
Definition str_values (s : series) : result (list (option string)) :=
  match s with
  | Plain (CObject xs) => Ok xs
  | Categorical xs => Ok xs
  | _ => Raise AttributeError
  end.

(** The values a binning function works on: numeric columns only; other
    dtypes make the comparison with a bin edge raise. *)
Definition num_values (s : series) : result (list (option Q)) :=
  match s with
  | Plain (CFloat xs) => Ok xs
  | _ => Raise TypeError
  end.

(** The [.dt] accessor: datetime columns only. *)
Definition dt_values (s : series) : result (list (option Z)) :=
  match s with
  | Datetime xs => Ok xs
  | _ => Raise AttributeError
  end.

(** One round of [if name in df.columns: ...] *)
Definition when_present (name : string) (df : frame series)
           (k : series -> result (frame series)) : result (frame series) :=
  match get name df with
  | Some s => k s
  | None => Ok df
  end.

(** [df["product"].str.upper()], then [.str.replace] of the regex [\s+] by
    the empty text *)
Definition product_step (df : frame series) : result (frame series) :=
  when_present "product" df (fun s =>
    xs <- str_values s ;;
    Ok (set "product_label"
            (Plain (CObject (map (option_map (fun x => Text.remove_spaces (Text.upper x))) xs)))
            df)).

(** [Series.map(f)] calls [f] on every cell; the lambda tests ["m" in x],
    which raises on a missing (float) cell. *)
Fixpoint map_gender (xs : list (option string)) : result (list (option string)) :=
  match xs with
  | [] => Ok []
  | None :: _ => Raise TypeError
  | Some x :: r => ys <- map_gender r ;; Ok (Some (gender_map x) :: ys)
  end.

Definition gender_step (df : frame series) : result (frame series) :=
  when_present "gender" df (fun s =>
    xs <- str_values s ;;
    ys <- map_gender (map (option_map Text.lower) xs) ;;
    Ok (set "gender_label" (Plain (CObject ys)) df)).

(** [Series.replace({0: np.nan})] *)
Definition zero_to_nan (xs : list (option Q)) : list (option Q) :=
  map (fun x => match x with
                | Some q => if Qeq_bool q 0 then None else Some q
                | None => None
                end) xs.

Definition income_bins : list edge := [NegInf; Edge 40000%Q; Edge 70000%Q; PosInf].

Definition income_step (df : frame series) : result (frame series) :=
  when_present "income" df (fun s =>
    ys <- try_except
            (xs <- num_values s ;; qcut 3 bucket_labels (zero_to_nan xs))
            (xs <- num_values s ;; cut_bins income_bins bucket_labels xs) ;;
    Ok (set "income_bucket" (Categorical ys) df)).

Definition series_nunique (s : series) : nat :=
  match s with
  | Plain c => nunique c
  | Categorical xs => length (distinct_by String.eqb (dropna xs))
  | Datetime xs => length (distinct_by Z.eqb (dropna xs))
  | Dates xs => length (distinct_by Z.eqb (dropna xs))
  end.

(** The body of the [try] for [miles_category]. *)
Definition miles_split (s : series) : result series :=
  if 3 <=? series_nunique s then
    xs <- num_values s ;; ys <- qcut 3 bucket_labels xs ;; Ok (Categorical ys)
  else
    xs <- num_values s ;; ys <- cut_equal_width 3 bucket_labels xs ;; Ok (Categorical ys).

(** [df[name] = "unknown"]: the text on every row *)
Definition constant_text (n : nat) (v : string) : series :=
  Plain (CObject (repeat (Some v) n)).

Definition miles_step (df : frame series) : result (frame series) :=
  when_present "miles" df (fun s =>
    c <- try_except (miles_split s)
                    (Ok (constant_text (series_nrows df) "unknown")) ;;
    Ok (set "miles_category" c df)).

Definition usage_step (df : frame series) : result (frame series) :=
  when_present "usage" df (fun s =>
    xs <- num_values s ;;
    ys <- cut_bins usage_bins usage_labels xs ;;
    Ok (set "usage_category" (Categorical ys) df)).

Definition age_step (df : frame series) : result (frame series) :=
  when_present "age" df (fun s =>
    xs <- num_values s ;;
    ys <- cut_bins age_bins age_labels xs ;;
    Ok (set "age_bucket" (Categorical ys) df)).

(** [Series.astype(str)] on any column of the working frame *)
Definition series_astype_str (s : series) : list string :=
  match s with
  | Plain c => astype_str c
  | Categorical xs =>
      map (fun x => match x with Some v => v | None => "nan" end) xs
  | Datetime xs =>
      map (fun x => match x with Some t => str_of_datetime L t | None => "NaT" end) xs
  | Dates xs =>
      map (fun x => match x with Some d => str_of_date L d | None => "NaT" end) xs
  end.

(** [Series.replace({...})] with the synonym table of the source *)
Definition education_synonym (x : string) : string :=
  if String.eqb x "bachelors" then "bachelor"
  else if String.eqb x "bachelor's" then "bachelor"
  else if String.eqb x "masters" then "master"
  else if String.eqb x "master's" then "master"
  else if String.eqb x "phd" then "phd"
  else x.

Definition education_step (df : frame series) : result (frame series) :=
  when_present "education" df (fun s =>
    Ok (set "education_label"
            (Plain (CObject (map (fun x => Some (education_synonym (Text.lower x)))
                                 (series_astype_str s))))
            df)).

(** ["date" in c or "time" in c or "datetime" in c] *)
Definition datelike (c : string) : bool :=
  Text.has_substring "date" c || Text.has_substring "time" c
  || Text.has_substring "datetime" c.

Definition option_bind {A B : Type} (f : A -> option B) (x : option A) : option B :=
  match x with
  | Some a => f a
  | None => None
  end.

Definition ns_per_day : Z := 86400000000000.
Definition ns_per_hour : Z := 3600000000000.

(** [pd.to_datetime(col, errors="coerce")]: never raises. *)
Definition to_datetime (s : series) : list (option Z) :=
  match s with
  | Plain (CFloat xs) => map (option_bind (datetime_of_num L)) xs
  | Plain (CObject xs) => map (option_bind (datetime_of_str L)) xs
  | Categorical xs => map (option_bind (datetime_of_str L)) xs
  | Datetime xs => xs
  | Dates xs => map (option_map (fun d => (d * ns_per_day)%Z)) xs
  end.

(** [.dt.date]: days since the epoch *)
Definition date_of (t : Z) : Z := (t / ns_per_day)%Z.

(** [.dt.hour] *)
Definition hour_of (t : Z) : Q := inject_Z ((t / ns_per_hour) mod 24)%Z.

(** [.dt.day_name()]: the epoch day was a Thursday. *)
Definition day_name_of (t : Z) : string :=
  nth (Z.to_nat ((date_of t + 3) mod 7)%Z)
      ["Monday"; "Tuesday"; "Wednesday"; "Thursday"; "Friday"; "Saturday"; "Sunday"]
      EmptyString.

Definition get_or_raise (name : string) (df : frame series) : result series :=
  match get name df with
  | Some s => Ok s
  | None => Raise KeyError
  end.

Definition datetime_step (df : frame series) : result (frame series) :=
  match filter datelike (columns df) with
  | [] => Ok df
  | dtc :: _ =>
      s <- get_or_raise dtc df ;;
      let df := set dtc (Datetime (to_datetime s)) df in
      s <- get_or_raise dtc df ;;
      ts <- dt_values s ;;
      let df := set "date" (Dates (map (option_map date_of) ts)) df in
      s <- get_or_raise dtc df ;;
      ts <- dt_values s ;;
      let df := set "hour" (Plain (CFloat (map (option_map hour_of) ts))) df in
      s <- get_or_raise dtc df ;;
      ts <- dt_values s ;;
      Ok (set "day_of_week" (Plain (CObject (map (option_map day_name_of) ts))) df)
  end.

Definition both {A B C : Type} (f : A -> B -> C) (x : option A) (y : option B) : option C :=
  match x, y with
  | Some a, Some b => Some (f a b)
  | _, _ => None
  end.

Definition is_some {A : Type} (x : option A) : bool :=
  match x with
  | Some _ => true
  | None => false
  end.

(** [reg + cas]: numbers add, text concatenates, a missing cell on either
    side gives a missing cell; a number and a text on one row raise. *)
Definition series_add (a b : series) : result series :=
  match a, b with
  | Plain (CFloat xs), Plain (CFloat ys) =>
      Ok (Plain (CFloat (zip_with (both Qplus) xs ys)))
  | Plain (CObject xs), Plain (CObject ys) =>
      Ok (Plain (CObject (zip_with (both String.append) xs ys)))
  | Plain (CFloat xs), Plain (CObject ys) =>
      if existsb (fun p => p) (zip_with (fun x y => is_some x && is_some y) xs ys)
      then Raise TypeError
      else Ok (Plain (CFloat (zip_with (fun _ _ => None) xs ys)))
  | Plain (CObject xs), Plain (CFloat ys) =>
      if existsb (fun p => p) (zip_with (fun x y => is_some x && is_some y) xs ys)
      then Raise TypeError
      else Ok (Plain (CObject (zip_with (fun _ _ => None) xs ys)))
  | _, _ => Raise TypeError
  end.

Definition count_step (df : frame series) : result (frame series) :=
  if (has "registered" df || has "casual" df) && negb (has "count" df) then
    match get "registered" df, get "casual" df with
    | Some reg, Some cas => c <- series_add reg cas ;; Ok (set "count" c df)
    | _, _ => Ok df
    end
  else Ok df.

(** [feature_engineering], on the frame as [impute_and_cast] returns it *)
Definition feature_engineering (df : frame series) : result (frame series) :=
  df <- product_step df ;;
  df <- gender_step df ;;
  df <- income_step df ;;
  df <- miles_step df ;;
  df <- usage_step df ;;
  df <- age_step df ;;
  df <- education_step df ;;
  df <- datetime_step df ;;
  count_step df.

Definition loaded (df : frame column) : frame series :=
  map (fun nc => (fst nc, Plain (snd nc))) df.

(** [process], from the frame [load_data] returns to the frame that is
    written and returned *)
Definition process (raw : frame column) : result (frame series) :=
  feature_engineering (loaded (impute_and_cast (basic_clean raw))).

(* ---------------------------------------------------------------- *)
(** ** The chart renderer *)

(** One column through [to_csv] and [pd.read_csv]. *)
Definition reload (s : series) : column :=
  match s with
  | Plain (CFloat []) => CObject []
  | Plain (CFloat xs) => CFloat xs
  | Plain (CObject xs) => read_csv_infer L xs
  | Categorical xs => read_csv_infer L xs
  | Datetime xs => read_csv_infer L (map (option_map (str_of_datetime L)) xs)
  | Dates xs => read_csv_infer L (map (option_map (str_of_date L)) xs)
  end.

(** The frame [generate_all] reads from the file [process] wrote. *)
Definition read_back (df : frame series) : frame column :=
  map (fun nc => (fst nc, reload (snd nc))) df.

(** Each chart: the file it saves, or nothing when it is skipped.  The
    drawing calls themselves are taken to succeed. *)
Definition plot_product_distribution (df : frame series) : list string :=
  if negb (has "product_label" df) then []
  else ["product_distribution.png"].

Definition plot_income_by_product (df : frame series) : list string :=
  if negb (has "income" df) || negb (has "product_label" df) then []
  else ["income_by_product_boxplot.png"].

Definition plot_miles_vs_usage (df : frame series) : list string :=
  if negb (has "miles" df) || negb (has "usage" df) then []
  else ["miles_vs_usage.png"].

Definition plot_usage_histogram (df : frame series) : list string :=
  if negb (has "usage" df) then []
  else ["usage_histogram.png"].

Definition plot_product_gender (df : frame series) : list string :=
  if negb (has "product_label" df) || negb (has "gender_label" df) then []
  else ["product_gender_bar.png"].

Definition plot_usage_by_product (df : frame series) : list string :=
  if negb (has "usage" df) || negb (has "product_label" df) then []
  else ["usage_by_product_boxplot.png"].

Definition plot_education_vs_product (df : frame series) : list string :=
  if negb (has "education_label" df) || negb (has "product_label" df) then []
  else ["education_product_stacked.png"].

(** [df.select_dtypes(include=[np.number])] *)
Definition is_number (s : series) : bool :=
  match s with
  | Plain (CFloat _) => true
  | _ => false
  end.

Definition plot_correlation_heatmap (df : frame series) : list string :=
  if length (filter (fun nc => is_number (snd nc)) df) <? 2 then []
  else ["correlation_heatmap.png"].

(** The date handling at the head of [generate_all]; nothing in it raises. *)
Definition parse_first_datelike (df : frame series) : frame series :=
  match filter datelike (columns df) with
  | [] => df
  | dtc :: _ =>
      match get dtc df with
      | None => df
      | Some s =>
          let df := set dtc (Datetime (to_datetime s)) df in
          if has "date" df then df
          else
            match get dtc df with
            | None => df
            | Some s' =>
                set "date" (Dates (map (option_map date_of) (to_datetime s'))) df
            end
      end
  end.

(** [generate_all]: the files saved, in order *)
Definition generate_all (csv : frame column) : list string :=
  let df := parse_first_datelike (loaded csv) in
  plot_product_distribution df ++ plot_income_by_product df
  ++ plot_miles_vs_usage df ++ plot_usage_histogram df
  ++ plot_product_gender df ++ plot_usage_by_product df
  ++ plot_education_vs_product df ++ plot_correlation_heatmap df.

(** The names of the eight files the renderer can save. *)
Definition all_charts : list string :=
  ["product_distribution.png"; "income_by_product_boxplot.png";
   "miles_vs_usage.png"; "usage_histogram.png"; "product_gender_bar.png";
   "usage_by_product_boxplot.png"; "education_product_stacked.png";
   "correlation_heatmap.png"].

End Pipeline.

(* ================================================================== *)
(** * The thresholds as the specification words them *)

(** [casual] up to 2.99, [regular] above 2.99 and up to 5.0, [heavy] above. *)
Definition usage_rule (v : Q) : string :=
  if Qle_bool v 2.99%Q then "casual"
  else if Qle_bool v 5.0%Q then "regular"
  else "heavy".

(** A three-way split at two edges: low up to [e1], medium above [e1] and
    up to [e2], high above [e2]. *)
Definition three_way (e1 e2 v : Q) : string :=
  if Qle_bool v e1 then "low" else if Qle_bool v e2 then "medium" else "high".

(** The names [feature_engineering] assigns without asking whether the
    column exists already. *)
Definition derived_names : list string :=
  ["product_label"; "gender_label"; "income_bucket"; "miles_category";
   "usage_category"; "age_bucket"; "education_label"; "date"; "hour";
   "day_of_week"].

(** The first date-like column, in table order. *)
Definition first_datelike {C : Type} (df : frame C) : option string :=
  hd_error (filter datelike (columns df)).

(** [df'] agrees with [df] on every column whose name is not listed. *)
Definition unchanged_outside {C : Type} (names : list string) (df df' : frame C) : Prop :=
  forall n, ~ In n names -> get n df' = get n df.

(** [df'] keeps the columns of [df] in place and appends some of [names]. *)
Definition extends_with {C : Type} (names : list string) (df df' : frame C) : Prop :=
  exists extra, columns df' = columns df ++ extra /\ incl extra names.

(* ================================================================== *)
(** * Auxiliary notions for the proofs *)

(** A step that leaves the frame alone or assigns the one column [target]. *)
Definition assigns_only (target : string) (df df' : frame series) : Prop :=
  df' = df \/ exists c, df' = set target c df.

(** The seven labels and buckets assigned before the date handling. *)
Definition label_names : list string :=
  ["product_label"; "gender_label"; "income_bucket"; "miles_category";
   "usage_category"; "age_bucket"; "education_label"].

(** Renaming columns does not touch the rows. *)
Definition rename_with (g : string -> string) (df : frame column) : frame column :=
  map (fun nc => (g (fst nc), snd nc)) df.

(** What a loop of [update_column] does to one named column. *)
Definition update_where (names : list string) (f : column -> column)
           (nc : string * column) : string * column :=
  if existsb (String.eqb (fst nc)) names then (fst nc, f (snd nc)) else nc.

(** [impute_and_cast] column by column. *)
Definition impute_cast_column (L : library) (nc : string * column)
  : string * column :=
  update_where categorical_columns (strip_text L)
    (update_where numeric_candidates (impute_column L) nc).

(** The frame handed to the feature deriver. *)
Definition prepared (L : library) (raw : frame column) : frame column :=
  impute_and_cast L (basic_clean L raw).

(** Every column of the working frame has [n] cells. *)
Definition uniform (n : nat) (df : frame series) : Prop :=
  Forall (fun nc => series_length (snd nc) = n) df.

(** Every character of the text satisfies [p]. *)
Fixpoint every_char (p : ascii -> bool) (s : string) : bool :=
  match s with
  | EmptyString => true
  | String c r => p c && every_char p r
  end.

(** An ASCII capital letter. *)
Definition is_capital (c : ascii) : bool :=
  let n := nat_of_ascii c in (65 <=? n) && (n <=? 90).

(* ================================================================== *)
(** * What the claims say, as predicates on tables *)

(** [y] labels [x]: a present value has one of [labels], a missing value has
    none. *)
Definition labelled (labels : list string) (x : option Q) (y : option string) : Prop :=
  match x with
  | Some _ => exists l, y = Some l /\ In l labels
  | None => y = None
  end.

(** [y] is missing or one of [labels]. *)
Definition within (labels : list string) (y : option string) : Prop :=
  y = None \/ exists l, y = Some l /\ In l labels.

(** The usage column and its categories: every row has a usage and one of
    the three labels. *)
Definition usage_labelled (p : frame series) : Prop :=
  exists us ys,
    get "usage" p = Some (Plain (CFloat us))
    /\ get "usage_category" p = Some (Categorical ys)
    /\ Forall (fun u => u <> None) us
    /\ Forall2 (labelled usage_labels) us ys.

(** The age column and its buckets: a bucket is missing or one of the five
    labels, and it is a label where the age is above 0 and at most 120. *)
Definition age_labelled (p : frame series) : Prop :=
  exists ages ys,
    get "age" p = Some (Plain (CFloat ages))
    /\ get "age_bucket" p = Some (Categorical ys)
    /\ Forall (within age_labels) ys
    /\ Forall2 (fun a y => forall v, a = Some v -> (0 < v)%Q -> (v <= 120)%Q ->
                           exists l, y = Some l /\ In l age_labels) ages ys.

(** The income column and its buckets: a bucket is missing or one of the
    three labels, and it is a label where the income is not 0. *)
Definition income_labelled (p : frame series) : Prop :=
  exists xs ys,
    get "income" p = Some (Plain (CFloat xs))
    /\ get "income_bucket" p = Some (Categorical ys)
    /\ Forall (within bucket_labels) ys
    /\ Forall2 (fun x y => forall v, x = Some v -> ~ (v == 0)%Q ->
                           exists l, y = Some l /\ In l bucket_labels) xs ys.

(** The miles column and its categories: one of the three labels on every
    row, or the text "unknown" on every row. *)
Definition miles_labelled (p : frame series) : Prop :=
  exists ms,
    get "miles" p = Some (Plain (CFloat ms))
    /\ Forall (fun m => m <> None) ms
    /\ (get "miles_category" p = Some (constant_text (length ms) "unknown")
        \/ exists ys, get "miles_category" p = Some (Categorical ys)
                      /\ Forall2 (labelled bucket_labels) ms ys).

(** No cell of the column is missing. *)
Definition populated (s : series) : bool :=
  match s with
  | Plain (CFloat xs) => forallb is_some xs
  | Plain (CObject xs) => forallb is_some xs
  | Categorical xs => forallb is_some xs
  | Datetime xs => forallb is_some xs
  | Dates xs => forallb is_some xs
  end.

(** The column is there and none of its cells is missing. *)
Definition fully_populated (p : frame series) (name : string) : Prop :=
  exists s, get name p = Some s /\ populated s = true.

(** The input of the scenario: the six survey columns, 180 rows, and one
    row that repeats an earlier one. *)
Definition survey_input (raw : frame column) : Prop :=
  columns raw = ["Product"; "Age"; "Gender"; "Income"; "Miles"; "Usage"]
  /\ rectangular raw
  /\ nrows raw = 180
  /\ count_occ Bool.bool_dec (duplicated raw) true = 1.

Definition survey_columns : list string :=
  ["product"; "age"; "gender"; "income"; "miles"; "usage";
   "product_label"; "gender_label"; "income_bucket"; "miles_category";
   "usage_category"; "age_bucket"].

(** The files saved when only [education_label] is absent. *)
Definition charts_without_education : list string :=
  ["product_distribution.png"; "income_by_product_boxplot.png";
   "miles_vs_usage.png"; "usage_histogram.png"; "product_gender_bar.png";
   "usage_by_product_boxplot.png"; "correlation_heatmap.png"].

(** The outcome as the scenario words it: 179 rows, the six derived columns
    fully populated, and [files] image files saved. *)
Definition survey_outcome (L : library) (raw : frame column) (files : nat) : Prop :=
  exists p,
    process L raw = Ok p
    /\ uniform 179 p
    /\ Forall (fully_populated p)
         ["product_label"; "gender_label"; "income_bucket"; "miles_category";
          "usage_category"; "age_bucket"]
    /\ length (generate_all L (read_back L p)) = files.

(** Every value of the column is one of [labels]; no row is missing. *)
Definition values_in (labels : list string) (s : series) : Prop :=
  match s with
  | Categorical ys | Plain (CObject ys) =>
      Forall (fun y => exists l, y = Some l /\ In l labels) ys
  | _ => False
  end.

(** The label sets as closed sets without a missing row. *)
Definition closed_label_sets (p : frame series) : Prop :=
  (forall s, get "income_bucket" p = Some s -> values_in bucket_labels s)
  /\ (forall s, get "miles_category" p = Some s -> values_in bucket_labels s)
  /\ (forall s, get "usage_category" p = Some s -> values_in usage_labels s)
  /\ (forall s, get "age_bucket" p = Some s -> values_in age_labels s).

(** Every column of the input but the first date-like one comes out as it
    went in. *)
Definition keeps_all_but_datelike (L : library) (df : frame series) : Prop :=
  forall df' n c,
    feature_engineering L df = Ok df' -> get n df = Some c ->
    first_datelike df <> Some n -> get n df' = Some c.

(* ================================================================== *)
(** * A concrete library and concrete tables *)

Definition Z_text (z : Z) : string := NilZero.string_of_int (Z.to_int z).

Fixpoint digits_value (s : string) (acc : Z) : option Z :=
  match s with
  | EmptyString => Some acc
  | String c r =>
      let n := nat_of_ascii c in
      if (48 <=? n) && (n <=? 57)
      then digits_value r (10 * acc + Z.of_nat (n - 48))%Z
      else None
  end.

(** Whole numbers in decimal digits, with an optional minus sign. *)
Definition parse_integer (s : string) : option Q :=
  match s with
  | EmptyString => None
  | String "-" r =>
      match r with
      | EmptyString => None
      | _ => option_map (fun z => inject_Z (- z)) (digits_value r 0)
      end
  | _ => option_map inject_Z (digits_value s 0)
  end.

(** A small instance of the library operations: numbers are whole numbers
    in decimal digits, no text parses as a timestamp, and a column of
    written text is read back as numbers when every cell present is one. *)
Definition plain_library : library := {|
  parse_num := parse_integer;
  str_of_num := fun q => Z_text (Qfloor q);
  datetime_of_str := fun _ => None;
  datetime_of_num := fun q => Some (Qfloor q);
  str_of_datetime := Z_text;
  str_of_date := Z_text;
  read_csv_infer := fun xs =>
    if forallb (fun x => match x with
                         | Some s => is_some (parse_integer s)
                         | None => true
                         end) xs
       && existsb is_some xs
    then CFloat (map (option_bind parse_integer) xs)
    else CObject xs |}.

(** Row numbers of the survey: 179 different rows, then the first again. *)
Definition survey_index : list nat := seq 0 179 ++ [0].

Definition survey (income : nat -> Z) : frame column :=
  [("Product",
    CObject (map (fun i => Some (nth (i mod 3) ["KP281"; "KP481"; "KP781"] EmptyString))
                 survey_index));
   ("Age",
    CFloat (map (fun i => Some (inject_Z (Z.of_nat (18 + i mod 40)))) survey_index));
   ("Gender",
    CObject (map (fun i => Some (if Nat.even i then "Male" else "Female"))
                 survey_index));
   ("Income", CFloat (map (fun i => Some (inject_Z (income i))) survey_index));
   ("Miles",
    CFloat (map (fun i => Some (inject_Z (Z.of_nat (40 + i)))) survey_index));
   ("Usage",
    CFloat (map (fun i => Some (inject_Z (Z.of_nat (2 + i mod 6)))) survey_index))].

(** 180 rows, every income different and above 0. *)
Definition survey180 : frame column :=
  survey (fun i => (30000 + 500 * Z.of_nat i)%Z).

(** The same with an income of 0 on the sixth row. *)
Definition survey180_zero : frame column :=
  survey (fun i => if i =? 5 then 0%Z else (30000 + 500 * Z.of_nat i)%Z).

(** Four rows: usage as text with an unreadable and a missing cell, an age
    of 0 and one of 130, an income of 0, and miles with two values. *)
Definition mixed_table : frame column :=
  [(" Usage", CObject [Some "2"; Some "x"; None; Some "6"]);
   ("Age", CFloat [Some 0%Q; Some 30%Q; Some 50%Q; Some 130%Q]);
   ("Income", CFloat [Some 0%Q; Some 10%Q; Some 20%Q; Some 30%Q]);
   ("Miles", CFloat [Some 1%Q; Some 1%Q; Some 1%Q; Some 3%Q])].

Definition mixed_processed : frame series :=
  Eval vm_compute in
    match process plain_library mixed_table with
    | Ok p => p
    | Raise _ => []
    end.

(** Two rows that differ by a trailing blank only. *)
Definition padded_table : frame column :=
  [("Name", CObject [Some "a"; Some "a "]); ("Miles", CFloat [Some 1%Q; Some 1%Q])].

(** A table with a repeated row and no text. *)
Definition numeric_table : frame column :=
  [("Miles", CFloat [Some 1%Q; Some 2%Q; Some 1%Q]);
   ("Usage", CFloat [Some 3%Q; None; Some 3%Q])].

Definition gappy_table : frame column :=
  [("income", CObject [Some "3"; Some "x"; None; Some "10"; Some "4"]);
   ("gender", CObject [Some " Male"; None; Some "f "; Some "x"; Some "M"]);
   ("note", CObject [Some " kept "; None; None; None; None])].

Definition usage_frame : frame series :=
  [("usage", Plain (CFloat [Some 2.99%Q; Some 3.0%Q; Some 5.0%Q; Some 5.01%Q; None]))].


(** A processed table fed to the deriver again: the derived column is
    there already, as text. *)
Definition relabelled_frame : frame series :=
  [("usage", Plain (CFloat [Some 1%Q]));
   ("usage_category", Plain (CObject [Some "x"]))].

Definition timed_frame : frame series :=
  [("when_time", Plain (CFloat [Some 90000000000000%Q]));
   ("usage", Plain (CFloat [Some 6%Q]))].

Definition small_table : frame column :=
  [("usage", CFloat [Some 1%Q; Some 6%Q; Some 3%Q]);
   ("gender", CObject [Some "Male"; Some "f"; Some "x"])].

Definition timed_derived : frame series :=
  Eval vm_compute in
    match feature_engineering plain_library timed_frame with
    | Ok p => p
    | Raise _ => []
    end.

(* ================================================================== *)
(** * Columns assigned, charts and orders *)

(** Each source column with the label column derived from it, in the order
    [feature_engineering] handles them. *)
Definition label_sources : list (string * string) :=
  [("product", "product_label"); ("gender", "gender_label");
   ("income", "income_bucket"); ("miles", "miles_category");
   ("usage", "usage_category"); ("age", "age_bucket");
   ("education", "education_label")].

(** [n in names] *)
Definition mentions (names : list string) (n : string) : bool :=
  existsb (String.eqb n) names.

(** The columns [feature_engineering] assigns on a table whose columns are
    [names], in the order it assigns them. *)
Definition assigned_columns (names : list string) : list string :=
  map snd (filter (fun sl => mentions names (fst sl)) label_sources)
  ++ match filter datelike names with
     | [] => []
     | _ :: _ => ["date"; "hour"; "day_of_week"]
     end
  ++ (if mentions names "registered" && mentions names "casual"
         && negb (mentions names "count")
      then ["count"] else []).

(** Those of them the table does not have yet. *)
Definition appended_columns (names : list string) : list string :=
  filter (fun n => negb (mentions names n)) (assigned_columns names).

(** What one label step appends. *)
Definition appends_for (names : list string) (sl : string * string) : list string :=
  if mentions names (fst sl) && negb (mentions names (snd sl)) then [snd sl] else [].

(** The source columns as the imputer leaves them: text for product, text
    without a missing cell for gender, numbers for income, usage and age. *)
Definition ready (df : frame series) : Prop :=
  (forall s, get "product" df = Some s -> exists xs, s = Plain (CObject xs))
  /\ (forall s, get "gender" df = Some s ->
        exists gs, s = Plain (CObject (map Some gs)))
  /\ (forall n s, In n ["income"; "usage"; "age"] -> get n df = Some s ->
        exists xs, s = Plain (CFloat xs)).

(** The cleaned column names of a raw table. *)
Definition clean_names (raw : frame column) : list string :=
  map rename_column (columns raw).

(** A label step, told by what it found: nothing under the source name, or
    a column that it labels. *)
Definition labels_from (src label : string) (df df' : frame series) : Prop :=
  (get src df = None /\ df' = df)
  \/ (exists s c, get src df = Some s /\ df' = set label c df).





(** What the cleaner does to one column, given the marks of the rows that
    repeat an earlier row: the marked rows go, and a text column is trimmed,
    a missing cell becoming the text nan. *)
Definition clean_column (marks : list bool) (c : column) : column :=
  match c with
  | CFloat xs => CFloat (drop_marked marks xs)
  | CObject xs =>
      CObject (map (fun x => Some (Text.strip match x with
                                              | Some s => s
                                              | None => "nan"
                                              end))
                   (drop_marked marks xs))
  end.

(** The place of a label in its list of labels. *)
Fixpoint label_rank (labels : list string) (l : string) : nat :=
  match labels with
  | [] => 0
  | x :: r => if String.eqb x l then 0 else S (label_rank r l)
  end.

(** The labels [ys] follow the order of the values [xs]: of two rows that
    both have a value and a label, the one with the larger value does not
    have the lower label. *)
Definition ordered_rows (labels : list string) (xs : list (option Q))
           (ys : list (option string)) : Prop :=
  forall i j v w a b,
    nth_error xs i = Some (Some v) -> nth_error xs j = Some (Some w) ->
    nth_error ys i = Some (Some a) -> nth_error ys j = Some (Some b) ->
    (v <= w)%Q -> label_rank labels a <= label_rank labels b.

(** An ASCII small letter. *)
Definition is_small (c : ascii) : bool :=
  let n := nat_of_ascii c in (97 <=? n) && (n <=? 122).

(** A product code in its normal form: no whitespace and no small letter. *)
Definition is_code_char (c : ascii) : bool :=
  negb (Text.is_space c) && negb (is_small c).

(** The spellings the education step replaces. *)
Definition education_spellings : list string :=
  ["bachelors"; "bachelor's"; "masters"; "master's"].


(* ================================================================== *)
(** * More concrete tables *)




(** A gender column with a missing cell, as [pd.read_csv] loads it. *)
Definition gender_gap : frame series :=
  [("gender", Plain (CObject [Some "Male"; None]))].

Definition gappy_derived : frame series :=
  Eval vm_compute in
    match feature_engineering plain_library
            (loaded (impute_and_cast plain_library gappy_table)) with
    | Ok p => p
    | Raise _ => []
    end.

Definition small_derived : frame series :=
  Eval vm_compute in
    match feature_engineering plain_library (loaded small_table) with
    | Ok p => p
    | Raise _ => []
    end.

Definition coded_frame : frame series :=
  [("product", Plain (CObject [Some "kp 281"; None; Some "Kp781"]))].

Definition coded_derived : frame series :=
  Eval vm_compute in
    match feature_engineering plain_library coded_frame with
    | Ok p => p
    | Raise _ => []
    end.

Definition schooled_frame : frame series :=
  [("education", Plain (CObject [Some "Bachelors"; Some "PhD"; None]))].

Definition schooled_derived : frame series :=
  Eval vm_compute in
    match feature_engineering plain_library schooled_frame with
    | Ok p => p
    | Raise _ => []
    end.

Definition rides_frame : frame series :=
  [("registered", Plain (CFloat [Some 3%Q; None]));
   ("casual", Plain (CFloat [Some 4%Q; Some 1%Q]))].

Definition rides_derived : frame series :=
  Eval vm_compute in
    match feature_engineering plain_library rides_frame with
    | Ok p => p
    | Raise _ => []
    end.


(** * Counting around a value *)

(** How many of the values lie below [x], and how many do not lie above. *)
Definition count_below (x : Q) (l : list Q) : nat :=
  length (filter (fun y => negb (Qle_bool x y)) l).

Definition count_upto (x : Q) (l : list Q) : nat :=
  length (filter (fun y => Qle_bool y x) l).

Unset Implicit Arguments.

(* ================================================================== *)
(** * Frames: reading and assigning columns *)

Section FrameFacts.
Variable C : Type.
Implicit Types (df : frame C) (c : C) (n m : string).

Lemma get_set_same n c df : get n (set n c df) = Some c.
Proof.
  induction df as [|[k c0] r IH]; simpl.
  - now rewrite String.eqb_refl.
  - destruct (String.eqb n k) eqn:E; simpl; rewrite E; auto.
Qed.

Lemma get_set_other n m c df : n <> m -> get n (set m c df) = get n df.
Proof.
  intros Hnm. induction df as [|[k c0] r IH]; simpl.
  - destruct (String.eqb n m) eqn:E; auto.
    apply String.eqb_eq in E. contradiction.
  - destruct (String.eqb m k) eqn:E; simpl.
    + apply String.eqb_eq in E. subst k.
      destruct (String.eqb n m) eqn:E'; auto.
      apply String.eqb_eq in E'. contradiction.
    + destruct (String.eqb n k); auto.
Qed.

Lemma get_in_columns n df c : get n df = Some c -> In n (columns df).
Proof.
  induction df as [|[k c0] r IH]; simpl; [discriminate|].
  destruct (String.eqb n k) eqn:E; intros H.
  - apply String.eqb_eq in E. auto.
  - auto.
Qed.

Lemma get_in_frame n df c : get n df = Some c -> In (n, c) df.
Proof.
  induction df as [|[k c0] r IH]; cbn [get In]; [discriminate|].
  destruct (String.eqb n k) eqn:E; intros H.
  - apply String.eqb_eq in E. left. congruence.
  - right. auto.
Qed.

Lemma get_none_columns n df : get n df = None -> ~ In n (columns df).
Proof.
  induction df as [|[k c0] r IH]; simpl; [tauto|].
  destruct (String.eqb n k) eqn:E; [discriminate|].
  apply String.eqb_neq in E. intros H [K|K]; [congruence|]. now apply IH.
Qed.

Lemma in_columns_get n df : In n (columns df) -> exists c, get n df = Some c.
Proof.
  intros H. destruct (get n df) eqn:E; eauto.
  now apply get_none_columns in E.
Qed.

Lemma columns_set_present n c c0 df :
  get n df = Some c0 -> columns (set n c df) = columns df.
Proof.
  induction df as [|[k c1] r IH]; simpl; [discriminate|].
  destruct (String.eqb n k) eqn:E; simpl; auto.
  intros H. now rewrite IH.
Qed.

Lemma columns_set_absent n c df :
  get n df = None -> columns (set n c df) = columns df ++ [n].
Proof.
  induction df as [|[k c1] r IH]; simpl; auto.
  destruct (String.eqb n k) eqn:E; simpl; [discriminate|].
  intros H. now rewrite IH.
Qed.

Lemma set_extends n c df : extends_with [n] df (set n c df).
Proof.
  destruct (get n df) eqn:E.
  - exists []. erewrite columns_set_present by eauto. rewrite app_nil_r.
    split; auto. intros x [].
  - exists [n]. rewrite columns_set_absent by auto. split; auto. apply incl_refl.
Qed.

Lemma set_unchanged n c df : unchanged_outside [n] df (set n c df).
Proof.
  intros k Hk. apply get_set_other. intros ->. apply Hk. now left.
Qed.

Lemma unchanged_refl names df : unchanged_outside names df df.
Proof. now intros n _. Qed.

Lemma unchanged_trans names1 names2 df1 df2 df3 :
  unchanged_outside names1 df1 df2 -> unchanged_outside names2 df2 df3 ->
  unchanged_outside (names1 ++ names2) df1 df3.
Proof.
  intros H1 H2 n Hn. rewrite H2, H1; auto; intros K; apply Hn, in_or_app; auto.
Qed.

Lemma unchanged_weaken names names' df df' :
  incl names names' -> unchanged_outside names df df' ->
  unchanged_outside names' df df'.
Proof. intros Hi H n Hn. apply H. intros K. apply Hn, Hi, K. Qed.

Lemma extends_refl names df : extends_with names df df.
Proof. exists []. rewrite app_nil_r. split; auto. intros x []. Qed.

Lemma extends_trans names1 names2 df1 df2 df3 :
  extends_with names1 df1 df2 -> extends_with names2 df2 df3 ->
  extends_with (names1 ++ names2) df1 df3.
Proof.
  intros (e1 & E1 & I1) (e2 & E2 & I2). exists (e1 ++ e2).
  rewrite E2, E1, app_assoc. split; auto.
  intros x Hx. apply in_app_or in Hx. apply in_or_app. destruct Hx; auto.
Qed.

Lemma extends_weaken names names' df df' :
  incl names names' -> extends_with names df df' -> extends_with names' df df'.
Proof.
  intros Hi (e & E & I). exists e. split; auto. eapply incl_tran; eauto.
Qed.

Lemma has_true n df : has n df = true <-> exists c, get n df = Some c.
Proof.
  unfold has. destruct (get n df); split; eauto; try discriminate.
  intros [c H]. discriminate.
Qed.

Lemma has_false n df : has n df = false <-> get n df = None.
Proof. unfold has. destruct (get n df); split; congruence. Qed.
End FrameFacts.

(* ================================================================== *)
(** * Text: trimming twice trims once *)

Module TextFacts.
Import Text.

Lemma all_space_rstrip s : all_space (rstrip s) = all_space s.
Proof.
  induction s as [|c r IH]; auto.
  cbn [rstrip]. destruct (all_space (String c r)) eqn:E; auto.
  cbn [all_space] in *. now rewrite IH.
Qed.

Lemma rstrip_idempotent s : rstrip (rstrip s) = rstrip s.
Proof.
  induction s as [|c r IH]; auto.
  cbn [rstrip]. destruct (all_space (String c r)) eqn:E; auto.
  cbn [rstrip]. cbn [all_space] in *. rewrite all_space_rstrip, E.
  now rewrite IH.
Qed.

Lemma lstrip_head s :
  lstrip s = EmptyString \/
  exists c r, lstrip s = String c r /\ is_space c = false.
Proof.
  induction s as [|c r IH]; auto.
  cbn [lstrip]. destruct (is_space c) eqn:E; auto.
  right. eauto.
Qed.

Lemma strip_idempotent s : strip (strip s) = strip s.
Proof.
  unfold strip. destruct (lstrip_head s) as [->|(c & r & -> & Hc)]; auto.
  cbn [rstrip all_space]. rewrite Hc. cbn [andb lstrip]. rewrite Hc.
  cbn [rstrip all_space]. rewrite Hc. cbn [andb].
  now rewrite rstrip_idempotent.
Qed.
End TextFacts.

(* ================================================================== *)
(** * The feature deriver: what each step assigns *)

Section StepFacts.
Variable L : library.
Implicit Types (df : frame series).

Lemma assigns_only_unchanged target df df' :
  assigns_only target df df' -> unchanged_outside [target] df df'.
Proof.
  intros [->|[c ->]]; [apply unchanged_refl | apply set_unchanged].
Qed.

Lemma assigns_only_extends target df df' :
  assigns_only target df df' -> extends_with [target] df df'.
Proof.
  intros [->|[c ->]]; [apply extends_refl | apply set_extends].
Qed.

Create HintDb steps.
#[local] Hint Unfold product_step gender_step income_step miles_step usage_step
  age_step education_step when_present bind try_except : steps.

Ltac step_shape :=
  autounfold with steps;
  repeat match goal with
         | |- context [match ?x with _ => _ end] => destruct x
         end;
  intros H; inversion H; subst;
  solve [ now left | right; eexists; reflexivity ].

Lemma product_step_shape df df' :
  product_step df = Ok df' -> assigns_only "product_label" df df'.
Proof. step_shape. Qed.

Lemma gender_step_shape df df' :
  gender_step df = Ok df' -> assigns_only "gender_label" df df'.
Proof. step_shape. Qed.

Lemma income_step_shape df df' :
  income_step df = Ok df' -> assigns_only "income_bucket" df df'.
Proof. step_shape. Qed.

Lemma miles_step_shape df df' :
  miles_step df = Ok df' -> assigns_only "miles_category" df df'.
Proof. step_shape. Qed.

Lemma usage_step_shape df df' :
  usage_step df = Ok df' -> assigns_only "usage_category" df df'.
Proof. step_shape. Qed.

Lemma age_step_shape df df' :
  age_step df = Ok df' -> assigns_only "age_bucket" df df'.
Proof. step_shape. Qed.

Lemma education_step_shape df df' :
  education_step L df = Ok df' -> assigns_only "education_label" df df'.
Proof. step_shape. Qed.

Lemma datetime_step_shape df df' :
  datetime_step L df = Ok df' ->
  (first_datelike df = None /\ df' = df) \/
  (exists dtc s,
      first_datelike df = Some dtc /\ get dtc df = Some s /\
      dtc <> "date" /\ dtc <> "hour" /\
      let ts := to_datetime L s in
      df' = set "day_of_week" (Plain (CObject (map (option_map day_name_of) ts)))
              (set "hour" (Plain (CFloat (map (option_map hour_of) ts)))
                 (set "date" (Dates (map (option_map date_of) ts))
                    (set dtc (Datetime ts) df)))).
Proof.
  unfold datetime_step, first_datelike.
  destruct (filter datelike (columns df)) as [|dtc rest] eqn:F.
  { intros H. inversion H. now left. }
  unfold get_or_raise at 1. destruct (get dtc df) as [s|] eqn:G; [|discriminate].
  cbn [bind]. unfold get_or_raise at 1. rewrite get_set_same. cbn [bind dt_values].
  unfold get_or_raise at 1.
  destruct (string_dec dtc "date") as [->|Hd].
  { rewrite get_set_same. discriminate. }
  rewrite get_set_other, get_set_same by assumption. cbn [bind dt_values].
  unfold get_or_raise at 1.
  destruct (string_dec dtc "hour") as [->|Hh].
  { rewrite get_set_same. discriminate. }
  rewrite !get_set_other, get_set_same by assumption. cbn [bind dt_values].
  intros H. inversion H. right. exists dtc, s. cbn [hd_error]. auto 6.
Qed.

Lemma count_step_shape df df' :
  count_step df = Ok df' ->
  df' = df \/ (get "count" df = None /\ exists c, df' = set "count" c df).
Proof.
  unfold count_step.
  destruct ((has "registered" df || has "casual" df) && negb (has "count" df)) eqn:E.
  - apply andb_true_iff in E. destruct E as [_ E].
    apply negb_true_iff, has_false in E.
    destruct (get "registered" df), (get "casual" df);
      try (intros H; inversion H; now left).
    destruct (series_add s s0); cbn [bind]; intros H; inversion H.
    right. eauto.
  - intros H. inversion H. now left.
Qed.

(** The stages of [feature_engineering], one after the other. *)
Lemma feature_engineering_stages df df' :
  feature_engineering L df = Ok df' ->
  exists d1 d2 d3 d4 d5 d6 d7 d8,
    product_step df = Ok d1 /\ gender_step d1 = Ok d2 /\
    income_step d2 = Ok d3 /\ miles_step d3 = Ok d4 /\
    usage_step d4 = Ok d5 /\ age_step d5 = Ok d6 /\
    education_step L d6 = Ok d7 /\ datetime_step L d7 = Ok d8 /\
    count_step d8 = Ok df'.
Proof.
  unfold feature_engineering.
  destruct (product_step df) as [d1|] eqn:E1; [|discriminate]; cbn [bind].
  destruct (gender_step d1) as [d2|] eqn:E2; [|discriminate]; cbn [bind].
  destruct (income_step d2) as [d3|] eqn:E3; [|discriminate]; cbn [bind].
  destruct (miles_step d3) as [d4|] eqn:E4; [|discriminate]; cbn [bind].
  destruct (usage_step d4) as [d5|] eqn:E5; [|discriminate]; cbn [bind].
  destruct (age_step d5) as [d6|] eqn:E6; [|discriminate]; cbn [bind].
  destruct (education_step L d6) as [d7|] eqn:E7; [|discriminate]; cbn [bind].
  destruct (datetime_step L d7) as [d8|] eqn:E8; [|discriminate]; cbn [bind].
  intros H. exists d1, d2, d3, d4, d5, d6, d7, d8. auto 10.
Qed.

Lemma label_names_not_datelike n : In n label_names -> datelike n = false.
Proof.
  intros H. repeat (destruct H as [<-|H]; [reflexivity|]). destruct H.
Qed.

Lemma filter_datelike_labels extra :
  incl extra label_names -> filter datelike extra = [].
Proof.
  induction extra as [|x r IH]; intros I; auto. cbn [filter].
  rewrite label_names_not_datelike by (apply I; now left).
  apply IH. intros y Hy. apply I. now right.
Qed.

Lemma first_datelike_extends df df' :
  extends_with label_names df df' -> first_datelike df' = first_datelike df.
Proof.
  intros (extra & E & I). unfold first_datelike.
  now rewrite E, filter_app, (filter_datelike_labels _ I), app_nil_r.
Qed.

Lemma first_datelike_is_datelike df dtc :
  first_datelike df = Some dtc -> datelike dtc = true /\ In dtc (columns df).
Proof.
  unfold first_datelike. intros H.
  assert (K : In dtc (filter datelike (columns df))).
  { destruct (filter datelike (columns df)); inversion H. now left. }
  apply filter_In in K. tauto.
Qed.

(** The frame after the seven label steps. *)
Lemma label_steps_frame df d7 :
  (exists d1 d2 d3 d4 d5 d6,
    product_step df = Ok d1 /\ gender_step d1 = Ok d2 /\
    income_step d2 = Ok d3 /\ miles_step d3 = Ok d4 /\
    usage_step d4 = Ok d5 /\ age_step d5 = Ok d6 /\
    education_step L d6 = Ok d7) ->
  unchanged_outside label_names df d7 /\ extends_with label_names df d7.
Proof.
  intros (d1 & d2 & d3 & d4 & d5 & d6 & H1 & H2 & H3 & H4 & H5 & H6 & H7).
  apply product_step_shape in H1. apply gender_step_shape in H2.
  apply income_step_shape in H3. apply miles_step_shape in H4.
  apply usage_step_shape in H5. apply age_step_shape in H6.
  apply education_step_shape in H7.
  split.
  - change label_names with
      (["product_label"] ++ ["gender_label"] ++ ["income_bucket"]
       ++ ["miles_category"] ++ ["usage_category"] ++ ["age_bucket"]
       ++ ["education_label"]).
    repeat (eapply unchanged_trans; [eapply assigns_only_unchanged; eassumption|]).
    eapply assigns_only_unchanged; eassumption.
  - change label_names with
      (["product_label"] ++ ["gender_label"] ++ ["income_bucket"]
       ++ ["miles_category"] ++ ["usage_category"] ++ ["age_bucket"]
       ++ ["education_label"]).
    repeat (eapply extends_trans; [eapply assigns_only_extends; eassumption|]).
    eapply assigns_only_extends; eassumption.
Qed.

End StepFacts.

(* ================================================================== *)
(** * The feature deriver: labels survive the later steps *)

Section Survival.
Variable L : library.
Implicit Types (df : frame series).

(** What the date handling and the count step leave in place. *)
Lemma tail_steps_keep d7 d8 df' t v :
  datetime_step L d7 = Ok d8 -> count_step d8 = Ok df' ->
  datelike t = false -> ~ In t ["date"; "hour"; "day_of_week"] ->
  get t d7 = Some v -> get t df' = Some v.
Proof.
  intros H8 H9 Ht Hn G.
  assert (G8 : get t d8 = Some v).
  { apply datetime_step_shape in H8.
    destruct H8 as [[_ ->]|(dtc & s & F & Gd & _ & _ & ->)]; auto.
    apply first_datelike_is_datelike in F. destruct F as [F _].
    cbn zeta. rewrite !get_set_other; auto.
    - intros ->. congruence.
    - intros ->. apply Hn. cbn. auto.
    - intros ->. apply Hn. cbn. auto.
    - intros ->. apply Hn. cbn. auto. }
  apply count_step_shape in H9. destruct H9 as [->|(N & c & ->)]; auto.
  rewrite get_set_other; auto. intros ->. congruence.
Qed.

Lemma usage_step_numeric df xs :
  get "usage" df = Some (Plain (CFloat xs)) ->
  usage_step df
  = Ok (set "usage_category" (Categorical (map usage_category_of xs)) df).
Proof. intros G. unfold usage_step, when_present. now rewrite G. Qed.

Lemma age_step_numeric df xs :
  get "age" df = Some (Plain (CFloat xs)) ->
  age_step df = Ok (set "age_bucket" (Categorical (map age_bucket_of xs)) df).
Proof. intros G. unfold age_step, when_present. now rewrite G. Qed.

Lemma usage_category_of_rule x :
  usage_category_of x = option_map usage_rule x.
Proof.
  destruct x as [v|]; auto.
  unfold usage_category_of, label_of, usage_rule, usage_bins, usage_labels.
  cbn [searchsorted_left edge_ltb andb length option_map].
  destruct (Qle_bool v 2.99) eqn:E1; cbn [negb]; [reflexivity|].
  destruct (Qle_bool v 5.0) eqn:E2; reflexivity.
Qed.

End Survival.

(* ================================================================== *)
(** * Duplicate removal *)

Section Duplicates.

Lemma cell_eqb_refl a : cell_eqb a a = true.
Proof.
  destruct a; cbn; auto.
  - apply Qeq_bool_iff. reflexivity.
  - apply String.eqb_refl.
Qed.

Lemma cell_eqb_trans a b c :
  cell_eqb a b = true -> cell_eqb b c = true -> cell_eqb a c = true.
Proof.
  destruct a, b, c; cbn; try congruence.
  - rewrite !Qeq_bool_iff. intros H1 H2. now rewrite H1.
  - rewrite !String.eqb_eq. congruence.
Qed.

Lemma row_eqb_refl r : row_eqb r r = true.
Proof. induction r; cbn; auto. now rewrite cell_eqb_refl. Qed.

Lemma row_eqb_trans r1 : forall r2 r3,
  row_eqb r1 r2 = true -> row_eqb r2 r3 = true -> row_eqb r1 r3 = true.
Proof.
  induction r1 as [|a r1 IH]; intros [|b r2] [|c r3]; cbn; try congruence.
  rewrite !andb_true_iff. intros [H1 H2] [H3 H4]. split.
  - eapply cell_eqb_trans; eauto.
  - eapply IH; eauto.
Qed.

Lemma existsb_row_absorb x r seen :
  existsb (row_eqb r) seen = true ->
  row_eqb x r || existsb (row_eqb x) seen = existsb (row_eqb x) seen.
Proof.
  intros H. destruct (row_eqb x r) eqn:E; auto. cbn.
  symmetry. apply existsb_exists. apply existsb_exists in H.
  destruct H as (s & Hs & Hrs). exists s. split; auto.
  eapply row_eqb_trans; eauto.
Qed.

(** Rows that survive one removal are pairwise different. *)
Lemma duplicated_from_kept rs : forall seen seen2,
  (forall x, existsb (row_eqb x) seen = existsb (row_eqb x) seen2) ->
  Forall (eq false) (duplicated_from seen2 (drop_marked (duplicated_from seen rs) rs)).
Proof.
  induction rs as [|r rest IH]; intros seen seen2 I; cbn; auto.
  destruct (existsb (row_eqb r) seen) eqn:E.
  - apply IH. intros x. cbn [existsb]. rewrite existsb_row_absorb; auto.
  - cbn. constructor.
    + now rewrite <- I, E.
    + apply IH. intros x. cbn [existsb]. now rewrite I.
Qed.

Lemma duplicated_from_length rs : forall seen,
  length (duplicated_from seen rs) = length rs.
Proof. induction rs; intros; cbn; auto. Qed.

Lemma drop_marked_map {A B : Type} (f : A -> B) marks : forall xs,
  drop_marked marks (map f xs) = map f (drop_marked marks xs).
Proof.
  induction marks as [|m ms IH]; intros [|x xs]; cbn; auto.
  destruct m; cbn; now rewrite IH.
Qed.

Lemma zip_with_nil_r {A B C : Type} (f : A -> B -> C) xs : zip_with f xs [] = [].
Proof. destruct xs; auto. Qed.

Lemma drop_marked_zip {A B C : Type} (f : A -> B -> C) marks : forall xs ys,
  drop_marked marks (zip_with f xs ys)
  = zip_with f (drop_marked marks xs) (drop_marked marks ys).
Proof.
  induction marks as [|m ms IH]; intros [|x xs] [|y ys]; cbn; auto.
  - now rewrite zip_with_nil_r.
  - destruct m; cbn; now rewrite IH.
Qed.

Lemma drop_marked_length {A B : Type} marks : forall (xs : list A) (ys : list B),
  length xs = length ys ->
  length (drop_marked marks xs) = length (drop_marked marks ys).
Proof.
  induction marks as [|m ms IH]; intros [|x xs] [|y ys]; cbn; try congruence.
  intros H. destruct m; cbn; auto.
Qed.

Lemma drop_marked_le {A : Type} marks : forall (xs : list A),
  length (drop_marked marks xs) <= length xs.
Proof.
  induction marks as [|m ms IH]; intros [|x xs]; cbn; auto with arith.
  destruct m; cbn; specialize (IH xs); lia.
Qed.

Lemma drop_marked_repeat {A : Type} (a : A) marks : forall n,
  drop_marked marks (repeat a n)
  = repeat a (length (drop_marked marks (repeat a n))).
Proof.
  induction marks as [|m ms IH]; intros [|n]; cbn; auto.
  destruct m; cbn; now rewrite <- IH.
Qed.

Lemma drop_none {A : Type} marks : forall (xs : list A),
  Forall (eq false) marks -> length xs <= length marks ->
  drop_marked marks xs = xs.
Proof.
  induction marks as [|m ms IH]; intros [|x xs] F Hl; cbn in *; auto; try lia.
  inversion F; subst. rewrite IH; auto. lia.
Qed.

Lemma transpose_drop marks cols : forall n n',
  n' = length (drop_marked marks (repeat tt n)) ->
  transpose n' (map (drop_marked marks) cols)
  = drop_marked marks (transpose n cols).
Proof.
  induction cols as [|c cs IH]; intros n n' ->; cbn.
  - rewrite (drop_marked_repeat (@nil cell)).
    f_equal. apply drop_marked_length. now rewrite !repeat_length.
  - rewrite drop_marked_zip. f_equal. now apply IH.
Qed.

Lemma cells_length c : length (cells c) = column_length c.
Proof. destruct c; cbn; now rewrite length_map. Qed.

Lemma cells_drop marks c :
  cells (column_drop marks c) = drop_marked marks (cells c).
Proof. destruct c; cbn; now rewrite drop_marked_map. Qed.

Lemma column_drop_length marks c :
  column_length (column_drop marks c) = length (drop_marked marks (cells c)).
Proof. now rewrite <- cells_drop, cells_length. Qed.

(** The rows of the deduplicated frame are the unmarked rows. *)
Lemma rows_drop_duplicates df :
  rows (drop_duplicates df) = drop_marked (duplicated df) (rows df).
Proof.
  unfold rows, drop_duplicates.
  set (marks := duplicated df).
  assert (E : map (fun nc => cells (snd nc))
                  (map (fun nc => (fst nc, column_drop marks (snd nc))) df)
              = map (drop_marked marks) (map (fun nc => cells (snd nc)) df)).
  { rewrite !map_map. apply map_ext. intros nc. cbn. apply cells_drop. }
  rewrite E. apply transpose_drop.
  destruct df as [|[n c] r]; cbn [nrows map fst snd].
  - now destruct marks.
  - rewrite column_drop_length. apply drop_marked_length.
    now rewrite repeat_length, cells_length.
Qed.

Lemma zip_with_length {A B C : Type} (f : A -> B -> C) xs : forall ys,
  length (zip_with f xs ys) = Nat.min (length xs) (length ys).
Proof. induction xs; intros [|y ys]; cbn; auto. Qed.

Lemma transpose_length n cols :
  Forall (fun c => length c = n) cols -> length (transpose n cols) = n.
Proof.
  induction 1 as [|c cs Hc _ IH]; cbn.
  - apply repeat_length.
  - rewrite zip_with_length, IH, Hc. apply Nat.min_id.
Qed.

Lemma rows_length df : rectangular df -> length (rows df) = nrows df.
Proof.
  intros R. unfold rows. apply transpose_length.
  apply Forall_map. eapply Forall_impl; [|exact R].
  intros nc H. cbn beta. now rewrite cells_length.
Qed.

Lemma duplicated_length df : rectangular df -> length (duplicated df) = nrows df.
Proof.
  intros R. unfold duplicated. now rewrite duplicated_from_length, rows_length.
Qed.

Lemma nrows_drop_duplicates_le df : nrows (drop_duplicates df) <= nrows df.
Proof.
  destruct df as [|[n c] r]; cbn [drop_duplicates map nrows fst snd]; auto.
  rewrite column_drop_length, <- (cells_length c). apply drop_marked_le.
Qed.

Lemma rectangular_drop_duplicates df :
  rectangular df -> rectangular (drop_duplicates df).
Proof.
  intros R. unfold rectangular, drop_duplicates.
  apply Forall_map. eapply Forall_impl; [|exact R].
  intros [n c] H. cbn [fst snd] in *.
  destruct df as [|[n0 c0] r]; [inversion R; cbn in *; now destruct c|].
  cbn [map nrows fst snd] in *.
  rewrite !column_drop_length. apply drop_marked_length.
  now rewrite !cells_length.
Qed.

Lemma column_drop_none marks c :
  Forall (eq false) marks -> column_length c <= length marks ->
  column_drop marks c = c.
Proof.
  intros F Hl. destruct c; cbn in *; f_equal; now apply drop_none.
Qed.

Lemma map_fixed {A : Type} (f : A -> A) l :
  Forall (fun x => f x = x) l -> map f l = l.
Proof. induction 1; cbn; congruence. Qed.

(** A frame without duplicated rows is left as it is. *)
Lemma drop_duplicates_none df :
  rectangular df -> Forall (eq false) (duplicated df) -> drop_duplicates df = df.
Proof.
  intros R F. unfold drop_duplicates. apply map_fixed.
  eapply Forall_impl; [|exact R]. intros [n c] H. cbn [fst snd] in *.
  f_equal. apply column_drop_none; auto.
  rewrite duplicated_length by assumption. lia.
Qed.

Lemma duplicated_after_drop df :
  Forall (eq false) (duplicated (drop_duplicates df)).
Proof.
  unfold duplicated at 1. rewrite rows_drop_duplicates.
  apply duplicated_from_kept. reflexivity.
Qed.

Lemma drop_duplicates_idempotent df :
  rectangular df -> drop_duplicates (drop_duplicates df) = drop_duplicates df.
Proof.
  intros R. apply drop_duplicates_none.
  - now apply rectangular_drop_duplicates.
  - apply duplicated_after_drop.
Qed.

Lemma nrows_rename g df : nrows (rename_with g df) = nrows df.
Proof. now destruct df as [|[n c] r]. Qed.

Lemma rows_rename g df : rows (rename_with g df) = rows df.
Proof.
  unfold rows. rewrite nrows_rename. unfold rename_with. now rewrite map_map.
Qed.

Lemma duplicated_rename g df : duplicated (rename_with g df) = duplicated df.
Proof. unfold duplicated. now rewrite rows_rename. Qed.

Lemma rectangular_rename g df : rectangular df -> rectangular (rename_with g df).
Proof.
  intros R. unfold rectangular. rewrite nrows_rename. unfold rename_with.
  apply Forall_map. exact R.
Qed.

(** Rewriting columns cell by cell keeps the frame's shape. *)
Lemma nrows_set n c c0 df :
  get n df = Some c0 -> column_length c = column_length c0 ->
  nrows (set n c df) = nrows df.
Proof.
  destruct df as [|[k c1] r]; cbn; [discriminate|].
  destruct (String.eqb n k); cbn; congruence.
Qed.

Lemma rectangular_set n c c0 df :
  get n df = Some c0 -> column_length c = column_length c0 ->
  rectangular df -> rectangular (set n c df).
Proof.
  intros G Hl R. unfold rectangular. rewrite (nrows_set _ _ _ _ G Hl).
  revert G R. unfold rectangular. generalize (nrows df) as k.
  induction df as [|[m c1] r IH]; intros k G R; cbn in *; [discriminate|].
  inversion R; subst. destruct (String.eqb n m).
  - inversion G; subst. constructor; auto.
  - constructor; auto.
Qed.

Section Update.
Variable f : column -> column.
Hypothesis f_length : forall c, column_length (f c) = column_length c.

Lemma nrows_update df name : nrows (update_column f df name) = nrows df.
Proof.
  unfold update_column. destruct (get name df) eqn:G; auto.
  eapply nrows_set; eauto.
Qed.

Lemma rectangular_update df name :
  rectangular df -> rectangular (update_column f df name).
Proof.
  unfold update_column. destruct (get name df) eqn:G; auto.
  eapply rectangular_set; eauto.
Qed.

Lemma nrows_updates names : forall df,
  nrows (fold_left (update_column f) names df) = nrows df.
Proof.
  induction names as [|n r IH]; intros df; cbn; auto.
  now rewrite IH, nrows_update.
Qed.

Lemma rectangular_updates names : forall df,
  rectangular df -> rectangular (fold_left (update_column f) names df).
Proof.
  induction names as [|n r IH]; intros df R; cbn; auto.
  apply IH. now apply rectangular_update.
Qed.
End Update.

End Duplicates.

(* ================================================================== *)
(** * The cleaner *)

Section Cleaner.
Variable L : library.

Lemma astype_str_length c : length (astype_str L c) = column_length c.
Proof. destruct c; cbn; now rewrite length_map. Qed.

Lemma strip_text_length c : column_length (strip_text L c) = column_length c.
Proof. unfold strip_text. cbn. now rewrite length_map, astype_str_length. Qed.

Lemma basic_clean_unfold df :
  basic_clean L df
  = fold_left (update_column (strip_text L))
              (object_columns (drop_duplicates (rename_with rename_column df)))
              (drop_duplicates (rename_with rename_column df)).
Proof. reflexivity. Qed.

Lemma nrows_basic_clean df :
  nrows (basic_clean L df) = nrows (drop_duplicates (rename_with rename_column df)).
Proof. rewrite basic_clean_unfold. apply nrows_updates, strip_text_length. Qed.

Lemma rectangular_basic_clean df :
  rectangular df -> rectangular (basic_clean L df).
Proof.
  intros R. rewrite basic_clean_unfold.
  apply rectangular_updates; [apply strip_text_length|].
  now apply rectangular_drop_duplicates, rectangular_rename.
Qed.

Lemma object_columns_none df :
  Forall (fun nc => is_object (snd nc) = false) df -> object_columns df = [].
Proof.
  unfold object_columns. induction 1 as [|nc r H _ IH]; cbn; auto.
  now rewrite H.
Qed.

Lemma drop_duplicates_numeric df :
  Forall (fun nc => is_object (snd nc) = false) df ->
  Forall (fun nc => is_object (snd nc) = false) (drop_duplicates df).
Proof.
  intros F. unfold drop_duplicates. apply Forall_map.
  eapply Forall_impl; [|exact F]. intros [n c] H. cbn in *. now destruct c.
Qed.

(** C8, as amended.  Dropping duplicates is idempotent.  A second run of the
    cleaner never has more rows than the first, and it has as many when no
    two rows of the cleaned table are equal, as is the case for a table
    without text columns. *)
Theorem cleaner_second_run df :
  rectangular df ->
  NoDup (map rename_column (columns df)) ->
  drop_duplicates (drop_duplicates df) = drop_duplicates df
  /\ nrows (basic_clean L (basic_clean L df)) <= nrows (basic_clean L df)
  /\ (Forall (eq false) (duplicated (basic_clean L df)) ->
      nrows (basic_clean L (basic_clean L df)) = nrows (basic_clean L df))
  /\ (Forall (fun nc => is_object (snd nc) = false) df ->
      nrows (basic_clean L (basic_clean L df)) = nrows (basic_clean L df)).
Proof.
  intros R _.
  assert (Same : Forall (eq false) (duplicated (basic_clean L df)) ->
                 nrows (basic_clean L (basic_clean L df)) = nrows (basic_clean L df)).
  { intros F. rewrite (nrows_basic_clean (basic_clean L df)).
    rewrite drop_duplicates_none.
    - apply nrows_rename.
    - now apply rectangular_rename, rectangular_basic_clean.
    - now rewrite duplicated_rename. }
  split; [now apply drop_duplicates_idempotent|].
  split; [|split; [exact Same|]].
  - rewrite (nrows_basic_clean (basic_clean L df)).
    etransitivity; [apply nrows_drop_duplicates_le|].
    now rewrite nrows_rename.
  - intros F. apply Same. rewrite basic_clean_unfold.
    rewrite object_columns_none.
    + cbn [fold_left]. apply duplicated_after_drop.
    + apply drop_duplicates_numeric. unfold rename_with. apply Forall_map.
      eapply Forall_impl; [|exact F]. now intros [n c].
Qed.

End Cleaner.

(* ================================================================== *)
(** * The imputer *)

Section Imputer.
Variable L : library.

Lemma map_update_absent f name (r : frame column) :
  ~ In name (columns r) -> map (update_where [name] f) r = r.
Proof.
  intros N. apply map_fixed. apply Forall_forall. intros [k c] Hk.
  unfold update_where. cbn [fst snd existsb].
  destruct (String.eqb k name) eqn:E; auto.
  apply String.eqb_eq in E. subst k. exfalso. apply N.
  change name with (fst (name, c)). now apply in_map.
Qed.

Lemma update_as_map f name df :
  NoDup (columns df) ->
  update_column f df name = map (update_where [name] f) df.
Proof.
  unfold update_column.
  induction df as [|[k c] r IH]; intros N; cbn [get]; auto.
  inversion N as [|? ? Hk Hr]; subst.
  cbn [map]. unfold update_where at 1. cbn [fst snd existsb].
  rewrite (String.eqb_sym k name), orb_false_r.
  destruct (String.eqb name k) eqn:E.
  - apply String.eqb_eq in E. subst k.
    cbn [set]. rewrite String.eqb_refl. f_equal.
    symmetry. now apply map_update_absent.
  - specialize (IH Hr). destruct (get name r) eqn:G.
    + cbn [set]. rewrite E. f_equal. exact IH.
    + f_equal. exact IH.
Qed.

Lemma columns_map_update names f df :
  columns (map (update_where names f) df) = columns df.
Proof.
  unfold columns. rewrite map_map. apply map_ext. intros [k c].
  unfold update_where. now destruct (existsb _ _).
Qed.

Lemma updates_as_map f names : forall df,
  NoDup names -> NoDup (columns df) ->
  fold_left (update_column f) names df = map (update_where names f) df.
Proof.
  induction names as [|n r IH]; intros df Nn Nd; cbn [fold_left].
  - symmetry. apply map_fixed. apply Forall_forall. now intros [k c] _.
  - inversion Nn as [|? ? Hn Hr]; subst.
    rewrite update_as_map by assumption.
    rewrite IH; [|assumption|now rewrite columns_map_update].
    rewrite map_map. apply map_ext. intros [k c].
    unfold update_where. cbn [fst snd existsb].
    destruct (String.eqb k n) eqn:E; cbn [fst snd orb]; auto.
    apply String.eqb_eq in E. subst k.
    destruct (existsb (String.eqb n) r) eqn:X; auto.
    apply existsb_exists in X. destruct X as (x & Hx & Ex).
    apply String.eqb_eq in Ex. subst x. contradiction.
Qed.

Lemma get_map_update names f n : forall df,
  get n (map (update_where names f) df)
  = if existsb (String.eqb n) names then option_map f (get n df) else get n df.
Proof.
  induction df as [|[k c] r IH]; cbn [map get].
  - now destruct (existsb _ _).
  - unfold update_where at 1. cbn [fst snd].
    destruct (String.eqb n k) eqn:E.
    + apply String.eqb_eq in E. subst k.
      destruct (existsb (String.eqb n) names); cbn; now rewrite String.eqb_refl.
    + destruct (existsb (String.eqb k) names); cbn [get fst snd]; now rewrite E.
Qed.

Lemma numeric_candidates_distinct : NoDup numeric_candidates.
Proof.
  unfold numeric_candidates.
  repeat (constructor; [cbn; intuition discriminate|]). constructor.
Qed.

Lemma categorical_columns_distinct : NoDup categorical_columns.
Proof.
  unfold categorical_columns.
  repeat (constructor; [cbn; intuition discriminate|]). constructor.
Qed.

Lemma impute_and_cast_as_map df :
  NoDup (columns df) ->
  impute_and_cast L df = map (impute_cast_column L) df.
Proof.
  intros N. unfold impute_and_cast.
  rewrite (updates_as_map _ _ _ numeric_candidates_distinct N).
  rewrite updates_as_map;
    [|apply categorical_columns_distinct|now rewrite columns_map_update].
  now rewrite map_map.
Qed.

Lemma columns_impute_and_cast df :
  NoDup (columns df) -> columns (impute_and_cast L df) = columns df.
Proof.
  intros N. unfold impute_and_cast.
  rewrite (updates_as_map _ _ _ numeric_candidates_distinct N).
  rewrite updates_as_map;
    [|apply categorical_columns_distinct|now rewrite columns_map_update].
  now rewrite !columns_map_update.
Qed.

Lemma get_impute_and_cast df n :
  NoDup (columns df) ->
  get n (impute_and_cast L df)
  = if existsb (String.eqb n) categorical_columns
    then option_map (strip_text L)
           (if existsb (String.eqb n) numeric_candidates
            then option_map (impute_column L) (get n df) else get n df)
    else if existsb (String.eqb n) numeric_candidates
         then option_map (impute_column L) (get n df) else get n df.
Proof.
  intros N. unfold impute_and_cast.
  rewrite (updates_as_map _ _ _ numeric_candidates_distinct N).
  rewrite updates_as_map;
    [|apply categorical_columns_distinct|now rewrite columns_map_update].
  now rewrite !get_map_update.
Qed.

Lemma fillna_present m xs : Forall (fun y => y <> None) (fillna m xs).
Proof.
  unfold fillna. apply Forall_map. apply Forall_forall.
  intros [v|] _; discriminate.
Qed.

Lemma fillna_none m xs : Forall (fun y => y <> None) xs -> fillna m xs = xs.
Proof.
  unfold fillna. intros F. apply map_fixed.
  eapply Forall_impl; [|exact F]. intros [v|] H; congruence.
Qed.

Lemma impute_column_idempotent c :
  impute_column L (impute_column L c) = impute_column L c.
Proof.
  unfold impute_column. cbn [to_numeric]. apply (f_equal CFloat).
  apply fillna_none. apply fillna_present.
Qed.

Lemma strip_text_idempotent c :
  strip_text L (strip_text L c) = strip_text L c.
Proof.
  unfold strip_text. apply (f_equal CObject). cbn [astype_str].
  rewrite !map_map. apply map_ext. intros s.
  now rewrite TextFacts.strip_idempotent.
Qed.

Lemma in_existsb n names : In n names -> existsb (String.eqb n) names = true.
Proof.
  intros H. apply existsb_exists. exists n. split; auto. apply String.eqb_refl.
Qed.

Lemma candidate_not_categorical n :
  In n numeric_candidates -> existsb (String.eqb n) categorical_columns = false.
Proof.
  intros H. repeat (destruct H as [<-|H]; [reflexivity|]). destruct H.
Qed.

(** C5.  After the imputer, a candidate column that is present keeps every
    value it had, holds the median of those values (0 when there are none)
    where a value was missing, and so has no missing value left; the imputer
    creates no column. *)
Theorem imputer_fills_with_median df :
  NoDup (columns df) ->
  columns (impute_and_cast L df) = columns df
  /\ forall name c,
       In name numeric_candidates -> get name df = Some c ->
       exists ys,
         get name (impute_and_cast L df) = Some (CFloat ys)
         /\ Forall (fun y => y <> None) ys
         /\ Forall2 (fun x y =>
                       match x with
                       | Some v => y = Some v
                       | None => y = Some (match median (to_numeric L c) with
                                           | Some m => m
                                           | None => 0%Q
                                           end)
                       end)
                    (to_numeric L c) ys.
Proof.
  intros N. split; [now apply columns_impute_and_cast|].
  intros name c Hin G.
  exists (fillna (fill_value (to_numeric L c)) (to_numeric L c)).
  split; [|split].
  - rewrite get_impute_and_cast by assumption.
    now rewrite candidate_not_categorical, in_existsb, G by assumption.
  - apply fillna_present.
  - unfold fillna, fill_value. generalize (median (to_numeric L c)) as md.
    intros md. induction (to_numeric L c) as [|[v|] r IH]; cbn; constructor; auto.
Qed.

(** C9.  Running the imputer on its own output changes nothing. *)
Theorem imputer_idempotent df :
  NoDup (columns df) ->
  impute_and_cast L (impute_and_cast L df) = impute_and_cast L df.
Proof.
  intros N.
  rewrite (impute_and_cast_as_map (impute_and_cast L df))
    by now rewrite columns_impute_and_cast.
  rewrite impute_and_cast_as_map by assumption.
  rewrite map_map. apply map_ext. intros [k c].
  unfold impute_cast_column, update_where. cbn [fst snd].
  destruct (existsb (String.eqb k) numeric_candidates) eqn:E1; cbn [fst snd];
    destruct (existsb (String.eqb k) categorical_columns) eqn:E2; cbn [fst snd];
    rewrite ?E1, ?E2; cbn [fst snd]; rewrite ?E1, ?E2; auto.
  - exfalso. apply existsb_exists in E1. destruct E1 as (x & Hx & Ex).
    apply String.eqb_eq in Ex. subst x.
    now rewrite candidate_not_categorical in E2.
  - now rewrite impute_column_idempotent.
  - now rewrite strip_text_idempotent.
Qed.

End Imputer.

(* ================================================================== *)
(** * Sorting, minimum and maximum *)

Section Sorting.

Lemma insert_sorted_In x y l : In y (insert_sorted x l) <-> y = x \/ In y l.
Proof.
  induction l as [|z r IH]; cbn.
  - intuition.
  - destruct (Qle_bool x z); cbn; intuition.
Qed.

Lemma sort_cons x r : sort_asc (x :: r) = insert_sorted x (sort_asc r).
Proof. reflexivity. Qed.

Lemma sort_In y l : In y (sort_asc l) <-> In y l.
Proof.
  induction l as [|x r IH]; [cbn; tauto|].
  rewrite sort_cons, insert_sorted_In, IH. cbn. intuition.
Qed.

Lemma insert_sorted_length x l : length (insert_sorted x l) = S (length l).
Proof.
  induction l as [|z r IH]; cbn; auto.
  destruct (Qle_bool x z); cbn; auto.
Qed.

Lemma sort_length l : length (sort_asc l) = length l.
Proof.
  induction l as [|x r IH]; auto.
  rewrite sort_cons, insert_sorted_length, IH. reflexivity.
Qed.

Lemma Qle_bool_false x y : Qle_bool x y = false -> (y < x)%Q.
Proof.
  intros H. apply Qnot_le_lt. intros K. apply Qle_bool_iff in K. congruence.
Qed.

Lemma insert_sorted_sorted x l :
  StronglySorted Qle l -> StronglySorted Qle (insert_sorted x l).
Proof.
  induction 1 as [|z r S IH F]; cbn.
  - repeat constructor.
  - destruct (Qle_bool x z) eqn:E.
    + apply Qle_bool_iff in E. constructor.
      * now constructor.
      * constructor; auto. eapply Forall_impl; [|exact F].
        intros a Ha. eapply Qle_trans; eauto.
    + apply Qle_bool_false, Qlt_le_weak in E. constructor; auto.
      apply Forall_forall. intros a Ha. apply insert_sorted_In in Ha.
      destruct Ha as [->|Ha]; auto.
      rewrite Forall_forall in F. auto.
Qed.

Lemma sort_sorted l : StronglySorted Qle (sort_asc l).
Proof.
  induction l as [|x r IH]; [constructor|].
  rewrite sort_cons. now apply insert_sorted_sorted.
Qed.

Lemma sorted_head_least m r x :
  StronglySorted Qle (m :: r) -> In x (m :: r) -> (m <= x)%Q.
Proof.
  intros S [->|H]; [apply Qle_refl|].
  inversion S as [|? ? _ F]; subst. rewrite Forall_forall in F. auto.
Qed.

Lemma sorted_last_greatest v : forall x d,
  StronglySorted Qle v -> In x v -> (x <= last v d)%Q.
Proof.
  induction v as [|m r IH]; intros x d S H; [destruct H|].
  inversion S as [|? ? Sr F]; subst.
  destruct r as [|m' r'].
  - destruct H as [->|[]]. apply Qle_refl.
  - change (last (m :: m' :: r') d) with (last (m' :: r') d).
    destruct H as [->|H]; [|now apply IH].
    eapply Qle_trans; [|apply (IH m' d Sr); now left].
    rewrite Forall_forall in F. apply F. now left.
Qed.

Lemma in_dropna {A : Type} (x : A) xs : In (Some x) xs <-> In x (dropna xs).
Proof.
  unfold dropna. rewrite in_flat_map. split.
  - intros H. exists (Some x). split; auto. now left.
  - intros ([y|] & Hy & K); cbn in K; intuition congruence.
Qed.

End Sorting.

(* ================================================================== *)
(** * Quantiles and bins *)

Section Binning.

Lemma quantile_at_rank v k q i :
  (inject_Z (Z.of_nat ((length v - 1) * k)) / inject_Z (Z.of_nat q)
   == inject_Z (Z.of_nat i))%Q ->
  (quantile v k q == nth i v 0)%Q.
Proof.
  intros Hh. unfold quantile.
  set (h := (inject_Z (Z.of_nat ((length v - 1) * k)) / inject_Z (Z.of_nat q))%Q) in *.
  assert (E : Qfloor h = Z.of_nat i).
  { rewrite Hh. apply Qfloor_Z. }
  rewrite E, Nat2Z.id.
  assert (F : (h - inject_Z (Z.of_nat i) == 0)%Q) by (rewrite Hh; ring).
  rewrite F. ring.
Qed.

(** The lowest edge of a quantile split is the least value. *)
Lemma quantile_zero v q : (quantile v 0 q == nth 0 v 0)%Q.
Proof.
  apply quantile_at_rank. rewrite Nat.mul_0_r. cbn [Z.of_nat].
  unfold Qdiv. ring.
Qed.

(** The highest edge is the greatest value. *)
Lemma quantile_top v q :
  0 < q -> (quantile v q q == nth (length v - 1) v 0)%Q.
Proof.
  intros Hq. apply quantile_at_rank.
  rewrite Nat2Z.inj_mul, inject_Z_mult. apply Qdiv_mult_l.
  intros K. apply (Qeq_bool_neq (inject_Z (Z.of_nat q)) 0); auto.
  unfold Qeq_bool, inject_Z. cbn. destruct q; [lia|]. cbn. reflexivity.
Qed.

Lemma searchsorted_left_bound bins x :
  searchsorted_left bins x <= length bins.
Proof. induction bins as [|b r IH]; cbn; [lia|]. destruct (edge_ltb b x); lia. Qed.

Lemma searchsorted_left_stops pre e x :
  edge_ltb e x = false -> searchsorted_left (pre ++ [e]) x <= length pre.
Proof.
  intros H. induction pre as [|b r IH]; cbn.
  - now rewrite H.
  - destruct (edge_ltb b x); lia.
Qed.

(** A value that lies above the lowest edge, or on it when the lowest edge is
    included, and not above the highest edge gets one of the labels. *)
Lemma label_of_between e0 mid elast labels il x :
  length labels = S (length mid) ->
  edge_ltb e0 x = true \/ (il = true /\ edge_is e0 x = true) ->
  edge_ltb elast x = false ->
  exists l, label_of (e0 :: mid ++ [elast]) labels il (Some x) = Some l
            /\ In l labels.
Proof.
  intros Hl Hlow Hhigh. unfold label_of.
  assert (Len : length (e0 :: mid ++ [elast]) = S (S (length mid))).
  { cbn. rewrite length_app. cbn. lia. }
  assert (Hit : forall i, 1 <= i <= S (length mid) ->
            exists l, (if (i =? 0) || (i =? length (e0 :: mid ++ [elast]))
                       then None else nth_error labels (i - 1)) = Some l
                      /\ In l labels).
  { intros i Hi. rewrite Len.
    destruct (i =? 0) eqn:E0; [apply Nat.eqb_eq in E0; lia|].
    destruct (i =? S (S (length mid))) eqn:E1; [apply Nat.eqb_eq in E1; lia|].
    cbn [orb]. destruct (nth_error labels (i - 1)) as [l|] eqn:N.
    - exists l. split; auto. eapply nth_error_In; eauto.
    - apply nth_error_None in N. lia. }
  destruct (il && edge_is e0 x) eqn:B.
  - apply Hit. lia.
  - apply Hit. cbn [searchsorted_left].
    assert (T : edge_ltb e0 x = true).
    { destruct Hlow as [T|[-> T]]; auto. rewrite T in B. discriminate. }
    rewrite T. pose proof (searchsorted_left_stops mid elast x Hhigh). lia.
Qed.

End Binning.

(* ================================================================== *)
(** * The feature deriver keeps one cell per row *)

Section Shape.
Variable L : library.
Implicit Types (df : frame series).

Lemma uniform_get n df name s :
  uniform n df -> get name df = Some s -> series_length s = n.
Proof.
  intros U. induction df as [|[k c] r IH]; cbn; [discriminate|].
  pose proof (Forall_inv U) as H. pose proof (Forall_inv_tail U) as Ur.
  destruct (String.eqb name k); auto. intros E. injection E as <-. exact H.
Qed.

Lemma uniform_set n df name c :
  uniform n df -> series_length c = n -> uniform n (set name c df).
Proof.
  intros U Hc. induction df as [|[k c0] r IH]; cbn.
  - repeat constructor. exact Hc.
  - pose proof (Forall_inv U) as H. pose proof (Forall_inv_tail U) as Ur.
    destruct (String.eqb name k); constructor.
    + exact Hc.
    + exact Ur.
    + exact H.
    + exact (IH Ur).
Qed.

Lemma uniform_nrows n df name s :
  uniform n df -> get name df = Some s -> series_nrows df = n.
Proof.
  intros U G. destruct df as [|[k c] r]; [discriminate|].
  inversion U; subst. reflexivity.
Qed.

Lemma bins_to_cuts_length bins labels il xs ys :
  bins_to_cuts bins labels il xs = Ok ys -> length ys = length xs.
Proof.
  unfold bins_to_cuts.
  destruct (has_duplicate bins && negb (length bins =? 2)); [discriminate|].
  destruct (negb (length labels =? length bins - 1)); [discriminate|].
  intros H. inversion H. apply length_map.
Qed.

Lemma cut_bins_length bins labels xs ys :
  cut_bins bins labels xs = Ok ys -> length ys = length xs.
Proof.
  unfold cut_bins. destruct (negb (increasing bins)); [discriminate|].
  apply bins_to_cuts_length.
Qed.

Lemma qcut_length q labels xs ys :
  qcut q labels xs = Ok ys -> length ys = length xs.
Proof.
  unfold qcut. destruct (sort_asc (dropna xs)); [discriminate|].
  apply bins_to_cuts_length.
Qed.

Lemma cut_equal_width_length n labels xs ys :
  cut_equal_width n labels xs = Ok ys -> length ys = length xs.
Proof.
  unfold cut_equal_width. destruct (length xs =? 0); [discriminate|].
  destruct (sort_asc (dropna xs)); [discriminate|].
  apply bins_to_cuts_length.
Qed.

Lemma map_gender_length xs : forall ys,
  map_gender xs = Ok ys -> length ys = length xs.
Proof.
  induction xs as [|[x|] r IH]; cbn; intros ys H.
  - inversion H. reflexivity.
  - destruct (map_gender r) as [zs|]; cbn in H; inversion H.
    cbn. f_equal. now apply IH.
  - discriminate.
Qed.

Lemma str_values_length s xs : str_values s = Ok xs -> length xs = series_length s.
Proof. destruct s as [[|]| | |]; cbn; intros H; inversion H; reflexivity. Qed.

Lemma num_values_length s xs : num_values s = Ok xs -> length xs = series_length s.
Proof. destruct s as [[|]| | |]; cbn; intros H; inversion H; reflexivity. Qed.

Lemma series_astype_str_length s :
  length (series_astype_str L s) = series_length s.
Proof.
  destruct s as [c| | |]; cbn; rewrite ?length_map; auto.
  apply astype_str_length.
Qed.

Lemma to_datetime_length s : length (to_datetime L s) = series_length s.
Proof. destruct s as [[|]| | |]; cbn; rewrite ?length_map; auto. Qed.

Lemma zip_with_same_length {A B C : Type} (f : A -> B -> C) xs ys n :
  length xs = n -> length ys = n -> length (zip_with f xs ys) = n.
Proof. intros <- H. rewrite zip_with_length, H. apply Nat.min_id. Qed.

Lemma series_add_length a b c n :
  series_length a = n -> series_length b = n ->
  series_add a b = Ok c -> series_length c = n.
Proof.
  destruct a as [[xs|xs]| | |], b as [[ys|ys]| | |]; cbn; intros Ha Hb H;
    try discriminate.
  - inversion H. cbn. now apply zip_with_same_length.
  - destruct (existsb _ _); inversion H. cbn. now apply zip_with_same_length.
  - destruct (existsb _ _); inversion H. cbn. now apply zip_with_same_length.
  - inversion H. cbn. now apply zip_with_same_length.
Qed.

Lemma product_step_uniform n df df' :
  uniform n df -> product_step df = Ok df' -> uniform n df'.
Proof.
  intros U. unfold product_step, when_present.
  destruct (get "product" df) as [s|] eqn:G; [|intros H; inversion H; now subst].
  destruct (str_values s) as [xs|] eqn:V; cbn [bind]; [|discriminate].
  intros H. inversion H. apply uniform_set; auto. cbn.
  rewrite length_map, (str_values_length _ _ V). eapply uniform_get; eauto.
Qed.

Lemma gender_step_uniform n df df' :
  uniform n df -> gender_step df = Ok df' -> uniform n df'.
Proof.
  intros U. unfold gender_step, when_present.
  destruct (get "gender" df) as [s|] eqn:G; [|intros H; inversion H; now subst].
  destruct (str_values s) as [xs|] eqn:V; cbn [bind]; [|discriminate].
  destruct (map_gender _) as [ys|] eqn:M; cbn [bind]; [|discriminate].
  intros H. inversion H. apply uniform_set; auto. cbn.
  rewrite (map_gender_length _ _ M), length_map, (str_values_length _ _ V).
  eapply uniform_get; eauto.
Qed.

Lemma income_step_uniform n df df' :
  uniform n df -> income_step df = Ok df' -> uniform n df'.
Proof.
  intros U. unfold income_step, when_present.
  destruct (get "income" df) as [s|] eqn:G; [|intros H; inversion H; now subst].
  destruct (num_values s) as [xs|] eqn:V; cbn [bind try_except]; [|discriminate].
  assert (Hx : length xs = n).
  { rewrite (num_values_length _ _ V). eapply uniform_get; eauto. }
  destruct (qcut 3 bucket_labels (zero_to_nan xs)) as [ys|] eqn:Q.
  - cbn [bind]. intros H. inversion H. apply uniform_set; auto. cbn.
    rewrite (qcut_length _ _ _ _ Q). unfold zero_to_nan. now rewrite length_map.
  - destruct (cut_bins income_bins bucket_labels xs) as [ys|] eqn:C;
      cbn [bind]; [|discriminate].
    intros H. inversion H. apply uniform_set; auto. cbn.
    now rewrite (cut_bins_length _ _ _ _ C).
Qed.

Lemma miles_split_length s c :
  miles_split s = Ok c -> series_length c = series_length s.
Proof.
  unfold miles_split.
  destruct (3 <=? series_nunique s);
    (destruct (num_values s) as [xs|] eqn:V; cbn [bind]; [|discriminate]).
  - destruct (qcut 3 bucket_labels xs) as [ys|] eqn:Q; cbn [bind]; [|discriminate].
    intros H. inversion H. cbn.
    now rewrite (qcut_length _ _ _ _ Q), (num_values_length _ _ V).
  - destruct (cut_equal_width 3 bucket_labels xs) as [ys|] eqn:Q;
      cbn [bind]; [|discriminate].
    intros H. inversion H. cbn.
    now rewrite (cut_equal_width_length _ _ _ _ Q), (num_values_length _ _ V).
Qed.

Lemma miles_step_uniform n df df' :
  uniform n df -> miles_step df = Ok df' -> uniform n df'.
Proof.
  intros U. unfold miles_step, when_present.
  destruct (get "miles" df) as [s|] eqn:G; [|intros H; inversion H; now subst].
  destruct (miles_split s) as [c|] eqn:M; cbn [try_except bind];
    intros H; inversion H; apply uniform_set; auto.
  - rewrite (miles_split_length _ _ M). eapply uniform_get; eauto.
  - cbn. rewrite repeat_length. eapply uniform_nrows; eauto.
Qed.

Lemma usage_step_uniform n df df' :
  uniform n df -> usage_step df = Ok df' -> uniform n df'.
Proof.
  intros U. unfold usage_step, when_present.
  destruct (get "usage" df) as [s|] eqn:G; [|intros H; inversion H; now subst].
  destruct (num_values s) as [xs|] eqn:V; cbn [bind]; [|discriminate].
  destruct (cut_bins usage_bins usage_labels xs) as [ys|] eqn:C;
    cbn [bind]; [|discriminate].
  intros H. inversion H. apply uniform_set; auto. cbn.
  rewrite (cut_bins_length _ _ _ _ C), (num_values_length _ _ V).
  eapply uniform_get; eauto.
Qed.

Lemma age_step_uniform n df df' :
  uniform n df -> age_step df = Ok df' -> uniform n df'.
Proof.
  intros U. unfold age_step, when_present.
  destruct (get "age" df) as [s|] eqn:G; [|intros H; inversion H; now subst].
  destruct (num_values s) as [xs|] eqn:V; cbn [bind]; [|discriminate].
  destruct (cut_bins age_bins age_labels xs) as [ys|] eqn:C;
    cbn [bind]; [|discriminate].
  intros H. inversion H. apply uniform_set; auto. cbn.
  rewrite (cut_bins_length _ _ _ _ C), (num_values_length _ _ V).
  eapply uniform_get; eauto.
Qed.

Lemma education_step_uniform n df df' :
  uniform n df -> education_step L df = Ok df' -> uniform n df'.
Proof.
  intros U. unfold education_step, when_present.
  destruct (get "education" df) as [s|] eqn:G; [|intros H; inversion H; now subst].
  intros H. inversion H. apply uniform_set; auto. cbn.
  rewrite length_map, series_astype_str_length. eapply uniform_get; eauto.
Qed.

Lemma datetime_step_uniform n df df' :
  uniform n df -> datetime_step L df = Ok df' -> uniform n df'.
Proof.
  intros U H. apply datetime_step_shape in H.
  destruct H as [[_ ->]|(dtc & s & _ & G & _ & _ & ->)]; auto.
  assert (Hs : length (to_datetime L s) = n).
  { rewrite to_datetime_length. eapply uniform_get; eauto. }
  cbn zeta. repeat apply uniform_set; auto; cbn; now rewrite ?length_map.
Qed.

Lemma count_step_uniform n df df' :
  uniform n df -> count_step df = Ok df' -> uniform n df'.
Proof.
  intros U. unfold count_step.
  destruct ((has "registered" df || has "casual" df) && negb (has "count" df));
    [|intros H; inversion H; now subst].
  destruct (get "registered" df) as [a|] eqn:Ga;
    [|intros H; inversion H; now subst].
  destruct (get "casual" df) as [b|] eqn:Gb;
    [|intros H; inversion H; now subst].
  destruct (series_add a b) as [c|] eqn:A; cbn [bind]; [|discriminate].
  intros H. inversion H. apply uniform_set; auto.
  eapply series_add_length; eauto; eapply uniform_get; eauto.
Qed.

(** The deriver returns as many rows as it was given. *)
Lemma feature_engineering_uniform n df df' :
  uniform n df -> feature_engineering L df = Ok df' -> uniform n df'.
Proof.
  intros U H. apply feature_engineering_stages in H.
  destruct H as (d1 & d2 & d3 & d4 & d5 & d6 & d7 & d8
                 & H1 & H2 & H3 & H4 & H5 & H6 & H7 & H8 & H9).
  eapply count_step_uniform; [|eassumption].
  eapply datetime_step_uniform; [|eassumption].
  eapply education_step_uniform; [|eassumption].
  eapply age_step_uniform; [|eassumption].
  eapply usage_step_uniform; [|eassumption].
  eapply miles_step_uniform; [|eassumption].
  eapply income_step_uniform; [|eassumption].
  eapply gender_step_uniform; [|eassumption].
  eapply product_step_uniform; eassumption.
Qed.

Lemma loaded_uniform (df : frame column) :
  rectangular df -> uniform (nrows df) (loaded df).
Proof.
  intros R. unfold uniform, loaded. apply Forall_map. exact R.
Qed.

Lemma get_loaded n (df : frame column) :
  get n (loaded df) = option_map Plain (get n df).
Proof.
  induction df as [|[k c] r IH]; cbn; auto. destruct (String.eqb n k); auto.
Qed.

Lemma columns_loaded (df : frame column) : columns (loaded df) = columns df.
Proof. unfold loaded, columns. rewrite map_map. now apply map_ext. Qed.

End Shape.

(* ================================================================== *)
(** * The feature deriver: what ends up in each derived column *)

Section Values.
Variable L : library.
Implicit Types (df : frame series).

Lemma keep_through t target df df' :
  assigns_only target df df' -> t <> target -> get t df' = get t df.
Proof.
  intros A Ht. apply (assigns_only_unchanged _ _ _ A). cbn. intuition.
Qed.

(** Frame of the deriver: unchanged columns, the date-like column, and the
    order of columns. *)
Lemma deriver_frame df df' :
  feature_engineering L df = Ok df' ->
  (forall n c, get n df = Some c -> ~ In n derived_names ->
               first_datelike df <> Some n -> get n df' = Some c)
  /\ (forall dtc s, first_datelike df = Some dtc -> get dtc df = Some s ->
                    get dtc df' = Some (Datetime (to_datetime L s)))
  /\ extends_with (derived_names ++ ["count"]) df df'.
Proof.
  intros H. apply feature_engineering_stages in H.
  destruct H as (d1 & d2 & d3 & d4 & d5 & d6 & d7 & d8
                 & H1 & H2 & H3 & H4 & H5 & H6 & H7 & H8 & H9).
  assert (LS : unchanged_outside label_names df d7
               /\ extends_with label_names df d7).
  { apply (label_steps_frame L). exists d1, d2, d3, d4, d5, d6. auto 10. }
  destruct LS as [U7 X7].
  pose proof (first_datelike_extends _ _ X7) as F7.
  pose proof (datetime_step_shape L _ _ H8) as S8.
  pose proof (count_step_shape _ _ H9) as S9.
  assert (In_derived : forall n, In n label_names -> In n derived_names).
  { intros n K. unfold derived_names.
    repeat (destruct K as [<-|K]; [cbn; tauto|]). destruct K. }
  split; [|split].
  - intros n c G Nd Nf.
    assert (G7 : get n d7 = Some c).
    { rewrite U7; auto. }
    assert (G8 : get n d8 = Some c).
    { destruct S8 as [[_ ->]|(dtc & s & F & Gd & _ & _ & ->)]; auto.
      cbn zeta. rewrite F7 in F.
      rewrite !get_set_other; auto.
      - intros ->. contradiction.
      - intros ->. apply Nd. cbn. tauto.
      - intros ->. apply Nd. cbn. tauto.
      - intros ->. apply Nd. cbn. tauto. }
    destruct S9 as [->|(N & c9 & ->)]; auto.
    rewrite get_set_other; auto. intros ->. congruence.
  - intros dtc s F G.
    destruct (first_datelike_is_datelike _ _ F) as [Dl _].
    assert (G7 : get dtc d7 = Some s).
    { rewrite U7; auto. intros K.
      apply label_names_not_datelike in K. congruence. }
    assert (G8 : get dtc d8 = Some (Datetime (to_datetime L s))).
    { rewrite F7, F in S8.
      destruct S8 as [[K _]|(dtc' & s' & K & Gd & Nd & Nh & ->)]; [discriminate|].
      inversion K; subst dtc'. rewrite G7 in Gd. inversion Gd; subst s'.
      cbn zeta.
      rewrite (get_set_other _ dtc "day_of_week") by (intros ->; discriminate).
      rewrite (get_set_other _ dtc "hour") by assumption.
      rewrite (get_set_other _ dtc "date") by assumption.
      apply get_set_same. }
    destruct S9 as [->|(N & c9 & ->)]; auto.
    rewrite get_set_other; auto. intros ->. discriminate.
  - assert (X8 : extends_with ["date"; "hour"; "day_of_week"] d7 d8).
    { destruct S8 as [[_ ->]|(dtc & s & F & Gd & _ & _ & ->)];
        [apply extends_refl|].
      cbn zeta.
      assert (X0 : extends_with [] d7 (set dtc (Datetime (to_datetime L s)) d7)).
      { exists []. erewrite columns_set_present by eauto.
        rewrite app_nil_r. split; auto. apply incl_refl. }
      change ["date"; "hour"; "day_of_week"]
        with ([] ++ ["date"] ++ ["hour"] ++ ["day_of_week"]).
      eapply extends_trans; [exact X0|].
      eapply extends_trans; [apply set_extends|].
      eapply extends_trans; [apply set_extends|]. apply set_extends. }
    assert (X9 : extends_with ["count"] d8 df').
    { destruct S9 as [->|(N & c9 & ->)]; [apply extends_refl|apply set_extends]. }
    change (derived_names ++ ["count"])
      with (label_names ++ ["date"; "hour"; "day_of_week"] ++ ["count"]).
    eapply extends_trans; [exact X7|]. eapply extends_trans; eauto.
Qed.

(** The stages, with the shape of each of the seven label steps. *)
Lemma stages_shapes df df' :
  feature_engineering L df = Ok df' ->
  exists d1 d2 d3 d4 d5 d6 d7 d8,
    (product_step df = Ok d1 /\ gender_step d1 = Ok d2 /\
     income_step d2 = Ok d3 /\ miles_step d3 = Ok d4 /\
     usage_step d4 = Ok d5 /\ age_step d5 = Ok d6 /\
     education_step L d6 = Ok d7 /\ datetime_step L d7 = Ok d8 /\
     count_step d8 = Ok df')
    /\ (assigns_only "product_label" df d1 /\ assigns_only "gender_label" d1 d2 /\
        assigns_only "income_bucket" d2 d3 /\ assigns_only "miles_category" d3 d4 /\
        assigns_only "usage_category" d4 d5 /\ assigns_only "age_bucket" d5 d6 /\
        assigns_only "education_label" d6 d7).
Proof.
  intros H. apply feature_engineering_stages in H.
  destruct H as (d1 & d2 & d3 & d4 & d5 & d6 & d7 & d8
                 & H1 & H2 & H3 & H4 & H5 & H6 & H7 & H8 & H9).
  exists d1, d2, d3, d4, d5, d6, d7, d8. split; [auto 10|].
  pose proof (product_step_shape _ _ H1). pose proof (gender_step_shape _ _ H2).
  pose proof (income_step_shape _ _ H3). pose proof (miles_step_shape _ _ H4).
  pose proof (usage_step_shape _ _ H5). pose proof (age_step_shape _ _ H6).
  pose proof (education_step_shape L _ _ H7). auto 10.
Qed.

Ltac stages H :=
  apply stages_shapes in H;
  destruct H as (d1 & d2 & d3 & d4 & d5 & d6 & d7 & d8
                 & (H1 & H2 & H3 & H4 & H5 & H6 & H7 & H8 & H9)
                 & (A1 & A2 & A3 & A4 & A5 & A6 & A7)).

Ltac keep A := rewrite (keep_through _ _ _ _ A) by discriminate.

Ltac to_the_end :=
  match goal with
  | H8 : datetime_step _ ?d7 = Ok ?d8, H9 : count_step ?d8 = Ok ?df' |- get _ ?df' = _ =>
      apply (tail_steps_keep L d7 d8 df'); auto;
      [cbn; intuition discriminate|]
  end.

Lemma product_label_value df df' xs :
  feature_engineering L df = Ok df' ->
  get "product" df = Some (Plain (CObject xs)) ->
  get "product_label" df'
  = Some (Plain (CObject
            (map (option_map (fun x => Text.remove_spaces (Text.upper x))) xs))).
Proof.
  intros H G. stages H.
  unfold product_step, when_present in H1. rewrite G in H1. cbn in H1.
  inversion H1; subst d1. to_the_end.
  keep A7. keep A6. keep A5. keep A4. keep A3. keep A2. apply get_set_same.
Qed.

Lemma map_gender_present ss :
  map_gender (map (option_map Text.lower) (map Some ss))
  = Ok (map (fun g => Some (gender_label_of g)) ss).
Proof.
  induction ss as [|g r IH]; cbn; auto. now rewrite IH.
Qed.

Lemma gender_label_value df df' ss :
  feature_engineering L df = Ok df' ->
  get "gender" df = Some (Plain (CObject (map Some ss))) ->
  get "gender_label" df'
  = Some (Plain (CObject (map (fun g => Some (gender_label_of g)) ss))).
Proof.
  intros H G. stages H.
  assert (G1 : get "gender" d1 = Some (Plain (CObject (map Some ss)))).
  { keep A1. exact G. }
  unfold gender_step, when_present in H2. rewrite G1 in H2.
  cbn [str_values bind] in H2. rewrite map_gender_present in H2. cbn in H2.
  inversion H2; subst d2. to_the_end.
  keep A7. keep A6. keep A5. keep A4. keep A3. apply get_set_same.
Qed.

Lemma income_bucket_value df df' xs :
  feature_engineering L df = Ok df' ->
  get "income" df = Some (Plain (CFloat xs)) ->
  exists ys,
    get "income_bucket" df' = Some (Categorical ys)
    /\ (qcut 3 bucket_labels (zero_to_nan xs) = Ok ys
        \/ (exists e, qcut 3 bucket_labels (zero_to_nan xs) = Raise e)
           /\ cut_bins income_bins bucket_labels xs = Ok ys).
Proof.
  intros H G. stages H.
  assert (G2 : get "income" d2 = Some (Plain (CFloat xs))).
  { keep A2. keep A1. exact G. }
  unfold income_step, when_present in H3. rewrite G2 in H3.
  cbn [num_values bind] in H3.
  destruct (qcut 3 bucket_labels (zero_to_nan xs)) as [ys|e] eqn:Q;
    cbn [try_except bind] in H3.
  - inversion H3; subst d3. exists ys. split; [|now left]. to_the_end.
    keep A7. keep A6. keep A5. keep A4. apply get_set_same.
  - destruct (cut_bins income_bins bucket_labels xs) as [ys|] eqn:C;
      cbn [bind] in H3; [|discriminate].
    inversion H3; subst d3. exists ys. split; [|right; eauto]. to_the_end.
    keep A7. keep A6. keep A5. keep A4. apply get_set_same.
Qed.

Lemma miles_category_value n df df' s :
  uniform n df ->
  feature_engineering L df = Ok df' ->
  get "miles" df = Some s ->
  exists c,
    get "miles_category" df' = Some c
    /\ (miles_split s = Ok c
        \/ (exists e, miles_split s = Raise e)
           /\ c = constant_text n "unknown").
Proof.
  intros U H G. stages H.
  assert (G3 : get "miles" d3 = Some s).
  { keep A3. keep A2. keep A1. exact G. }
  assert (U3 : uniform n d3).
  { eapply income_step_uniform; [|eassumption].
    eapply gender_step_uniform; [|eassumption].
    eapply product_step_uniform; eassumption. }
  unfold miles_step, when_present in H4. rewrite G3 in H4.
  rewrite (uniform_nrows _ _ _ _ U3 G3) in H4.
  destruct (miles_split s) as [c|e] eqn:M; cbn [try_except bind] in H4;
    inversion H4; subst d4.
  - exists c. split; [|now left]. to_the_end.
    keep A7. keep A6. keep A5. apply get_set_same.
  - exists (constant_text n "unknown"). split; [|right; eauto]. to_the_end.
    keep A7. keep A6. keep A5. apply get_set_same.
Qed.

Lemma usage_category_value df df' xs :
  feature_engineering L df = Ok df' ->
  get "usage" df = Some (Plain (CFloat xs)) ->
  get "usage_category" df' = Some (Categorical (map usage_category_of xs)).
Proof.
  intros H G. stages H.
  assert (G4 : get "usage" d4 = Some (Plain (CFloat xs))).
  { keep A4. keep A3. keep A2. keep A1. exact G. }
  rewrite (usage_step_numeric _ _ G4) in H5. inversion H5; subst d5.
  to_the_end. keep A7. keep A6. apply get_set_same.
Qed.

Lemma age_bucket_value df df' xs :
  feature_engineering L df = Ok df' ->
  get "age" df = Some (Plain (CFloat xs)) ->
  get "age_bucket" df' = Some (Categorical (map age_bucket_of xs)).
Proof.
  intros H G. stages H.
  assert (G5 : get "age" d5 = Some (Plain (CFloat xs))).
  { keep A5. keep A4. keep A3. keep A2. keep A1. exact G. }
  rewrite (age_step_numeric _ _ G5) in H6. inversion H6; subst d6.
  to_the_end. keep A7. apply get_set_same.
Qed.

End Values.

(* ================================================================== *)
(** * Which rows get a label *)

Section Labels.

Lemma Forall2_map_in {A B : Type} (R : A -> B -> Prop) (f : A -> B) xs :
  (forall x, In x xs -> R x (f x)) -> Forall2 R xs (map f xs).
Proof.
  induction xs as [|x r IH]; cbn; intros H; constructor; auto.
Qed.

Lemma label_of_within bins labels il x :
  within labels (label_of bins labels il x).
Proof.
  unfold within, label_of. destruct x as [v|]; auto.
  match goal with |- context [if ?b then None else _] => destruct b end; auto.
  match goal with |- context [nth_error labels ?i] =>
    destruct (nth_error labels i) as [l|] eqn:N end; auto.
  right. exists l. split; auto. eapply nth_error_In; eauto.
Qed.

Lemma bins_to_cuts_map bins labels il xs ys :
  bins_to_cuts bins labels il xs = Ok ys ->
  ys = map (label_of bins labels il) xs
  /\ length labels = length bins - 1.
Proof.
  unfold bins_to_cuts.
  destruct (has_duplicate bins && negb (length bins =? 2)); [discriminate|].
  destruct (length labels =? length bins - 1) eqn:E; cbn [negb]; [|discriminate].
  apply Nat.eqb_eq in E. intros H. inversion H. auto.
Qed.

Lemma bins_to_cuts_within bins labels il xs ys :
  bins_to_cuts bins labels il xs = Ok ys -> Forall (within labels) ys.
Proof.
  intros H. apply bins_to_cuts_map in H. destruct H as [-> _].
  apply Forall_map, Forall_forall. intros x _. apply label_of_within.
Qed.

Lemma nth_last_value (v : list Q) d : nth (length v - 1) v d = last v d.
Proof.
  induction v as [|a r IH]; auto.
  destruct r as [|b r']; auto.
  change (last (a :: b :: r') d) with (last (b :: r') d). rewrite <- IH.
  cbn [length]. replace (S (S (length r')) - 1) with (S (S (length r') - 1)) by lia.
  reflexivity.
Qed.

(** A quantile split that succeeds labels every value present. *)
Lemma qcut_labelled labels xs ys :
  qcut 3 labels xs = Ok ys -> Forall2 (labelled labels) xs ys.
Proof.
  unfold qcut. destruct (sort_asc (dropna xs)) as [|m r] eqn:S; [discriminate|].
  set (v := m :: r) in *. intros H. apply bins_to_cuts_map in H.
  destruct H as [-> Hl]. apply Forall2_map_in. intros [a|] Hin; cbn [labelled]; auto.
  assert (Hv : In a v).
  { rewrite <- S. apply sort_In. now apply in_dropna. }
  assert (Sv : StronglySorted Qle v).
  { rewrite <- S. apply sort_sorted. }
  assert (Lo : (quantile v 0 3 <= a)%Q).
  { rewrite quantile_zero. unfold v. cbn [nth].
    eapply sorted_head_least; eauto. }
  assert (Hi : (a <= quantile v 3 3)%Q).
  { rewrite quantile_top by lia. rewrite nth_last_value.
    now apply sorted_last_greatest. }
  cbn [seq map] in *.
  apply (label_of_between (Edge (quantile v 0 3))
           [Edge (quantile v 1 3); Edge (quantile v 2 3)]
           (Edge (quantile v 3 3)) labels true a).
  - cbn in Hl. cbn. lia.
  - cbn [edge_ltb edge_is]. destruct (Qle_bool a (quantile v 0 3)) eqn:E.
    + right. split; auto. apply Qeq_bool_iff. apply Qle_bool_iff in E.
      now apply Qle_antisym.
    + now left.
  - cbn [edge_ltb]. apply negb_false_iff. now apply Qle_bool_iff.
Qed.

Lemma qcut_within labels xs ys :
  qcut 3 labels xs = Ok ys -> Forall (within labels) ys.
Proof.
  unfold qcut. destruct (sort_asc (dropna xs)); [discriminate|].
  apply bins_to_cuts_within.
Qed.

(** Bins that run from minus infinity to plus infinity label every value
    present. *)
Lemma open_bins_labelled mid labels xs ys :
  cut_bins (NegInf :: mid ++ [PosInf]) labels xs = Ok ys ->
  Forall2 (labelled labels) xs ys.
Proof.
  unfold cut_bins. destruct (negb (increasing _)); [discriminate|].
  intros H. apply bins_to_cuts_map in H. destruct H as [-> Hl].
  apply Forall2_map_in. intros [a|] _; cbn [labelled]; auto.
  apply label_of_between; auto.
  cbn in Hl. rewrite length_app in Hl. cbn in Hl. lia.
Qed.

Lemma linspace_three a b :
  linspace a b 3
  = [(a + inject_Z 0 * (b - a) / inject_Z 3)%Q;
     (a + inject_Z 1 * (b - a) / inject_Z 3)%Q;
     (a + inject_Z 2 * (b - a) / inject_Z 3)%Q;
     (a + inject_Z 3 * (b - a) / inject_Z 3)%Q].
Proof. reflexivity. Qed.

Lemma linspace_lowest a b : (a + inject_Z 0 * (b - a) / inject_Z 3 == a)%Q.
Proof. cbn [inject_Z]. field. Qed.

Lemma linspace_highest a b : (a + inject_Z 3 * (b - a) / inject_Z 3 == b)%Q.
Proof. cbn [inject_Z]. field. Qed.

Lemma Qabs_val_positive x : ~ (x == 0)%Q -> (0 < Qabs_val x)%Q.
Proof.
  intros N. unfold Qabs_val. destruct (Qle_bool 0 x) eqn:E.
  - apply Qle_bool_iff in E. apply Qle_lt_or_eq in E.
    destruct E as [E|E]; auto. exfalso. apply N. now symmetry.
  - apply Qle_bool_false in E.
    apply (Qplus_lt_l _ _ x). ring_simplify. exact E.
Qed.

(** An equal-width split that succeeds labels every value present. *)
Lemma cut_equal_width_labelled labels xs ys :
  cut_equal_width 3 labels xs = Ok ys -> Forall2 (labelled labels) xs ys.
Proof.
  unfold cut_equal_width. destruct (length xs =? 0); [discriminate|].
  destruct (sort_asc (dropna xs)) as [|mn r] eqn:S; [discriminate|].
  cbv zeta. set (v := mn :: r) in *. set (mx := last v mn).
  assert (Sv : StronglySorted Qle v).
  { rewrite <- S. apply sort_sorted. }
  assert (In_v : forall a, In (Some a) xs -> (mn <= a <= mx)%Q).
  { intros a Ha. assert (Hv : In a v).
    { rewrite <- S. apply sort_In. now apply in_dropna. }
    split; [eapply sorted_head_least; eauto|now apply sorted_last_greatest]. }
  rewrite !linspace_three.
  destruct (Qeq_bool mn mx) eqn:E; intros H; apply bins_to_cuts_map in H;
    destruct H as [-> Hl]; apply Forall2_map_in; intros [a|] Hin; cbn [labelled]; auto;
    destruct (In_v a Hin) as [Lo Hi]; cbn [map] in *.
  - set (d := if Qeq_bool mn 0 then 0.001%Q else (0.001 * Qabs_val mn)%Q) in *.
    assert (Dp : (0 < d)%Q).
    { unfold d. destruct (Qeq_bool mn 0) eqn:Z; [reflexivity|].
      apply Qeq_bool_neq in Z. apply Qabs_val_positive in Z.
      apply (Qmult_lt_0_compat 0.001); [reflexivity|exact Z]. }
    match goal with
    | |- context [label_of (?e0 :: ?e1 :: ?e2 :: ?e3 :: nil)] =>
        apply (label_of_between e0 [e1; e2] e3 labels false a)
    end.
    + cbn in Hl. cbn. lia.
    + left. cbn [edge_ltb]. apply negb_true_iff.
      destruct (Qle_bool a _) eqn:K; auto. apply Qle_bool_iff in K.
      rewrite linspace_lowest in K. apply Qeq_bool_iff in E. lra.
    + cbn [edge_ltb]. apply negb_false_iff, Qle_bool_iff.
      rewrite linspace_highest. lra.
  - assert (Lt : (mn < mx)%Q).
    { apply Qeq_bool_neq in E. destruct (In_v mn) as [_ K].
      - apply in_dropna. rewrite <- (sort_In mn (dropna xs)), S. now left.
      - apply Qle_lt_or_eq in K. destruct K; auto. contradiction. }
    match goal with
    | |- context [label_of (?e0 :: ?e1 :: ?e2 :: ?e3 :: nil)] =>
        apply (label_of_between e0 [e1; e2] e3 labels false a)
    end.
    + cbn in Hl. cbn. lia.
    + left. cbn [edge_ltb]. apply negb_true_iff.
      destruct (Qle_bool a _) eqn:K; auto. apply Qle_bool_iff in K.
      rewrite linspace_lowest in K. lra.
    + cbn [edge_ltb]. apply negb_false_iff, Qle_bool_iff.
      rewrite linspace_highest. lra.
Qed.

Lemma cut_equal_width_within labels xs ys :
  cut_equal_width 3 labels xs = Ok ys -> Forall (within labels) ys.
Proof.
  unfold cut_equal_width. destruct (length xs =? 0); [discriminate|].
  destruct (sort_asc (dropna xs)); [discriminate|].
  apply bins_to_cuts_within.
Qed.

Lemma label_of_three_way e0 e1 e2 e3 il a :
  Qle_bool a e0 = false
  \/ (il = true /\ Qeq_bool e0 a = true /\ Qle_bool a e1 = true) ->
  Qle_bool a e3 = true ->
  label_of [Edge e0; Edge e1; Edge e2; Edge e3] bucket_labels il (Some a)
  = Some (three_way e1 e2 a).
Proof.
  intros Lo Hi. unfold label_of, three_way.
  cbn [searchsorted_left edge_ltb edge_is length].
  destruct (il && Qeq_bool e0 a) eqn:B.
  - apply andb_true_iff in B. destruct B as [-> B].
    destruct Lo as [Lo|(_ & _ & ->)]; [|reflexivity].
    apply Qeq_bool_iff in B. apply Qle_bool_false in Lo. lra.
  - assert (T : Qle_bool a e0 = false).
    { destruct Lo as [T|(-> & T & _)]; auto. rewrite T in B. discriminate. }
    rewrite T. cbn [negb].
    destruct (Qle_bool a e1); cbn [negb]; [reflexivity|].
    destruct (Qle_bool a e2); cbn [negb]; [reflexivity|].
    rewrite Hi. reflexivity.
Qed.

(** No quantile lies below the least value. *)
Lemma quantile_ge_min m r k q :
  StronglySorted Qle (m :: r) -> k <= q -> 0 < q ->
  (m <= quantile (m :: r) k q)%Q.
Proof.
  intros Srt Hk Hq. unfold quantile.
  set (v := m :: r). set (n := length v).
  assert (Hn1 : 1 <= n) by (unfold n, v; cbn; lia).
  set (h := (inject_Z (Z.of_nat ((n - 1) * k)) / inject_Z (Z.of_nat q))%Q).
  assert (Qpos : (0 < inject_Z (Z.of_nat q))%Q).
  { change 0%Q with (inject_Z 0). rewrite <- Zlt_Qlt. lia. }
  assert (H0 : (0 <= h)%Q).
  { unfold h. apply Qle_shift_div_l; auto. rewrite Qmult_0_l.
    change 0%Q with (inject_Z 0). rewrite <- Zle_Qle. apply Nat2Z.is_nonneg. }
  assert (Hn : (h <= inject_Z (Z.of_nat (n - 1)))%Q).
  { unfold h. apply Qle_shift_div_r; auto. rewrite <- inject_Z_mult, <- Zle_Qle.
    rewrite <- Nat2Z.inj_mul. apply Nat2Z.inj_le. now apply Nat.mul_le_mono_l. }
  assert (F0 : (0 <= Qfloor h)%Z).
  { apply (Qfloor_resp_le 0 h H0). }
  assert (Fn : (Qfloor h <= Z.of_nat (n - 1))%Z).
  { rewrite <- (Qfloor_Z (Z.of_nat (n - 1))). now apply Qfloor_resp_le. }
  set (lo := Z.to_nat (Qfloor h)).
  assert (Hlo : lo < n) by (unfold lo; lia).
  assert (Hhi : Nat.min (S lo) (n - 1) < n) by lia.
  assert (Ha : (m <= nth lo v 0)%Q).
  { apply (sorted_head_least m r); auto. now apply nth_In. }
  assert (Hb : (m <= nth (Nat.min (S lo) (n - 1)) v 0)%Q).
  { apply (sorted_head_least m r); auto. now apply nth_In. }
  pose proof (Qfloor_le h) as Fl. pose proof (Qlt_floor h) as Fu.
  rewrite inject_Z_plus in Fu. 
  set (frac := (h - inject_Z (Qfloor h))%Q).
  assert (Z0 : (0 <= frac)%Q) by (unfold frac; lra).
  assert (Z1 : (frac <= 1)%Q) by (unfold frac; change (inject_Z 1) with 1%Q in Fu; lra).
  set (a := nth lo v 0%Q) in *. set (b := nth (Nat.min (S lo) (n - 1)) v 0%Q) in *.
  assert (E : (a + (b - a) * frac - m == (a - m) * (1 - frac) + (b - m) * frac)%Q) by ring.
  assert (P1 : (0 <= (a - m) * (1 - frac))%Q) by (apply Qmult_le_0_compat; lra).
  assert (P2 : (0 <= (b - m) * frac)%Q) by (apply Qmult_le_0_compat; lra).
  lra.
Qed.

Lemma linspace_third a b :
  (a + inject_Z 1 * (b - a) / inject_Z 3 == a + (1 # 3) * (b - a))%Q.
Proof. cbn [inject_Z]. field. Qed.

Lemma linspace_two_thirds a b :
  (a + inject_Z 2 * (b - a) / inject_Z 3 == a + (2 # 3) * (b - a))%Q.
Proof. cbn [inject_Z]. field. Qed.

(** A quantile split that succeeds is the three-way split at the tertiles. *)
Lemma qcut_three_way xs ys :
  qcut 3 bucket_labels xs = Ok ys ->
  ys = map (option_map (three_way (quantile (sort_asc (dropna xs)) 1 3)
                                  (quantile (sort_asc (dropna xs)) 2 3))) xs.
Proof.
  unfold qcut. destruct (sort_asc (dropna xs)) as [|m r] eqn:S; [discriminate|].
  set (v := m :: r) in *. intros H. apply bins_to_cuts_map in H.
  destruct H as [-> _]. apply map_ext_in. intros [a|] Hin; [|reflexivity].
  assert (Hv : In a v).
  { rewrite <- S. apply sort_In. now apply in_dropna. }
  assert (Sv : StronglySorted Qle v).
  { rewrite <- S. apply sort_sorted. }
  assert (Lo : (quantile v 0 3 <= a)%Q).
  { rewrite quantile_zero. unfold v. cbn [nth].
    eapply sorted_head_least; eauto. }
  assert (Hi : (a <= quantile v 3 3)%Q).
  { rewrite quantile_top by lia. rewrite nth_last_value.
    now apply sorted_last_greatest. }
  assert (L1 : (quantile v 0 3 <= quantile v 1 3)%Q).
  { rewrite quantile_zero. unfold v. cbn [nth].
    apply quantile_ge_min; auto; lia. }
  cbn [seq map option_map]. apply label_of_three_way.
  - destruct (Qle_bool a (quantile v 0 3)) eqn:E; [right|now left].
    apply Qle_bool_iff in E. split; auto. split.
    + apply Qeq_bool_iff. now apply Qle_antisym.
    + apply Qle_bool_iff. lra.
  - now apply Qle_bool_iff.
Qed.

(** An equal-width split that succeeds is the three-way split at the thirds
    of the range; a constant column is all medium. *)
Lemma cut_equal_width_three_way xs ys mn r :
  cut_equal_width 3 bucket_labels xs = Ok ys ->
  sort_asc (dropna xs) = mn :: r ->
  ys = map (option_map
              (fun a =>
                 if Qeq_bool mn (last (mn :: r) mn) then "medium"
                 else three_way (mn + (last (mn :: r) mn - mn) / 3)%Q
                                (mn + 2 * (last (mn :: r) mn - mn) / 3)%Q a))
           xs.
Proof.
  unfold cut_equal_width. destruct (length xs =? 0); [discriminate|].
  intros H S. rewrite S in H. cbv zeta in H.
  set (v := mn :: r) in *. set (mx := last v mn) in *.
  assert (Sv : StronglySorted Qle v).
  { rewrite <- S. apply sort_sorted. }
  assert (In_v : forall a, In (Some a) xs -> (mn <= a <= mx)%Q).
  { intros a Ha. assert (Hv : In a v).
    { rewrite <- S. apply sort_In. now apply in_dropna. }
    split; [eapply sorted_head_least; eauto|now apply sorted_last_greatest]. }
  rewrite !linspace_three in H.
  destruct (Qeq_bool mn mx) eqn:E; apply bins_to_cuts_map in H;
    destruct H as [-> _]; apply map_ext_in; intros [a|] Hin; try reflexivity;
    destruct (In_v a Hin) as [Lo Hi]; cbn [map option_map].
  - set (d := if Qeq_bool mn 0 then 0.001%Q else (0.001 * Qabs_val mn)%Q) in *.
    assert (Dp : (0 < d)%Q).
    { unfold d. destruct (Qeq_bool mn 0) eqn:Z; [reflexivity|].
      apply Qeq_bool_neq in Z. apply Qabs_val_positive in Z.
      apply (Qmult_lt_0_compat 0.001); [reflexivity|exact Z]. }
    apply Qeq_bool_iff in E.
    rewrite label_of_three_way.
    + unfold three_way.
      assert (K1 : Qle_bool a (mn - d + inject_Z 1 * (mx + d - (mn - d)) / inject_Z 3) = false).
      { destruct (Qle_bool a _) eqn:K; auto. apply Qle_bool_iff in K.
        rewrite linspace_third in K. lra. }
      assert (K2 : Qle_bool a (mn - d + inject_Z 2 * (mx + d - (mn - d)) / inject_Z 3) = true).
      { apply Qle_bool_iff. rewrite linspace_two_thirds. lra. }
      now rewrite K1, K2.
    + left. destruct (Qle_bool a _) eqn:K; auto. apply Qle_bool_iff in K.
      rewrite linspace_lowest in K. lra.
    + apply Qle_bool_iff. rewrite linspace_highest. lra.
  - assert (Lt : (mn < mx)%Q).
    { apply Qeq_bool_neq in E. destruct (In_v mn) as [_ K].
      - apply in_dropna. rewrite <- (sort_In mn (dropna xs)), S. now left.
      - apply Qle_lt_or_eq in K. destruct K; auto. contradiction. }
    rewrite label_of_three_way.
    + unfold three_way. f_equal.
      assert (E1 : (mn + inject_Z 1 * (mx - mn) / inject_Z 3 == mn + (mx - mn) / 3)%Q)
        by (cbn [inject_Z]; field).
      assert (E2 : (mn + inject_Z 2 * (mx - mn) / inject_Z 3 == mn + 2 * (mx - mn) / 3)%Q)
        by (cbn [inject_Z]; field).
      now rewrite E1, E2.
    + left. destruct (Qle_bool a _) eqn:K; auto. apply Qle_bool_iff in K.
      rewrite linspace_lowest in K. lra.
    + apply Qle_bool_iff. rewrite linspace_highest. lra.
Qed.

End Labels.

(* ================================================================== *)
(** * The pipeline up to the feature deriver *)

Section Prepared.
Variable L : library.

Lemma columns_drop_duplicates df : columns (drop_duplicates df) = columns df.
Proof. unfold drop_duplicates, columns. rewrite map_map. now apply map_ext. Qed.

Lemma columns_rename g df : columns (rename_with g df) = map g (columns df).
Proof. unfold rename_with, columns. now rewrite !map_map. Qed.

Lemma columns_update f df name : columns (update_column f df name) = columns df.
Proof.
  unfold update_column. destruct (get name df) eqn:G; auto.
  eapply columns_set_present; eauto.
Qed.

Lemma columns_updates f names : forall df,
  columns (fold_left (update_column f) names df) = columns df.
Proof.
  induction names as [|n r IH]; intros df; cbn [fold_left]; auto.
  now rewrite IH, columns_update.
Qed.

Lemma columns_basic_clean raw :
  columns (basic_clean L raw) = map rename_column (columns raw).
Proof.
  rewrite basic_clean_unfold, columns_updates, columns_drop_duplicates.
  apply columns_rename.
Qed.

Lemma drop_marked_count {A : Type} marks : forall (xs : list A),
  length marks = length xs ->
  length (drop_marked marks xs) + count_occ Bool.bool_dec marks true = length xs.
Proof.
  induction marks as [|m ms IH]; intros [|x xs] H; cbn in *; try lia.
  injection H as H. specialize (IH xs H). destruct m; cbn.
  - destruct (Bool.bool_dec true true); [lia|congruence].
  - destruct (Bool.bool_dec false true); [discriminate|lia].
Qed.

(** Each marked row is one row less. *)
Lemma nrows_drop_duplicates df :
  rectangular df ->
  nrows (drop_duplicates df) + count_occ Bool.bool_dec (duplicated df) true
  = nrows df.
Proof.
  intros R. pose proof (duplicated_length df R) as Hm.
  destruct df as [|[n c] r]; cbn [drop_duplicates map nrows fst snd] in *.
  - unfold duplicated, rows. reflexivity.
  - rewrite column_drop_length, <- (cells_length c).
    apply drop_marked_count. now rewrite cells_length.
Qed.

Lemma impute_column_length c :
  column_length (impute_column L c) = column_length c.
Proof.
  unfold impute_column, fillna. cbn. rewrite length_map.
  destruct c; cbn; now rewrite ?length_map.
Qed.

Lemma nrows_impute_and_cast df : nrows (impute_and_cast L df) = nrows df.
Proof.
  unfold impute_and_cast.
  rewrite nrows_updates by apply strip_text_length.
  apply nrows_updates, impute_column_length.
Qed.

Lemma rectangular_impute_and_cast df :
  rectangular df -> rectangular (impute_and_cast L df).
Proof.
  intros R. unfold impute_and_cast.
  apply rectangular_updates; [apply strip_text_length|].
  apply rectangular_updates; [apply impute_column_length|exact R].
Qed.

Lemma process_unfold raw :
  process L raw = feature_engineering L (loaded (prepared L raw)).
Proof. unfold process, prepared. reflexivity. Qed.

Lemma columns_prepared raw :
  NoDup (map rename_column (columns raw)) ->
  columns (prepared L raw) = map rename_column (columns raw).
Proof.
  intros N. unfold prepared. rewrite columns_impute_and_cast.
  - apply columns_basic_clean.
  - now rewrite columns_basic_clean.
Qed.

Lemma rectangular_prepared raw : rectangular raw -> rectangular (prepared L raw).
Proof.
  intros R. now apply rectangular_impute_and_cast, rectangular_basic_clean.
Qed.

Lemma nrows_prepared raw :
  nrows (prepared L raw) = nrows (drop_duplicates (rename_with rename_column raw)).
Proof. unfold prepared. now rewrite nrows_impute_and_cast, nrows_basic_clean. Qed.

(** A numeric candidate reaches the deriver as numbers, none missing. *)
Lemma prepared_numeric raw name c :
  NoDup (map rename_column (columns raw)) ->
  In name numeric_candidates ->
  get name (prepared L raw) = Some c ->
  exists xs, c = CFloat xs /\ Forall (fun x => x <> None) xs.
Proof.
  intros N Hin. unfold prepared.
  rewrite get_impute_and_cast by now rewrite columns_basic_clean.
  rewrite candidate_not_categorical, in_existsb by assumption.
  destruct (get name (basic_clean L raw)) as [c0|]; cbn; [|discriminate].
  intros H. injection H as <-. unfold impute_column.
  eexists. split; [reflexivity|]. apply fillna_present.
Qed.

(** A categorical column reaches the deriver as text, none missing. *)
Lemma prepared_text raw name c :
  NoDup (map rename_column (columns raw)) ->
  In name categorical_columns ->
  get name (prepared L raw) = Some c ->
  exists ss, c = CObject (map Some ss).
Proof.
  intros N Hin. unfold prepared.
  rewrite get_impute_and_cast by now rewrite columns_basic_clean.
  rewrite in_existsb by assumption.
  assert (E : existsb (String.eqb name) numeric_candidates = false).
  { repeat (destruct Hin as [<-|Hin]; [reflexivity|]). destruct Hin. }
  rewrite E.
  destruct (get name (basic_clean L raw)) as [c0|]; cbn; [|discriminate].
  intros H. injection H as <-. unfold strip_text.
  exists (map Text.strip (astype_str L c0)). now rewrite map_map.
Qed.

End Prepared.

(* ================================================================== *)
(** * The processed table: label sets *)

Section Processed.
Variable L : library.

Lemma Forall2_map_left {A B C : Type} (R : B -> C -> Prop) (f : A -> B) xs : forall ys,
  Forall2 R (map f xs) ys -> Forall2 (fun x y => R (f x) y) xs ys.
Proof.
  induction xs as [|x r IH]; intros ys H; inversion H; subst; constructor; auto.
Qed.

Lemma Forall2_weaken {A B : Type} (R R' : A -> B -> Prop) xs ys :
  (forall x y, R x y -> R' x y) -> Forall2 R xs ys -> Forall2 R' xs ys.
Proof. intros W. induction 1; constructor; auto. Qed.

Lemma source_present name df p :
  feature_engineering L df = Ok p ->
  In name (columns p) -> ~ In name (derived_names ++ ["count"]) ->
  In name (columns df).
Proof.
  intros H Hin Nd. apply deriver_frame in H.
  destruct H as (_ & _ & extra & E & I).
  rewrite E in Hin. apply in_app_or in Hin. destruct Hin as [K|K]; auto.
  exfalso. apply Nd, I, K.
Qed.

(** A source column of the processed table, as the deriver received it. *)
Lemma numeric_source raw p name :
  NoDup (map rename_column (columns raw)) ->
  process L raw = Ok p ->
  In name numeric_candidates -> datelike name = false ->
  ~ In name (derived_names ++ ["count"]) ->
  In name (columns p) ->
  exists xs,
    get name (loaded (prepared L raw)) = Some (Plain (CFloat xs))
    /\ get name p = Some (Plain (CFloat xs))
    /\ Forall (fun x => x <> None) xs.
Proof.
  intros N H Hc Hd Nd Hin. rewrite process_unfold in H.
  pose proof (source_present _ _ _ H Hin Nd) as Hs.
  rewrite columns_loaded in Hs. apply in_columns_get in Hs.
  destruct Hs as [c G].
  destruct (prepared_numeric L raw name c N Hc G) as (xs & -> & F).
  assert (G' : get name (loaded (prepared L raw)) = Some (Plain (CFloat xs))).
  { rewrite get_loaded, G. reflexivity. }
  exists xs. split; [exact G'|]. split; [|exact F].
  apply deriver_frame in H. destruct H as (Keep & _ & _).
  apply Keep; auto.
  - intros K. apply Nd, in_or_app. now left.
  - intros K. apply first_datelike_is_datelike in K. destruct K. congruence.
Qed.

Lemma usage_category_labelled us :
  Forall2 (labelled usage_labels) us (map usage_category_of us).
Proof.
  apply Forall2_map_in. intros [v|] _; cbn [labelled]; [|reflexivity].
  rewrite usage_category_of_rule. cbn [option_map]. eexists. split; [reflexivity|].
  unfold usage_rule, usage_labels.
  destruct (Qle_bool v 2.99); [cbn; tauto|].
  destruct (Qle_bool v 5.0); cbn; tauto.
Qed.

Lemma age_bucket_in_range v :
  (0 < v)%Q -> (v <= 120)%Q ->
  exists l, age_bucket_of (Some v) = Some l /\ In l age_labels.
Proof.
  intros Lo Hi. unfold age_bucket_of, age_bins.
  apply (label_of_between (Edge 0) [Edge 24; Edge 34; Edge 44; Edge 54] (Edge 120)).
  - reflexivity.
  - left. cbn [edge_ltb]. apply negb_true_iff.
    destruct (Qle_bool v 0) eqn:K; auto. apply Qle_bool_iff in K. lra.
  - cbn [edge_ltb]. apply negb_false_iff. now apply Qle_bool_iff.
Qed.

Lemma income_buckets_labelled xs ys :
  qcut 3 bucket_labels (zero_to_nan xs) = Ok ys
  \/ (exists e, qcut 3 bucket_labels (zero_to_nan xs) = Raise e)
     /\ cut_bins income_bins bucket_labels xs = Ok ys ->
  Forall (within bucket_labels) ys
  /\ Forall2 (fun x y => forall v, x = Some v -> ~ (v == 0)%Q ->
                         exists l, y = Some l /\ In l bucket_labels) xs ys.
Proof.
  intros [Q|[_ C]].
  - split; [eapply qcut_within; eauto|].
    apply qcut_labelled in Q. unfold zero_to_nan in Q.
    apply Forall2_map_left in Q. eapply Forall2_weaken; [|exact Q].
    intros x y K v -> Nz. cbn beta in K.
    destruct (Qeq_bool v 0) eqn:Z; [apply Qeq_bool_iff in Z; contradiction|].
    exact K.
  - split.
    + unfold cut_bins in C. destruct (negb (increasing income_bins)); [discriminate|].
      eapply bins_to_cuts_within; eauto.
    + apply (open_bins_labelled [Edge 40000%Q; Edge 70000%Q]) in C.
      eapply Forall2_weaken; [|exact C]. intros x y K v -> _. exact K.
Qed.

Lemma miles_split_labelled ms c :
  miles_split (Plain (CFloat ms)) = Ok c ->
  exists ys, c = Categorical ys /\ Forall2 (labelled bucket_labels) ms ys.
Proof.
  unfold miles_split. cbn [num_values bind].
  destruct (3 <=? series_nunique (Plain (CFloat ms))).
  - destruct (qcut 3 bucket_labels ms) as [ys|] eqn:Q; cbn [bind]; [|discriminate].
    intros H. injection H as <-. exists ys. split; auto. now apply qcut_labelled.
  - destruct (cut_equal_width 3 bucket_labels ms) as [ys|] eqn:Q;
      cbn [bind]; [|discriminate].
    intros H. injection H as <-. exists ys. split; auto.
    now apply cut_equal_width_labelled.
Qed.

Ltac not_derived := cbn; intuition discriminate.
Ltac is_candidate := cbn; tauto.

(** The label sets of the processed table. *)
Lemma processed_labels raw p :
  NoDup (map rename_column (columns raw)) ->
  rectangular raw ->
  process L raw = Ok p ->
  (In "usage" (columns p) -> usage_labelled p)
  /\ (In "age" (columns p) -> age_labelled p)
  /\ (In "income" (columns p) -> income_labelled p)
  /\ (In "miles" (columns p) -> miles_labelled p).
Proof.
  intros N R H. pose proof H as H'. rewrite process_unfold in H'.
  split; [|split; [|split]]; intros Hin.
  - destruct (numeric_source raw p "usage" N H) as (us & G & Gp & F);
      [is_candidate|reflexivity|not_derived|exact Hin|].
    exists us, (map usage_category_of us). split; [exact Gp|].
    split; [eapply usage_category_value; eauto|].
    split; [exact F|apply usage_category_labelled].
  - destruct (numeric_source raw p "age" N H) as (ages & G & Gp & F);
      [is_candidate|reflexivity|not_derived|exact Hin|].
    exists ages, (map age_bucket_of ages). split; [exact Gp|].
    split; [eapply age_bucket_value; eauto|]. split.
    + apply Forall_map, Forall_forall. intros x _. apply label_of_within.
    + apply Forall2_map_in. intros a _ v -> Lo Hi. now apply age_bucket_in_range.
  - destruct (numeric_source raw p "income" N H) as (xs & G & Gp & F);
      [is_candidate|reflexivity|not_derived|exact Hin|].
    destruct (income_bucket_value L _ _ _ H' G) as (ys & Gy & Hy).
    exists xs, ys. split; [exact Gp|]. split; [exact Gy|].
    now apply income_buckets_labelled.
  - destruct (numeric_source raw p "miles" N H) as (ms & G & Gp & F);
      [is_candidate|reflexivity|not_derived|exact Hin|].
    assert (U : uniform (nrows (prepared L raw)) (loaded (prepared L raw))).
    { apply loaded_uniform. now apply rectangular_prepared. }
    destruct (miles_category_value L _ _ _ _ U H' G) as (c & Gc & Hc).
    assert (Len : length ms = nrows (prepared L raw)).
    { apply (uniform_get _ _ _ _ U G). }
    exists ms. split; [exact Gp|]. split; [exact F|].
    destruct Hc as [M|[_ ->]].
    + right. apply miles_split_labelled in M. destruct M as (ys & -> & Hy).
      exists ys. auto.
    + left. now rewrite Len.
Qed.

End Processed.

(* ================================================================== *)
(** * End to end: the survey table *)

Section Survey.
Variable L : library.

Lemma set_absent {C : Type} name (c : C) df :
  get name df = None -> set name c df = df ++ [(name, c)].
Proof.
  induction df as [|[k c0] r IH]; cbn; auto.
  destruct (String.eqb name k); [discriminate|]. intros H. now rewrite IH.
Qed.

Lemma product_step_text df xs :
  get "product" df = Some (Plain (CObject xs)) ->
  product_step df
  = Ok (set "product_label"
            (Plain (CObject (map (option_map (fun x => Text.remove_spaces (Text.upper x))) xs)))
            df).
Proof. intros G. unfold product_step, when_present. now rewrite G. Qed.

Lemma gender_step_text df gs :
  get "gender" df = Some (Plain (CObject (map Some gs))) ->
  gender_step df
  = Ok (set "gender_label"
            (Plain (CObject (map (fun g => Some (gender_label_of g)) gs))) df).
Proof.
  intros G. unfold gender_step, when_present. rewrite G.
  cbn [str_values bind]. now rewrite map_gender_present.
Qed.

Lemma income_step_numeric df xs :
  get "income" df = Some (Plain (CFloat xs)) ->
  exists ys, income_step df = Ok (set "income_bucket" (Categorical ys) df).
Proof.
  intros G. unfold income_step, when_present. rewrite G. cbn [num_values bind].
  destruct (qcut 3 bucket_labels (zero_to_nan xs)) as [ys|e];
    cbn [try_except bind]; eauto.
  eexists. reflexivity.
Qed.

Lemma miles_step_returns df s :
  get "miles" df = Some s ->
  exists c, miles_step df = Ok (set "miles_category" c df).
Proof.
  intros G. unfold miles_step, when_present. rewrite G.
  destruct (miles_split s); cbn [try_except bind]; eauto.
Qed.

Lemma education_step_absent df :
  get "education" df = None -> education_step L df = Ok df.
Proof. intros G. unfold education_step, when_present. now rewrite G. Qed.

Lemma datetime_step_none df :
  first_datelike df = None -> datetime_step L df = Ok df.
Proof.
  unfold first_datelike, datetime_step.
  destruct (filter datelike (columns df)); [reflexivity|discriminate].
Qed.

Lemma count_step_none df :
  get "registered" df = None -> get "casual" df = None -> count_step df = Ok df.
Proof.
  intros G1 G2. unfold count_step, has. now rewrite G1, G2.
Qed.

Lemma forallb_present {A : Type} (xs : list (option A)) :
  Forall (fun x => x <> None) xs -> forallb is_some xs = true.
Proof.
  induction 1 as [|[a|] r H _ IH]; cbn; auto.
Qed.

Lemma labelled_populated labels xs ys :
  Forall (fun x => x <> None) xs -> Forall2 (labelled labels) xs ys ->
  forallb is_some ys = true.
Proof.
  intros F H. induction H as [|x y xs ys Hxy _ IH]; cbn; auto.
  pose proof (Forall_inv F) as Hx. pose proof (Forall_inv_tail F) as Fr.
  destruct x as [v|]; [|congruence]. destruct Hxy as (l & -> & _). cbn. auto.
Qed.

Lemma two_in_list {A : Type} (a b : A) l : In a l -> In b l -> a <> b -> 2 <= length l.
Proof.
  destruct l as [|x [|y r]]; cbn; try tauto; try lia.
  intros [->|[]] [->|[]]. congruence.
Qed.

(** A frame with the twelve survey columns, two of them numeric, gets every
    chart but the education one. *)
Lemma charts_of_survey csv age income :
  columns csv = survey_columns ->
  get "age" csv = Some (CFloat age) -> get "income" csv = Some (CFloat income) ->
  generate_all L csv = charts_without_education.
Proof.
  intros Hc Ga Gi.
  assert (Two : 2 <= length (filter (fun nc => is_number (snd nc)) (loaded csv))).
  { apply (two_in_list ("age", Plain (CFloat age)) ("income", Plain (CFloat income))).
    - apply filter_In. split; auto. unfold loaded.
      apply (in_map (fun nc => (fst nc, Plain (snd nc))) csv ("age", CFloat age)).
      now apply get_in_frame.
    - apply filter_In. split; auto. unfold loaded.
      apply (in_map (fun nc => (fst nc, Plain (snd nc))) csv ("income", CFloat income)).
      now apply get_in_frame.
    - discriminate. }
  unfold survey_columns in Hc.
  do 12 (destruct csv as [|[? ?] csv]; [discriminate|]).
  destruct csv; [|discriminate]. cbn [columns map fst] in Hc.
  injection Hc as -> -> -> -> -> -> -> -> -> -> -> ->.
  unfold generate_all.
  assert (P : forall df, filter datelike (columns df) = [] ->
                         parse_first_datelike L df = df).
  { intros df E. unfold parse_first_datelike. now rewrite E. }
  rewrite P by reflexivity.
  unfold plot_correlation_heatmap. apply Nat.ltb_ge in Two. rewrite Two.
  reflexivity.
Qed.

End Survey.

Section EndToEnd.
Variable L : library.

Lemma survey_names :
  map rename_column ["Product"; "Age"; "Gender"; "Income"; "Miles"; "Usage"]
  = ["product"; "age"; "gender"; "income"; "miles"; "usage"].
Proof. reflexivity. Qed.

Lemma survey_names_distinct raw :
  survey_input raw -> NoDup (map rename_column (columns raw)).
Proof.
  intros (Hc & _). rewrite Hc, survey_names.
  repeat (constructor; [cbn; intuition discriminate|]). constructor.
Qed.

Lemma survey_rows raw : survey_input raw -> nrows (prepared L raw) = 179.
Proof.
  intros (_ & R & Hn & Hd). rewrite nrows_prepared.
  pose proof (nrows_drop_duplicates _ (rectangular_rename rename_column raw R)) as H.
  rewrite duplicated_rename, nrows_rename, Hd, Hn in H. lia.
Qed.

(** The survey table as the feature deriver receives it. *)
Lemma survey_prepared raw :
  survey_input raw ->
  exists ps ages gs incomes ms us,
    prepared L raw
    = [("product", CObject (map Some ps)); ("age", CFloat ages);
       ("gender", CObject (map Some gs)); ("income", CFloat incomes);
       ("miles", CFloat ms); ("usage", CFloat us)]
    /\ Forall (fun x => x <> None) ages /\ Forall (fun x => x <> None) incomes
    /\ Forall (fun x => x <> None) ms /\ Forall (fun x => x <> None) us.
Proof.
  intros S. pose proof (survey_names_distinct raw S) as N.
  pose proof (columns_prepared L raw N) as Hc.
  destruct S as (Hr & _). rewrite Hr, survey_names in Hc.
  pose proof (prepared_text L raw "product") as Tp.
  pose proof (prepared_text L raw "gender") as Tg.
  pose proof (prepared_numeric L raw "age") as Na.
  pose proof (prepared_numeric L raw "income") as Ni.
  pose proof (prepared_numeric L raw "miles") as Nm.
  pose proof (prepared_numeric L raw "usage") as Nu.
  destruct (prepared L raw) as [|[n1 c1] d]; [discriminate|].
  do 5 (destruct d as [|[? ?] d]; [discriminate|]).
  destruct d; [|discriminate]. cbn [columns map fst] in Hc.
  injection Hc as -> -> -> -> -> ->.
  destruct (Tp c1 N) as (ps & ->); [cbn; tauto|reflexivity|].
  destruct (Tg c0 N) as (gs & ->); [cbn; tauto|reflexivity|].
  destruct (Na c N) as (ages & -> & Fa); [cbn; tauto|reflexivity|].
  destruct (Ni c2 N) as (incomes & -> & Fi); [cbn; tauto|reflexivity|].
  destruct (Nm c3 N) as (ms & -> & Fm); [cbn; tauto|reflexivity|].
  destruct (Nu c4 N) as (us & -> & Fu); [cbn; tauto|reflexivity|].
  exists ps, ages, gs, incomes, ms, us. auto 6.
Qed.

(** The deriver returns on the survey table, with the six derived columns
    appended in order. *)
Lemma survey_derived ps ages gs incomes ms us :
  exists ys c,
    feature_engineering L
      (loaded [("product", CObject (map Some ps)); ("age", CFloat ages);
               ("gender", CObject (map Some gs)); ("income", CFloat incomes);
               ("miles", CFloat ms); ("usage", CFloat us)])
    = Ok [("product", Plain (CObject (map Some ps))); ("age", Plain (CFloat ages));
          ("gender", Plain (CObject (map Some gs)));
          ("income", Plain (CFloat incomes));
          ("miles", Plain (CFloat ms)); ("usage", Plain (CFloat us));
          ("product_label",
           Plain (CObject (map (option_map (fun x => Text.remove_spaces (Text.upper x)))
                               (map Some ps))));
          ("gender_label",
           Plain (CObject (map (fun g => Some (gender_label_of g)) gs)));
          ("income_bucket", Categorical ys);
          ("miles_category", c);
          ("usage_category", Categorical (map usage_category_of us));
          ("age_bucket", Categorical (map age_bucket_of ages))].
Proof.
  set (df0 := loaded _).
  set (df1 := df0 ++ [("product_label",
               Plain (CObject (map (option_map (fun x => Text.remove_spaces (Text.upper x)))
                                   (map Some ps))))]).
  set (df2 := df1 ++ [("gender_label",
               Plain (CObject (map (fun g => Some (gender_label_of g)) gs)))]).
  assert (E1 : product_step df0 = Ok df1).
  { rewrite (product_step_text df0 (map Some ps)) by reflexivity.
    now rewrite set_absent by reflexivity. }
  assert (E2 : gender_step df1 = Ok df2).
  { rewrite (gender_step_text df1 gs) by reflexivity.
    now rewrite set_absent by reflexivity. }
  destruct (income_step_numeric df2 incomes) as (ys & E3); [reflexivity|].
  rewrite set_absent in E3 by reflexivity.
  set (df3 := df2 ++ [("income_bucket", Categorical ys)]) in *.
  destruct (miles_step_returns df3 (Plain (CFloat ms))) as (c & E4); [reflexivity|].
  rewrite set_absent in E4 by reflexivity.
  set (df4 := df3 ++ [("miles_category", c)]) in *.
  pose proof (usage_step_numeric df4 us) as E5.
  rewrite set_absent in E5 by reflexivity.
  set (df5 := df4 ++ [("usage_category", Categorical (map usage_category_of us))]) in *.
  pose proof (age_step_numeric df5 ages) as E6.
  rewrite set_absent in E6 by reflexivity.
  set (df6 := df5 ++ [("age_bucket", Categorical (map age_bucket_of ages))]) in *.
  exists ys, c. unfold feature_engineering.
  rewrite E1. cbn [bind]. rewrite E2. cbn [bind]. rewrite E3. cbn [bind].
  rewrite E4. cbn [bind]. rewrite E5 by reflexivity. cbn [bind].
  rewrite E6 by reflexivity. cbn [bind].
  rewrite (education_step_absent L df6) by reflexivity. cbn [bind].
  rewrite (datetime_step_none L df6) by reflexivity. cbn [bind].
  rewrite (count_step_none df6) by reflexivity. reflexivity.
Qed.

End EndToEnd.

(* ================================================================== *)
(** * The claims *)

Section Claims.
Variable L : library.

(** C1.  The gender rule tests for the letter m first: every value whose
    lower case contains an m becomes male, and so does Female; M, m and
    Male become male, f becomes female, and X comes out in lower case. *)
Theorem gender_label_tests_m_first :
  (forall g, Text.contains "m"%char (Text.lower g) = true ->
             gender_label_of g = "male")
  /\ gender_label_of "Female" = "male"
  /\ feature_engineering L
       [("gender",
         Plain (CObject [Some "Male"; Some "M"; Some "m"; Some "Female";
                         Some "f"; Some "X"]))]
     = Ok [("gender",
            Plain (CObject [Some "Male"; Some "M"; Some "m"; Some "Female";
                            Some "f"; Some "X"]));
           ("gender_label",
            Plain (CObject [Some "male"; Some "male"; Some "male"; Some "male";
                            Some "female"; Some "x"]))].
Proof.
  split; [|split; reflexivity].
  intros g H. unfold gender_label_of, gender_map. now rewrite H.
Qed.

(** C2.  The age bins are open at their lowest edge: age 0 gets no bucket
    (and neither does an age above 120), while 24, 25 and 120 fall as the
    claim lists them. *)
Theorem age_bucket_zero_is_missing :
  age_bucket_of (Some 0%Q) = None
  /\ age_bucket_of (Some 121%Q) = None
  /\ feature_engineering L
       [("age", Plain (CFloat [Some 0%Q; Some 24%Q; Some 25%Q; Some 120%Q]))]
     = Ok [("age", Plain (CFloat [Some 0%Q; Some 24%Q; Some 25%Q; Some 120%Q]));
           ("age_bucket",
            Categorical [None; Some "<25"; Some "25-34"; Some "55+"])].
Proof. repeat split; reflexivity. Qed.

Lemma forallb_some_map {A B : Type} (f : A -> B) (xs : list A) :
  forallb is_some (map (fun x => Some (f x)) xs) = true.
Proof. induction xs; cbn; auto. Qed.

(** C3, as amended.  On the 180-row survey table with one repeated row the
    pipeline returns a table of 179 rows with the six derived columns;
    product_label, gender_label, miles_category and usage_category have no
    missing cell, age_bucket has a label where the age is above 0 and at
    most 120, income_bucket where the income is not 0; and the renderer
    saves seven of the eight files, all but the one that needs
    education_label. *)
Theorem survey_end_to_end raw :
  survey_input raw ->
  exists p,
    process L raw = Ok p
    /\ columns p = survey_columns
    /\ uniform 179 p
    /\ Forall (fully_populated p)
         ["product_label"; "gender_label"; "miles_category"; "usage_category"]
    /\ age_labelled p
    /\ income_labelled p
    /\ generate_all L (read_back L p) = charts_without_education
    /\ length (generate_all L (read_back L p)) = 7.
Proof.
  intros S.
  pose proof (survey_names_distinct raw S) as N.
  pose proof (survey_rows L raw S) as Rows.
  assert (R : rectangular raw) by apply S.
  destruct (survey_prepared L raw S)
    as (ps & ages & gs & incomes & ms & us & Prep & Fa & Fi & Fm & Fu).
  destruct (survey_derived L ps ages gs incomes ms us) as (ys & c & E).
  rewrite <- Prep in E. rewrite <- process_unfold in E.
  match type of E with _ = Ok ?q => set (p := q) in * end.
  assert (U : uniform 179 p).
  { rewrite <- Rows. rewrite process_unfold in E.
    eapply feature_engineering_uniform; [|exact E].
    now apply loaded_uniform, rectangular_prepared. }
  destruct (processed_labels L raw p N R E) as (Hu & Ha & Hi & Hm).
  assert (Charts : generate_all L (read_back L p) = charts_without_education).
  { apply (charts_of_survey L _ ages incomes); [reflexivity| |].
    - destruct ages as [|a r]; [|reflexivity].
      pose proof (uniform_get 179 p "age" (Plain (CFloat [])) U eq_refl) as K.
      discriminate.
    - destruct incomes as [|a r]; [|reflexivity].
      pose proof (uniform_get 179 p "income" (Plain (CFloat [])) U eq_refl) as K.
      discriminate. }
  exists p. split; [exact E|]. split; [reflexivity|]. split; [exact U|].
  split; [|split; [|split; [|split]]].
  - repeat constructor.
    + eexists. split; [reflexivity|]. cbn [populated].
      rewrite map_map. cbn [option_map]. apply forallb_some_map.
    + eexists. split; [reflexivity|]. cbn [populated]. apply forallb_some_map.
    + destruct Hm as (ms' & _ & Fm' & [G|(ys' & G & Hy)]); [cbn; tauto| |].
      * eexists. split; [exact G|]. cbn [constant_text populated].
        clear. induction (length ms'); cbn; auto.
      * eexists. split; [exact G|]. cbn [populated].
        eapply labelled_populated; eauto.
    + destruct Hu as (us' & ys' & _ & G & Fu' & Hy); [cbn; tauto|].
      eexists. split; [exact G|]. cbn [populated].
      eapply labelled_populated; eauto.
  - apply Ha. cbn. tauto.
  - apply Hi. cbn. tauto.
  - exact Charts.
  - now rewrite Charts.
Qed.

(** C4, as amended.  In a processed table, usage_category has one of its
    three labels on every row; miles_category has one of low, medium, high
    on every row or the text unknown on every row; income_bucket is one of
    its three labels or missing, and is a label where the income is not 0;
    age_bucket is one of its five labels or missing, and is a label where
    the age is above 0 and at most 120. *)
Theorem derived_labels_closed raw p :
  NoDup (map rename_column (columns raw)) ->
  rectangular raw ->
  process L raw = Ok p ->
  (In "usage" (columns p) -> usage_labelled p)
  /\ (In "age" (columns p) -> age_labelled p)
  /\ (In "income" (columns p) -> income_labelled p)
  /\ (In "miles" (columns p) -> miles_labelled p).
Proof. intros N R H. exact (processed_labels L raw p N R H). Qed.

(** C6.  On a numeric usage column the usage step returns, and the deriver,
    when it returns, labels each usage by the fixed thresholds: casual up to
    2.99, regular above 2.99 and up to 5.0, heavy above 5.0; a missing usage
    stays unlabelled.  The four boundary values fall as the claim lists
    them. *)
Theorem usage_category_thresholds df xs :
  NoDup (columns df) ->
  get "usage" df = Some (Plain (CFloat xs)) ->
  usage_step df
  = Ok (set "usage_category" (Categorical (map (option_map usage_rule) xs)) df)
  /\ (forall df', feature_engineering L df = Ok df' ->
                  get "usage_category" df'
                  = Some (Categorical (map (option_map usage_rule) xs)))
  /\ usage_category_of (Some 2.99%Q) = Some "casual"
  /\ usage_category_of (Some 3.0%Q) = Some "regular"
  /\ usage_category_of (Some 5.0%Q) = Some "regular"
  /\ usage_category_of (Some 5.01%Q) = Some "heavy".
Proof.
  intros _ G.
  assert (E : map usage_category_of xs = map (option_map usage_rule) xs).
  { apply map_ext, usage_category_of_rule. }
  split; [|split; [|repeat split; reflexivity]].
  - now rewrite (usage_step_numeric _ _ G), E.
  - intros df' H. rewrite <- E. eapply usage_category_value; eauto.
Qed.


(** C10, as amended.  When the feature deriver returns, every column of its
    input is unchanged unless it is the first date-like column, which then
    holds its values parsed as timestamps, or bears one of the names the
    deriver assigns ([derived_names]); the columns of the input keep their
    places and new ones are appended. *)
Theorem feature_engineering_frame df df' :
  NoDup (columns df) ->
  feature_engineering L df = Ok df' ->
  (forall n c, get n df = Some c -> ~ In n derived_names ->
               first_datelike df <> Some n -> get n df' = Some c)
  /\ (forall dtc s, first_datelike df = Some dtc -> get dtc df = Some s ->
                    get dtc df' = Some (Datetime (to_datetime L s)))
  /\ extends_with (derived_names ++ ["count"]) df df'.
Proof. intros _ H. now apply deriver_frame. Qed.

Lemma every_char_smap p f s :
  (forall c, p (f c) = true) -> every_char p (Text.smap f s) = true.
Proof. intros H. induction s as [|c r IH]; cbn; auto. now rewrite H, IH. Qed.



(** X2.  The feature deriver returns as many rows in every column as the
    table it was given has. *)
Theorem deriver_keeps_row_count df p :
  rectangular df ->
  feature_engineering L (loaded df) = Ok p ->
  uniform (nrows df) p.
Proof.
  intros R H. eapply feature_engineering_uniform; [|exact H].
  now apply loaded_uniform.
Qed.

(** X3.  After duplicate removal no row repeats an earlier one; the rows
    that go are the marked ones; and the rows that stay are the unmarked
    rows in their order. *)
Theorem drop_duplicates_leaves_none df :
  rectangular df ->
  Forall (eq false) (duplicated (drop_duplicates df))
  /\ nrows (drop_duplicates df) + count_occ Bool.bool_dec (duplicated df) true
     = nrows df
  /\ rows (drop_duplicates df) = drop_marked (duplicated df) (rows df).
Proof.
  intros R. split; [apply duplicated_after_drop|].
  split; [now apply nrows_drop_duplicates|apply rows_drop_duplicates].
Qed.

End Claims.

(* ================================================================== *)
(** * The columns of the derived table, and when the pipeline returns *)

Section Appended.
Variable L : library.
Implicit Types (df : frame series).

Lemma mentions_In names n : mentions names n = true <-> In n names.
Proof.
  unfold mentions. rewrite existsb_exists. split.
  - intros (x & Hx & E). apply String.eqb_eq in E. now subst.
  - intros H. exists n. split; auto. apply String.eqb_refl.
Qed.

Lemma mentions_app a b n : mentions (a ++ b) n = mentions a n || mentions b n.
Proof. apply existsb_app. Qed.

Lemma has_mentions {C : Type} (df : frame C) n : has n df = mentions (columns df) n.
Proof.
  unfold has. induction df as [|[k c] r IH]; cbn; auto.
  destruct (String.eqb n k); auto.
Qed.

Lemma columns_set {C : Type} n (c : C) (df : frame C) :
  columns (set n c df) = columns df ++ (if mentions (columns df) n then [] else [n]).
Proof.
  unfold columns, mentions.
  induction df as [|[k c0] r IH]; cbn; auto.
  destruct (String.eqb n k) eqn:E; cbn.
  - now rewrite app_nil_r.
  - now rewrite IH.
Qed.

Lemma appends_for_labels names ps :
  filter (fun n => negb (mentions names n))
         (map snd (filter (fun sl => mentions names (fst sl)) ps))
  = flat_map (appends_for names) ps.
Proof.
  induction ps as [|[s l] r IH]; cbn; auto. unfold appends_for at 1. cbn [fst snd].
  destruct (mentions names s); cbn; auto.
  destruct (mentions names l); cbn; now rewrite IH.
Qed.

Lemma mentions_appends_other names ps n :
  ~ In n (map snd ps) -> mentions (flat_map (appends_for names) ps) n = false.
Proof.
  intros H. destruct (mentions _ n) eqn:E; auto. exfalso. apply H.
  apply mentions_In, in_flat_map in E. destruct E as ([s l] & Hin & K).
  unfold appends_for in K. cbn [fst snd] in K.
  destruct (_ && _); [|destruct K]. destruct K as [<-|[]].
  change l with (snd (s, l)). now apply in_map.
Qed.

Ltac step_source :=
  unfold product_step, gender_step, income_step, miles_step, usage_step,
    age_step, education_step, when_present, bind, try_except;
  match goal with
  | |- context [get ?n ?df] => destruct (get n df) as [s|] eqn:G
  end;
  [|intros H; inversion H; subst; left; split; [assumption|reflexivity]];
  repeat match goal with
         | |- context [match ?x with _ => _ end] => destruct x
         end;
  intros H; inversion H; subst; right; do 2 eexists; split; [eassumption|reflexivity].

Lemma product_step_source df df' :
  product_step df = Ok df' -> labels_from "product" "product_label" df df'.
Proof. step_source. Qed.

Lemma gender_step_source df df' :
  gender_step df = Ok df' -> labels_from "gender" "gender_label" df df'.
Proof. step_source. Qed.

Lemma income_step_source df df' :
  income_step df = Ok df' -> labels_from "income" "income_bucket" df df'.
Proof. step_source. Qed.

Lemma miles_step_source df df' :
  miles_step df = Ok df' -> labels_from "miles" "miles_category" df df'.
Proof. step_source. Qed.

Lemma usage_step_source df df' :
  usage_step df = Ok df' -> labels_from "usage" "usage_category" df df'.
Proof. step_source. Qed.

Lemma age_step_source df df' :
  age_step df = Ok df' -> labels_from "age" "age_bucket" df df'.
Proof. step_source. Qed.

Lemma education_step_source df df' :
  education_step L df = Ok df' -> labels_from "education" "education_label" df df'.
Proof. step_source. Qed.

Lemma appends_for_pair names s l :
  appends_for names (s, l)
  = if mentions names s && negb (mentions names l) then [l] else [].
Proof. reflexivity. Qed.

Lemma labels_from_columns src label df df' :
  labels_from src label df df' ->
  columns df' = columns df ++ appends_for (columns df) (src, label).
Proof.
  intros [[G ->]|(s & c & G & ->)]; unfold appends_for; cbn [fst snd].
  - rewrite <- has_mentions. unfold has. rewrite G. cbn. now rewrite app_nil_r.
  - rewrite columns_set, <- (has_mentions df src). unfold has at 1. rewrite G.
    cbn [andb]. destruct (mentions (columns df) label); reflexivity.
Qed.

Lemma label_stage names ps src label df df' :
  columns df = names ++ flat_map (appends_for names) ps ->
  ~ In src (map snd ps) -> ~ In label (map snd ps) ->
  labels_from src label df df' ->
  columns df' = names ++ flat_map (appends_for names) (ps ++ [(src, label)]).
Proof.
  intros C Hs Hl H. apply labels_from_columns in H. rewrite H, C.
  rewrite flat_map_app, <- !app_assoc. cbn [flat_map]. rewrite app_nil_r.
  do 2 f_equal. rewrite !appends_for_pair.
  now rewrite !mentions_app, !mentions_appends_other, !orb_false_r by assumption.
Qed.

(** The columns after the seven label steps. *)
Lemma label_steps_columns df d1 d2 d3 d4 d5 d6 d7 :
  product_step df = Ok d1 -> gender_step d1 = Ok d2 ->
  income_step d2 = Ok d3 -> miles_step d3 = Ok d4 ->
  usage_step d4 = Ok d5 -> age_step d5 = Ok d6 ->
  education_step L d6 = Ok d7 ->
  columns d7 = columns df ++ flat_map (appends_for (columns df)) label_sources.
Proof.
  intros H1 H2 H3 H4 H5 H6 H7.
  apply product_step_source in H1. apply gender_step_source in H2.
  apply income_step_source in H3. apply miles_step_source in H4.
  apply usage_step_source in H5. apply age_step_source in H6.
  apply education_step_source in H7.
  assert (C0 : columns df = columns df ++ flat_map (appends_for (columns df)) []).
  { cbn. now rewrite app_nil_r. }
  eapply (label_stage _ _ _ _ _ _ C0) in H1; [cbn [app] in H1|tauto..].
  eapply (label_stage _ _ _ _ _ _ H1) in H2;
    [cbn [app] in H2|cbn; intuition discriminate..].
  eapply (label_stage _ _ _ _ _ _ H2) in H3;
    [cbn [app] in H3|cbn; intuition discriminate..].
  eapply (label_stage _ _ _ _ _ _ H3) in H4;
    [cbn [app] in H4|cbn; intuition discriminate..].
  eapply (label_stage _ _ _ _ _ _ H4) in H5;
    [cbn [app] in H5|cbn; intuition discriminate..].
  eapply (label_stage _ _ _ _ _ _ H5) in H6;
    [cbn [app] in H6|cbn; intuition discriminate..].
  eapply (label_stage _ _ _ _ _ _ H6) in H7;
    [exact H7|cbn; intuition discriminate..].
Qed.

Lemma mentions_after_labels names n :
  ~ In n (map snd label_sources) ->
  mentions (names ++ flat_map (appends_for names) label_sources) n = mentions names n.
Proof.
  intros H. now rewrite mentions_app, mentions_appends_other, orb_false_r.
Qed.

Lemma filter_datelike_after_labels names :
  filter datelike (names ++ flat_map (appends_for names) label_sources)
  = filter datelike names.
Proof.
  rewrite filter_app.
  assert (E : filter datelike (flat_map (appends_for names) label_sources) = []).
  { cbn [flat_map label_sources]. unfold appends_for. cbn [fst snd].
    repeat match goal with
           | |- context [if ?b then _ else _] => destruct b
           end; reflexivity. }
  now rewrite E, app_nil_r.
Qed.

(** What the date handling appends. *)
Lemma datetime_step_columns df df' :
  datetime_step L df = Ok df' ->
  columns df'
  = columns df
    ++ filter (fun n => negb (mentions (columns df) n))
         match filter datelike (columns df) with
         | [] => []
         | _ :: _ => ["date"; "hour"; "day_of_week"]
         end.
Proof.
  intros H. apply datetime_step_shape in H.
  destruct H as [[F ->]|(dtc & s & F & G & _ & _ & ->)]; unfold first_datelike in F.
  - destruct (filter datelike (columns df)); [|discriminate].
    cbn. now rewrite app_nil_r.
  - destruct (filter datelike (columns df)) as [|d r]; [discriminate|].
    cbn zeta. rewrite !columns_set.
    assert (M : mentions (columns df) dtc = true).
    { apply mentions_In. eapply get_in_columns; eauto. }
    rewrite M, app_nil_r. rewrite !mentions_app. cbn [filter].
    destruct (mentions (columns df) "date"), (mentions (columns df) "hour"),
      (mentions (columns df) "day_of_week"); cbn; now rewrite <- ?app_assoc, ?app_nil_r.
Qed.

(** What the count step appends. *)
Lemma count_step_columns df df' :
  count_step df = Ok df' ->
  columns df'
  = columns df
    ++ (if mentions (columns df) "registered" && mentions (columns df) "casual"
           && negb (mentions (columns df) "count")
        then ["count"] else []).
Proof.
  unfold count_step. rewrite <- !has_mentions. unfold has.
  destruct (get "registered" df) as [reg|], (get "casual" df) as [cas|],
    (get "count" df) as [cnt|] eqn:G; cbn [orb andb negb];
    try (intros H; inversion H; now rewrite app_nil_r).
  destruct (series_add reg cas); cbn [bind]; intros H; inversion H.
  rewrite columns_set, <- has_mentions. unfold has. now rewrite G.
Qed.

Lemma mentions_absent names n : ~ In n names -> mentions names n = false.
Proof.
  intros H. destruct (mentions names n) eqn:E; auto.
  apply mentions_In in E. contradiction.
Qed.

Lemma date_names_absent (g : string -> bool) names n :
  ~ In n ["date"; "hour"; "day_of_week"] ->
  mentions (filter g match filter datelike names with
                     | [] => []
                     | _ :: _ => ["date"; "hour"; "day_of_week"]
                     end) n = false.
Proof.
  intros H. apply mentions_absent. intros K. apply filter_In in K.
  destruct K as [K _]. destruct (filter datelike names); [destruct K|]. auto.
Qed.

(** The columns of the derived table: those of the input in their order,
    then the columns the deriver assigns that the input does not have. *)
Lemma derived_columns df df' :
  feature_engineering L df = Ok df' ->
  columns df' = columns df ++ appended_columns (columns df).
Proof.
  intros H. apply feature_engineering_stages in H.
  destruct H as (d1 & d2 & d3 & d4 & d5 & d6 & d7 & d8
                 & H1 & H2 & H3 & H4 & H5 & H6 & H7 & H8 & H9).
  pose proof (label_steps_columns _ _ _ _ _ _ _ _ H1 H2 H3 H4 H5 H6 H7) as C7.
  pose proof (datetime_step_columns _ _ H8) as C8.
  pose proof (count_step_columns _ _ H9) as C9.
  set (names := columns df) in *.
  unfold appended_columns, assigned_columns.
  rewrite !filter_app, appends_for_labels.
  rewrite C9, C8. rewrite !mentions_app.
  rewrite !date_names_absent by (cbn; intuition discriminate).
  rewrite C7, filter_datelike_after_labels.
  rewrite !mentions_after_labels by (cbn; intuition discriminate).
  rewrite !orb_false_r, <- !app_assoc. do 2 f_equal.
  f_equal.
  - apply filter_ext_in. intros n Hn. f_equal.
    apply mentions_after_labels.
    destruct (filter datelike names); [destruct Hn|].
    repeat (destruct Hn as [<-|Hn]; [cbn; intuition discriminate|]). destruct Hn.
  - destruct (mentions names "registered"), (mentions names "casual"),
      (mentions names "count") eqn:E; cbn [andb negb filter]; auto.
    now rewrite E.
Qed.

End Appended.

Section Totality.
Variable L : library.
Implicit Types (df : frame series).

Lemma ready_keep t df df' :
  assigns_only t df df' -> In t label_names -> ready df -> ready df'.
Proof.
  intros A Ht (Rp & Rg & Rn).
  assert (K : forall n, ~ In n label_names -> get n df' = get n df).
  { intros n Hn. apply (keep_through _ _ _ _ A). intros ->. contradiction. }
  split; [|split].
  - intros s. rewrite K by (cbn; intuition discriminate). apply Rp.
  - intros s. rewrite K by (cbn; intuition discriminate). apply Rg.
  - intros n s Hn. rewrite K.
    + now apply Rn.
    + repeat (destruct Hn as [<-|Hn]; [cbn; intuition discriminate|]). destruct Hn.
Qed.

Lemma product_step_ready df :
  ready df -> exists d, product_step df = Ok d.
Proof.
  intros (Rp & _). unfold product_step, when_present.
  destruct (get "product" df) as [s|]; [|eauto].
  destruct (Rp s eq_refl) as (xs & ->). cbn. eauto.
Qed.

Lemma gender_step_ready df :
  ready df -> exists d, gender_step df = Ok d.
Proof.
  intros (_ & Rg & _).
  destruct (get "gender" df) as [s|] eqn:G.
  - destruct (Rg s eq_refl) as (gs & ->). rewrite (gender_step_text _ _ G). eauto.
  - unfold gender_step, when_present. rewrite G. eauto.
Qed.

Lemma income_step_ready df :
  ready df -> exists d, income_step df = Ok d.
Proof.
  intros (_ & _ & Rn).
  destruct (get "income" df) as [s|] eqn:G.
  - destruct (Rn "income" s) as (xs & ->); [cbn; tauto|exact G|].
    destruct (income_step_numeric _ _ G) as (ys & E). eauto.
  - unfold income_step, when_present. rewrite G. eauto.
Qed.

Lemma miles_step_total df : exists d, miles_step df = Ok d.
Proof.
  destruct (get "miles" df) as [s|] eqn:G.
  - destruct (miles_step_returns _ _ G) as (c & E). eauto.
  - unfold miles_step, when_present. rewrite G. eauto.
Qed.

Lemma usage_step_ready df :
  ready df -> exists d, usage_step df = Ok d.
Proof.
  intros (_ & _ & Rn).
  destruct (get "usage" df) as [s|] eqn:G.
  - destruct (Rn "usage" s) as (xs & ->); [cbn; tauto|exact G|].
    rewrite (usage_step_numeric _ _ G). eauto.
  - unfold usage_step, when_present. rewrite G. eauto.
Qed.

Lemma age_step_ready df :
  ready df -> exists d, age_step df = Ok d.
Proof.
  intros (_ & _ & Rn).
  destruct (get "age" df) as [s|] eqn:G.
  - destruct (Rn "age" s) as (xs & ->); [cbn; tauto|exact G|].
    rewrite (age_step_numeric _ _ G). eauto.
  - unfold age_step, when_present. rewrite G. eauto.
Qed.

Lemma education_step_total df : exists d, education_step L df = Ok d.
Proof.
  unfold education_step, when_present. destruct (get "education" df); eauto.
Qed.

(** On source columns of the right kinds the seven label steps return. *)
Lemma label_steps_return df :
  ready df ->
  exists d1 d2 d3 d4 d5 d6 d7,
    product_step df = Ok d1 /\ gender_step d1 = Ok d2 /\
    income_step d2 = Ok d3 /\ miles_step d3 = Ok d4 /\
    usage_step d4 = Ok d5 /\ age_step d5 = Ok d6 /\
    education_step L d6 = Ok d7.
Proof.
  intros R0.
  destruct (product_step_ready df R0) as (d1 & H1).
  assert (R1 : ready d1).
  { eapply ready_keep; [eapply product_step_shape; eauto|cbn; tauto|auto]. }
  destruct (gender_step_ready d1 R1) as (d2 & H2).
  assert (R2 : ready d2).
  { eapply ready_keep; [eapply gender_step_shape; eauto|cbn; tauto|auto]. }
  destruct (income_step_ready d2 R2) as (d3 & H3).
  assert (R3 : ready d3).
  { eapply ready_keep; [eapply income_step_shape; eauto|cbn; tauto|auto]. }
  destruct (miles_step_total d3) as (d4 & H4).
  assert (R4 : ready d4).
  { eapply ready_keep; [eapply miles_step_shape; eauto|cbn; tauto|auto]. }
  destruct (usage_step_ready d4 R4) as (d5 & H5).
  assert (R5 : ready d5).
  { eapply ready_keep; [eapply usage_step_shape; eauto|cbn; tauto|auto]. }
  destruct (age_step_ready d5 R5) as (d6 & H6).
  destruct (education_step_total d6) as (d7 & H7).
  exists d1, d2, d3, d4, d5, d6, d7. auto 10.
Qed.

Lemma feature_engineering_tail df d1 d2 d3 d4 d5 d6 d7 :
  product_step df = Ok d1 -> gender_step d1 = Ok d2 ->
  income_step d2 = Ok d3 -> miles_step d3 = Ok d4 ->
  usage_step d4 = Ok d5 -> age_step d5 = Ok d6 ->
  education_step L d6 = Ok d7 ->
  feature_engineering L df = (d8 <- datetime_step L d7 ;; count_step d8).
Proof.
  intros H1 H2 H3 H4 H5 H6 H7. unfold feature_engineering.
  rewrite H1. cbn [bind]. rewrite H2. cbn [bind]. rewrite H3. cbn [bind].
  rewrite H4. cbn [bind]. rewrite H5. cbn [bind]. rewrite H6. cbn [bind].
  rewrite H7. reflexivity.
Qed.


Lemma datetime_step_returns df dtc :
  first_datelike df = Some dtc -> dtc <> "date" ->
  exists df', datetime_step L df = Ok df'.
Proof.
  intros F Nd. pose proof (first_datelike_is_datelike _ _ F) as [Dl Hin].
  apply in_columns_get in Hin. destruct Hin as [s G].
  assert (Nh : dtc <> "hour") by (intros ->; discriminate).
  unfold first_datelike in F. unfold datetime_step.
  destruct (filter datelike (columns df)) as [|d r]; [discriminate|].
  cbn in F. injection F as ->.
  unfold get_or_raise at 1. rewrite G. cbn [bind].
  unfold get_or_raise at 1. rewrite get_set_same. cbn [bind dt_values].
  unfold get_or_raise at 1.
  rewrite get_set_other, get_set_same by assumption. cbn [bind dt_values].
  unfold get_or_raise at 1.
  rewrite !get_set_other, get_set_same by assumption. cbn [bind dt_values].
  eauto.
Qed.

(** The count step leaves the table alone unless registered and casual are
    there and count is not. *)
Lemma count_step_skips df :
  ~ (In "registered" (columns df) /\ In "casual" (columns df)
     /\ ~ In "count" (columns df)) ->
  count_step df = Ok df.
Proof.
  intros K. unfold count_step.
  destruct ((has "registered" df || has "casual" df) && negb (has "count" df)) eqn:E;
    [|reflexivity].
  apply andb_true_iff in E. destruct E as [_ E].
  apply negb_true_iff, has_false in E.
  destruct (get "registered" df) as [reg|] eqn:G1; [|reflexivity].
  destruct (get "casual" df) as [cas|] eqn:G2; [|reflexivity].
  exfalso. apply K. split; [|split].
  - eapply get_in_columns; eauto.
  - eapply get_in_columns; eauto.
  - now apply get_none_columns.
Qed.

Lemma prepared_ready raw :
  NoDup (clean_names raw) -> ready (loaded (prepared L raw)).
Proof.
  intros N. split; [|split].
  - intros s. rewrite get_loaded.
    destruct (get "product" (prepared L raw)) as [c|] eqn:G; [|discriminate].
    intros H. injection H as <-.
    destruct (prepared_text L raw "product" c N) as (ss & ->); [cbn; tauto|exact G|].
    eauto.
  - intros s. rewrite get_loaded.
    destruct (get "gender" (prepared L raw)) as [c|] eqn:G; [|discriminate].
    intros H. injection H as <-.
    destruct (prepared_text L raw "gender" c N) as (ss & ->); [cbn; tauto|exact G|].
    eauto.
  - intros n s Hn. rewrite get_loaded.
    destruct (get n (prepared L raw)) as [c|] eqn:G; [|discriminate].
    intros H. injection H as <-.
    destruct (prepared_numeric L raw n c N) as (xs & -> & _); [|exact G|eauto].
    repeat (destruct Hn as [<-|Hn]; [cbn; tauto|]). destruct Hn.
Qed.

End Totality.

Section Returns.
Variable L : library.
Implicit Types (df : frame series).

Lemma columns_before_count df d1 d2 d3 d4 d5 d6 d7 d8 n :
  product_step df = Ok d1 -> gender_step d1 = Ok d2 ->
  income_step d2 = Ok d3 -> miles_step d3 = Ok d4 ->
  usage_step d4 = Ok d5 -> age_step d5 = Ok d6 ->
  education_step L d6 = Ok d7 -> datetime_step L d7 = Ok d8 ->
  ~ In n derived_names ->
  (In n (columns d8) <-> In n (columns df)).
Proof.
  intros H1 H2 H3 H4 H5 H6 H7 H8 Hn.
  rewrite <- !mentions_In.
  rewrite (datetime_step_columns L _ _ H8).
  rewrite (label_steps_columns L _ _ _ _ _ _ _ _ H1 H2 H3 H4 H5 H6 H7).
  rewrite mentions_app, date_names_absent, orb_false_r.
  - rewrite mentions_after_labels; [tauto|].
    intros K. apply Hn. cbn in K. cbn. tauto.
  - intros K. apply Hn. cbn in K. cbn. tauto.
Qed.

Lemma first_datelike_prepared raw df d1 d2 d3 d4 d5 d6 d7 :
  NoDup (clean_names raw) -> df = loaded (prepared L raw) ->
  product_step df = Ok d1 -> gender_step d1 = Ok d2 ->
  income_step d2 = Ok d3 -> miles_step d3 = Ok d4 ->
  usage_step d4 = Ok d5 -> age_step d5 = Ok d6 ->
  education_step L d6 = Ok d7 ->
  first_datelike d7 = hd_error (filter datelike (clean_names raw)).
Proof.
  intros N -> H1 H2 H3 H4 H5 H6 H7.
  assert (X : extends_with label_names (loaded (prepared L raw)) d7).
  { apply (label_steps_frame L). exists d1, d2, d3, d4, d5, d6. auto 10. }
  rewrite (first_datelike_extends _ _ X). unfold first_datelike.
  now rewrite columns_loaded, columns_prepared.
Qed.

(** X4.  The pipeline returns on every raw table whose first date-like column
    is not named date and that does not hold registered and casual without
    count; the table it returns has the cleaned columns, then the derived
    ones. *)
Theorem process_returns raw :
  NoDup (clean_names raw) ->
  hd_error (filter datelike (clean_names raw)) <> Some "date" ->
  ~ (In "registered" (clean_names raw) /\ In "casual" (clean_names raw)
     /\ ~ In "count" (clean_names raw)) ->
  exists p,
    process L raw = Ok p
    /\ columns p = clean_names raw ++ appended_columns (clean_names raw).
Proof.
  intros N Hd Hc. rewrite process_unfold.
  set (df := loaded (prepared L raw)).
  assert (Cdf : columns df = clean_names raw).
  { unfold df. now rewrite columns_loaded, columns_prepared. }
  destruct (label_steps_return L df (prepared_ready L raw N))
    as (d1 & d2 & d3 & d4 & d5 & d6 & d7 & H1 & H2 & H3 & H4 & H5 & H6 & H7).
  pose proof (first_datelike_prepared raw df _ _ _ _ _ _ _ N eq_refl
                H1 H2 H3 H4 H5 H6 H7) as F.
  assert (E8 : exists d8, datetime_step L d7 = Ok d8).
  { destruct (first_datelike d7) as [dtc|] eqn:Fd.
    - apply (datetime_step_returns L d7 dtc Fd). intros ->. now apply Hd.
    - exists d7. now apply datetime_step_none. }
  destruct E8 as (d8 & H8).
  assert (E9 : count_step d8 = Ok d8).
  { apply count_step_skips. intros (K1 & K2 & K3). apply Hc. rewrite <- Cdf.
    rewrite <- !(columns_before_count df d1 d2 d3 d4 d5 d6 d7 d8 _
                   H1 H2 H3 H4 H5 H6 H7 H8) by (cbn; intuition discriminate).
    auto. }
  assert (E : feature_engineering L df = Ok d8).
  { rewrite (feature_engineering_tail L df _ _ _ _ _ _ _ H1 H2 H3 H4 H5 H6 H7).
    rewrite H8. exact E9. }
  exists d8. split; [exact E|].
  rewrite (derived_columns L _ _ E). now rewrite Cdf.
Qed.


Lemma NoDup_map_filter {A B : Type} (h : A -> B) (f : A -> bool) l :
  NoDup (map h l) -> NoDup (map h (filter f l)).
Proof.
  induction l as [|a r IH]; cbn; auto. intros N.
  inversion N as [|? ? Ha Hr]; subst. destruct (f a); cbn; auto.
  constructor; auto. intros K. apply Ha.
  apply in_map_iff in K. destruct K as (x & E & Hx).
  apply filter_In in Hx. apply in_map_iff. exists x. tauto.
Qed.

Lemma assigned_columns_distinct names : NoDup (assigned_columns names).
Proof.
  unfold assigned_columns. apply NoDup_app; [|apply NoDup_app|].
  - apply NoDup_map_filter. cbn.
    repeat (constructor; [cbn; intuition discriminate|]). constructor.
  - destruct (filter datelike names); [constructor|].
    repeat (constructor; [cbn; intuition discriminate|]). constructor.
  - destruct (_ && _); repeat constructor. intros [].
  - intros a Ha Hc. destruct (filter datelike names); [destruct Ha|].
    destruct (_ && _); [|destruct Hc]. destruct Hc as [<-|[]].
    cbn in Ha. intuition discriminate.
  - intros a Ha Hb. apply in_map_iff in Ha. destruct Ha as ([s l] & <- & Hs).
    apply filter_In in Hs. destruct Hs as [Hs _]. cbn [snd] in Hb.
    assert (K : In l ["date"; "hour"; "day_of_week"; "count"]).
    { apply in_app_or in Hb. destruct Hb as [Hb|Hb].
      - destruct (filter datelike names); [destruct Hb|]. cbn in Hb. cbn. tauto.
      - destruct (_ && _); [|destruct Hb]. cbn in Hb. cbn. tauto. }
    cbn in Hs, K.
    repeat (destruct Hs as [Hs|Hs]; [injection Hs as <- <-; intuition discriminate|]).
    destruct Hs.
Qed.

(** X6.  The columns of the derived table are those of the input, in their
    order, followed by the columns the deriver assigns that the input does not
    have; distinct column names stay distinct. *)
Theorem deriver_columns df df' :
  feature_engineering L df = Ok df' ->
  columns df' = columns df ++ appended_columns (columns df)
  /\ (NoDup (columns df) -> NoDup (columns df')).
Proof.
  intros H. pose proof (derived_columns L _ _ H) as C. split; [exact C|].
  intros N. rewrite C. apply NoDup_app; auto.
  - unfold appended_columns. apply NoDup_filter, assigned_columns_distinct.
  - intros a Ha Hb. unfold appended_columns in Hb. apply filter_In in Hb.
    destruct Hb as [_ Hb]. apply negb_true_iff in Hb.
    apply mentions_In in Ha. congruence.
Qed.

End Returns.

(* ================================================================== *)
(** * The chart renderer *)

Section Charts.
Variable L : library.
Implicit Types (df : frame series).












End Charts.

(* ================================================================== *)
(** * Income, age and gender, value by value *)

Section Income.
Variable L : library.
Implicit Types (df : frame series).

Lemma income_bins_three_way x :
  label_of income_bins bucket_labels false x
  = option_map (three_way 40000 70000) x.
Proof.
  destruct x as [v|]; auto.
  unfold label_of, three_way, income_bins, bucket_labels.
  cbn [searchsorted_left edge_ltb andb length option_map].
  destruct (Qle_bool v 40000) eqn:E1; cbn [negb]; [reflexivity|].
  destruct (Qle_bool v 70000) eqn:E2; reflexivity.
Qed.

Lemma cut_income_bins xs :
  cut_bins income_bins bucket_labels xs
  = Ok (map (option_map (three_way 40000 70000)) xs).
Proof.
  unfold cut_bins, bins_to_cuts. cbn [increasing income_bins edge_leb negb andb].
  change (Qle_bool 40000 70000) with true. cbn.
  f_equal. apply map_ext, income_bins_three_way.
Qed.



End Income.

Section PerValue.
Variable L : library.
Implicit Types (df : frame series).

Lemma Qle_bool_true x y : Qle_bool x y = true <-> (x <= y)%Q.
Proof. apply Qle_bool_iff. Qed.

Lemma Qle_bool_gt x y : Qle_bool x y = false <-> (y < x)%Q.
Proof.
  split; [apply Qle_bool_false|].
  intros H. destruct (Qle_bool x y) eqn:E; auto.
  apply Qle_bool_iff in E. lra.
Qed.

(** X11.  The age buckets as ranges: an age gets the label of the right-closed
    range it falls in, and none when it is 0 or less or above 120. *)
Theorem age_bucket_ranges df xs v :
  (get "age" df = Some (Plain (CFloat xs)) ->
   age_step df = Ok (set "age_bucket" (Categorical (map age_bucket_of xs)) df))
  /\ (age_bucket_of (Some v) = None <-> (v <= 0 \/ 120 < v)%Q)
  /\ (age_bucket_of (Some v) = Some "<25" <-> (0 < v /\ v <= 24)%Q)
  /\ (age_bucket_of (Some v) = Some "25-34" <-> (24 < v /\ v <= 34)%Q)
  /\ (age_bucket_of (Some v) = Some "35-44" <-> (34 < v /\ v <= 44)%Q)
  /\ (age_bucket_of (Some v) = Some "45-54" <-> (44 < v /\ v <= 54)%Q)
  /\ (age_bucket_of (Some v) = Some "55+" <-> (54 < v /\ v <= 120)%Q).
Proof.
  split; [apply age_step_numeric|].
  unfold age_bucket_of, label_of, age_bins, age_labels.
  cbn [searchsorted_left edge_ltb andb length].
  destruct (Qle_bool v 0) eqn:E0; cbn [negb];
    [apply Qle_bool_true in E0|apply Qle_bool_gt in E0];
    [cbn; repeat split; intros; try discriminate; try lra; auto|].
  destruct (Qle_bool v 24) eqn:E1; cbn [negb];
    [apply Qle_bool_true in E1|apply Qle_bool_gt in E1];
    [cbn; repeat split; intros; try discriminate; try lra; auto|].
  destruct (Qle_bool v 34) eqn:E2; cbn [negb];
    [apply Qle_bool_true in E2|apply Qle_bool_gt in E2];
    [cbn; repeat split; intros; try discriminate; try lra; auto|].
  destruct (Qle_bool v 44) eqn:E3; cbn [negb];
    [apply Qle_bool_true in E3|apply Qle_bool_gt in E3];
    [cbn; repeat split; intros; try discriminate; try lra; auto|].
  destruct (Qle_bool v 54) eqn:E4; cbn [negb];
    [apply Qle_bool_true in E4|apply Qle_bool_gt in E4];
    [cbn; repeat split; intros; try discriminate; try lra; auto|].
  destruct (Qle_bool v 120) eqn:E5; cbn [negb];
    [apply Qle_bool_true in E5|apply Qle_bool_gt in E5];
    cbn; repeat split; intros; try discriminate; try lra; auto.
Qed.

Lemma contains_lower (c : ascii) s :
  Text.contains c (Text.lower s)
  = existsb (fun d => Ascii.eqb c (Text.lower_char d)) (list_ascii_of_string s).
Proof.
  induction s as [|d r IH]; cbn; auto. now rewrite <- IH.
Qed.

Lemma contains_either (lo up : ascii) s :
  (forall d, Ascii.eqb lo (Text.lower_char d) = Ascii.eqb lo d || Ascii.eqb up d) ->
  Text.contains lo (Text.lower s) = Text.contains lo s || Text.contains up s.
Proof.
  intros H. induction s as [|d r IH]; cbn; auto.
  fold (Text.lower r). rewrite IH, H.
  destruct (Ascii.eqb lo d), (Ascii.eqb up d), (Text.contains lo r),
    (Text.contains up r); reflexivity.
Qed.

Lemma contains_m s :
  Text.contains "m" (Text.lower s) = Text.contains "m" s || Text.contains "M" s.
Proof.
  apply contains_either. intros [[] [] [] [] [] [] [] []]; reflexivity.
Qed.

Lemma contains_f s :
  Text.contains "f" (Text.lower s) = Text.contains "f" s || Text.contains "F" s.
Proof.
  apply contains_either. intros [[] [] [] [] [] [] [] []]; reflexivity.
Qed.

(** X12.  The gender rule by cases: male for every value with an m or M in it,
    female for the values with an f or F and no m, and the value in lower case
    otherwise. *)
Theorem gender_label_cases g :
  (gender_label_of g = "male"
   <-> Text.contains "m" g = true \/ Text.contains "M" g = true)
  /\ (gender_label_of g = "female"
      <-> (Text.contains "m" g = false /\ Text.contains "M" g = false)
          /\ (Text.contains "f" g = true \/ Text.contains "F" g = true))
  /\ (Text.contains "m" g = false -> Text.contains "M" g = false ->
      Text.contains "f" g = false -> Text.contains "F" g = false ->
      gender_label_of g = Text.lower g).
Proof.
  unfold gender_label_of, gender_map. rewrite contains_m, contains_f.
  destruct (Text.contains "m" g) eqn:Em; cbn [orb].
  { split; [tauto|]. split; [|discriminate].
    split; [discriminate|]. intros [[K _] _]. discriminate. }
  destruct (Text.contains "M" g) eqn:EM; cbn [orb].
  { split; [tauto|]. split; [|discriminate].
    split; [discriminate|]. intros [[_ K] _]. discriminate. }
  assert (Nm : Text.contains "m" (Text.lower g) = false).
  { now rewrite contains_m, Em, EM. }
  assert (Nf : Text.contains "f" (Text.lower g)
               = Text.contains "f" g || Text.contains "F" g) by apply contains_f.
  destruct (Text.contains "f" g) eqn:Ef; cbn [orb] in *.
  { split; [|split; [tauto|discriminate]].
    split; [discriminate|]. intros [K|K]; discriminate. }
  destruct (Text.contains "F" g) eqn:EF; cbn [orb] in *.
  { split; [|split; [tauto|discriminate]].
    split; [discriminate|]. intros [K|K]; discriminate. }
  split; [|split; [|reflexivity]].
  - split; [|intros [K|K]; discriminate].
    intros K. rewrite K in Nm. discriminate.
  - split; [|intros [_ [K|K]]; discriminate].
    intros K. rewrite K in Nf. discriminate.
Qed.

Lemma map_gender_missing xs :
  In None xs -> map_gender (map (option_map Text.lower) xs) = Raise TypeError.
Proof.
  induction xs as [|[x|] r IH]; intros H; cbn [map option_map map_gender].
  - destruct H.
  - destruct H as [H|H]; [discriminate|]. now rewrite IH.
  - reflexivity.
Qed.

(** X13.  Called on a table whose gender column has a missing cell, the
    deriver raises: the lambda asks whether "m" is in a float. *)
Theorem gender_missing_raises df xs :
  get "gender" df = Some (Plain (CObject xs)) ->
  In None xs ->
  gender_step df = Raise TypeError
  /\ forall df', feature_engineering L df <> Ok df'.
Proof.
  intros G Hn.
  assert (R : forall d, get "gender" d = Some (Plain (CObject xs)) ->
                        gender_step d = Raise TypeError).
  { intros d Gd. unfold gender_step, when_present. rewrite Gd.
    cbn [str_values bind]. now rewrite map_gender_missing. }
  split; [now apply R|].
  intros df' H. apply feature_engineering_stages in H.
  destruct H as (d1 & d2 & d3 & d4 & d5 & d6 & d7 & d8 & H1 & H2 & _).
  apply product_step_shape in H1.
  rewrite R in H2; [discriminate|].
  rewrite (keep_through _ _ _ _ H1) by discriminate. exact G.
Qed.

End PerValue.

Section Missing.
Variable L : library.
Implicit Types (df : frame series).

Ltac stages H :=
  apply stages_shapes in H;
  destruct H as (d1 & d2 & d3 & d4 & d5 & d6 & d7 & d8
                 & (H1 & H2 & H3 & H4 & H5 & H6 & H7 & H8 & H9)
                 & (A1 & A2 & A3 & A4 & A5 & A6 & A7)).

Ltac keep A := rewrite (keep_through _ _ _ _ A) by discriminate.

Lemma education_label_value df df' s :
  feature_engineering L df = Ok df' ->
  get "education" df = Some s ->
  get "education_label" df'
  = Some (Plain (CObject (map (fun x => Some (education_synonym (Text.lower x)))
                              (series_astype_str L s)))).
Proof.
  intros H G. stages H.
  assert (G6 : get "education" d6 = Some s).
  { keep A6. keep A5. keep A4. keep A3. keep A2. keep A1. exact G. }
  unfold education_step, when_present in H7. rewrite G6 in H7.
  inversion H7; subst d7.
  eapply (tail_steps_keep L); eauto; [cbn; intuition discriminate|].
  apply get_set_same.
Qed.

Lemma get_cast_text (df : frame column) name c :
  NoDup (columns df) -> In name categorical_columns ->
  get name df = Some c ->
  get name (loaded (impute_and_cast L df))
  = Some (Plain (CObject (map (fun s => Some (Text.strip s)) (astype_str L c)))).
Proof.
  intros N Hin G. rewrite get_loaded, get_impute_and_cast by assumption.
  rewrite in_existsb by assumption.
  assert (E : existsb (String.eqb name) numeric_candidates = false).
  { repeat (destruct Hin as [<-|Hin]; [reflexivity|]). destruct Hin. }
  rewrite E, G. reflexivity.
Qed.

(** X14.  Through the imputer a missing product, gender or education cell
    becomes the text nan, and the deriver labels it NAN, nan and nan; the
    cells that are there are trimmed before they are labelled. *)
Theorem missing_category_is_nan (df : frame column) p :
  NoDup (columns df) ->
  feature_engineering L (loaded (impute_and_cast L df)) = Ok p ->
  (forall xs, get "product" df = Some (CObject xs) ->
     get "product_label" p
     = Some (Plain (CObject
          (map (fun x => Some match x with
                              | Some s => Text.remove_spaces (Text.upper (Text.strip s))
                              | None => "NAN"
                              end) xs))))
  /\ (forall xs, get "gender" df = Some (CObject xs) ->
        get "gender_label" p
        = Some (Plain (CObject
             (map (fun x => Some match x with
                                 | Some s => gender_label_of (Text.strip s)
                                 | None => "nan"
                                 end) xs))))
  /\ (forall xs, get "education" df = Some (CObject xs) ->
        get "education_label" p
        = Some (Plain (CObject
             (map (fun x => Some match x with
                                 | Some s => education_synonym (Text.lower (Text.strip s))
                                 | None => "nan"
                                 end) xs)))).
Proof.
  intros N H. split; [|split]; intros xs G.
  - pose proof (get_cast_text df "product" _ N ltac:(cbn; tauto) G) as G'.
    rewrite (product_label_value L _ _ _ H G').
    cbn [astype_str]. rewrite !map_map. do 3 f_equal.
    apply map_ext. now intros [s|].
  - pose proof (get_cast_text df "gender" _ N ltac:(cbn; tauto) G) as G'.
    rewrite <- (map_map Text.strip Some) in G'.
    rewrite (gender_label_value L _ _ _ H G').
    cbn [astype_str]. rewrite !map_map. do 3 f_equal.
    apply map_ext. now intros [s|].
  - pose proof (get_cast_text df "education" _ N ltac:(cbn; tauto) G) as G'.
    rewrite (education_label_value _ _ _ H G').
    cbn [series_astype_str astype_str]. rewrite !map_map. do 3 f_equal.
    apply map_ext. now intros [s|].
Qed.

End Missing.

(* ================================================================== *)
(** * The cleaner and the imputer, column by column *)

Section CleanCells.
Variable L : library.

Lemma same_name_same_column {C : Type} (df : frame C) k c c' :
  NoDup (columns df) -> In (k, c) df -> In (k, c') df -> c = c'.
Proof.
  induction df as [|[n c0] r IH]; intros N H1 H2; [destruct H1|].
  inversion N as [|? ? Hn Hr]; subst.
  assert (Out : forall x, In (n, x) r -> False).
  { intros x Hx. apply Hn. change n with (fst (n, x)). now apply in_map. }
  destruct H1 as [E1|H1], H2 as [E2|H2].
  - congruence.
  - injection E1 as -> ->. exfalso. eauto.
  - injection E2 as -> ->. exfalso. eauto.
  - eauto.
Qed.

Lemma object_columns_mentions (df : frame column) k c :
  NoDup (columns df) -> In (k, c) df ->
  existsb (String.eqb k) (object_columns df) = is_object c.
Proof.
  intros N Hin. fold (mentions (object_columns df) k).
  destruct (is_object c) eqn:E.
  - apply mentions_In. unfold object_columns.
    change k with (fst (k, c)). apply in_map. apply filter_In. auto.
  - apply mentions_absent. intros K. unfold object_columns in K.
    apply in_map_iff in K. destruct K as ([k' c'] & Ek & Hk). cbn in Ek. subst k'.
    apply filter_In in Hk. destruct Hk as [Hk Ho]. cbn in Ho.
    rewrite (same_name_same_column df k c c' N Hin Hk) in E. congruence.
Qed.

(** With distinct cleaned names the cleaner works column by column. *)
Lemma basic_clean_as_map raw :
  NoDup (clean_names raw) ->
  basic_clean L raw
  = map (fun nc => (rename_column (fst nc), clean_column (duplicated raw) (snd nc)))
        raw.
Proof.
  intros N. rewrite basic_clean_unfold.
  set (D := drop_duplicates (rename_with rename_column raw)).
  assert (CD : columns D = clean_names raw).
  { unfold D. now rewrite columns_drop_duplicates, columns_rename. }
  assert (ND : NoDup (columns D)) by now rewrite CD.
  rewrite updates_as_map; [|unfold object_columns, columns; now apply NoDup_map_filter|exact ND].
  transitivity (map (fun nc : string * column =>
                       (fst nc, if is_object (snd nc) then strip_text L (snd nc)
                                else snd nc)) D).
  { apply map_ext_in. intros [k c] Hin. unfold update_where. cbn [fst snd].
    rewrite (object_columns_mentions D k c ND Hin). now destruct (is_object c). }
  unfold D, drop_duplicates, rename_with. rewrite !map_map.
  fold (rename_with rename_column raw). rewrite duplicated_rename.
  apply map_ext. intros [k [xs|xs]]; cbn [fst snd column_drop is_object]; auto.
  unfold strip_text, clean_column. cbn [astype_str]. now rewrite map_map.
Qed.

Lemma get_map_columns {A B : Type} (g : string -> string) (h : A -> B) n :
  forall (df : frame A) c,
  get n (map (fun nc => (g (fst nc), h (snd nc))) df) = Some c ->
  exists n0 c0, In (n0, c0) df /\ n = g n0 /\ c = h c0.
Proof.
  induction df as [|[k c0] r IH]; intros c; cbn [map get fst snd]; [discriminate|].
  destruct (String.eqb n (g k)) eqn:E.
  - apply String.eqb_eq in E. intros H. injection H as <-.
    exists k, c0. split; [now left|auto].
  - intros H. destruct (IH c H) as (n0 & c1 & Hin & K). exists n0, c1.
    split; [now right|exact K].
Qed.

(** X15.  After the cleaner every column is a column of the raw table under
    its cleaned name, without the rows that repeat an earlier row; a text
    column has no missing cell left (a missing cell has become the text nan)
    and no cell with leading or trailing whitespace; a numeric column keeps
    its cells as they are. *)
Theorem cleaner_trims_text raw n c :
  NoDup (clean_names raw) ->
  get n (basic_clean L raw) = Some c ->
  (exists n0 c0,
     In (n0, c0) raw /\ n = rename_column n0
     /\ c = clean_column (duplicated raw) c0)
  /\ (forall xs, c = CObject xs ->
        Forall (fun x => exists s, x = Some s /\ Text.strip s = s) xs).
Proof.
  intros N G. rewrite basic_clean_as_map in G by assumption.
  apply get_map_columns in G. destruct G as (n0 & c0 & Hin & -> & ->).
  split; [eauto|].
  intros xs E. destruct c0 as [ys|ys]; cbn [clean_column] in E; [discriminate|].
  injection E as <-. apply Forall_map, Forall_forall. intros x _.
  eexists. split; [reflexivity|]. apply TextFacts.strip_idempotent.
Qed.

End CleanCells.

Section ImputerMore.
Variable L : library.

Lemma Qhalf_between (a b lo hi : Q) :
  (lo <= a)%Q -> (a <= hi)%Q -> (lo <= b)%Q -> (b <= hi)%Q ->
  (lo <= (a + b) / 2 /\ (a + b) / 2 <= hi)%Q.
Proof.
  intros. assert (E : ((a + b) / 2 == (a + b) * (1 # 2))%Q) by field.
  rewrite E. split; lra.
Qed.

(** The median lies between the least and the greatest value present. *)
Lemma median_in_range xs mn r :
  sort_asc (dropna xs) = mn :: r ->
  exists m, median xs = Some m
            /\ (mn <= m)%Q /\ (m <= last (mn :: r) mn)%Q.
Proof.
  intros S. unfold median. rewrite S. set (v := mn :: r).
  assert (Sv : StronglySorted Qle v) by (unfold v; rewrite <- S; apply sort_sorted).
  assert (Hn : 1 <= length v) by (cbn; lia).
  assert (R : forall i, i < length v ->
                (mn <= nth i v 0 /\ nth i v 0 <= last v mn)%Q).
  { intros i Hi. pose proof (nth_In v 0%Q Hi) as K. split.
    - now apply (sorted_head_least mn r).
    - now apply sorted_last_greatest. }
  destruct (length v =? 0) eqn:Z; [apply Nat.eqb_eq in Z; lia|].
  assert (Half : length v / 2 < length v) by (apply Nat.div_lt; lia).
  destruct (Nat.odd (length v)).
  - eexists. split; [reflexivity|]. now apply R.
  - eexists. split; [reflexivity|].
    assert (Half' : length v / 2 - 1 < length v) by lia.
    destruct (R _ Half), (R _ Half'). now apply Qhalf_between.
Qed.

(** X16.  The imputer fills a numeric candidate with a value that lies between
    the least and the greatest value the column had, so no cell of the filled
    column lies outside that range. *)
Theorem imputed_within_range df name c mn r :
  NoDup (columns df) ->
  In name numeric_candidates -> get name df = Some c ->
  sort_asc (dropna (to_numeric L c)) = mn :: r ->
  (mn <= fill_value (to_numeric L c))%Q
  /\ (fill_value (to_numeric L c) <= last (mn :: r) mn)%Q
  /\ exists ys,
       get name (impute_and_cast L df) = Some (CFloat ys)
       /\ Forall (fun y => exists v, y = Some v /\ (mn <= v)%Q
                                     /\ (v <= last (mn :: r) mn)%Q) ys.
Proof.
  intros N Hin G S.
  destruct (median_in_range _ _ _ S) as (m & M & Lo & Hi).
  assert (F : fill_value (to_numeric L c) = m) by (unfold fill_value; now rewrite M).
  rewrite F. split; [exact Lo|]. split; [exact Hi|].
  exists (fillna m (to_numeric L c)). split.
  - rewrite get_impute_and_cast by assumption.
    rewrite candidate_not_categorical, in_existsb, G by assumption.
    cbn [option_map]. unfold impute_column. now rewrite F.
  - unfold fillna. apply Forall_map, Forall_forall. intros [v|] Hv.
    + exists v. split; auto.
      assert (K : In v (mn :: r)).
      { rewrite <- S. apply sort_In. now apply in_dropna. }
      pose proof (sort_sorted (dropna (to_numeric L c))) as Sv. rewrite S in Sv.
      split; [now apply (sorted_head_least mn r)|now apply sorted_last_greatest].
    + exists m. auto.
Qed.

(** X17.  The imputer turns product, gender and education into trimmed text
    with no missing cell, whatever they held, leaves every column it does not
    name as it is, and keeps the number of rows. *)
Theorem imputer_casts_text df :
  NoDup (columns df) ->
  (forall name c,
     In name categorical_columns -> get name df = Some c ->
     get name (impute_and_cast L df)
     = Some (CObject (map (fun s => Some (Text.strip s)) (astype_str L c)))
     /\ Forall (fun s => Text.strip s = s) (map Text.strip (astype_str L c)))
  /\ (forall name,
        ~ In name numeric_candidates -> ~ In name categorical_columns ->
        get name (impute_and_cast L df) = get name df)
  /\ nrows (impute_and_cast L df) = nrows df.
Proof.
  intros N. split; [|split].
  - intros name c Hin G. split.
    + rewrite get_impute_and_cast by assumption.
      rewrite in_existsb by assumption.
      assert (E : existsb (String.eqb name) numeric_candidates = false).
      { repeat (destruct Hin as [<-|Hin]; [reflexivity|]). destruct Hin. }
      now rewrite E, G.
    + apply Forall_map, Forall_forall. intros s _. apply TextFacts.strip_idempotent.
  - intros name H1 H2. rewrite get_impute_and_cast by assumption.
    fold (mentions categorical_columns name). fold (mentions numeric_candidates name).
    now rewrite !mentions_absent by assumption.
  - apply nrows_impute_and_cast.
Qed.

End ImputerMore.

(* ================================================================== *)
(** * The processed numbers; the deriver run again *)

Section ProcessedNumbers.
Variable L : library.

(** X18.  Every numeric candidate of the raw table comes out of the pipeline
    as numbers with no missing cell, one for each row that does not repeat an
    earlier row of the raw table. *)
Theorem processed_numbers_complete raw p name :
  NoDup (clean_names raw) -> rectangular raw ->
  process L raw = Ok p ->
  In name numeric_candidates -> In name (clean_names raw) ->
  exists xs,
    get name p = Some (Plain (CFloat xs))
    /\ Forall (fun x => x <> None) xs
    /\ length xs + count_occ Bool.bool_dec (duplicated raw) true = nrows raw.
Proof.
  intros N R H Hc Hin. rewrite process_unfold in H.
  unfold clean_names in Hin. rewrite <- (columns_prepared L raw N) in Hin.
  apply in_columns_get in Hin. destruct Hin as [c G].
  destruct (prepared_numeric L raw name c N Hc G) as (xs & -> & F).
  assert (G' : get name (loaded (prepared L raw)) = Some (Plain (CFloat xs))).
  { now rewrite get_loaded, G. }
  assert (Nd : datelike name = false).
  { repeat (destruct Hc as [<-|Hc]; [reflexivity|]). destruct Hc. }
  exists xs. split; [|split; [exact F|]].
  - apply (deriver_frame L _ _ H); auto.
    + intros K. repeat (destruct Hc as [<-|Hc]; [cbn in K; intuition discriminate|]).
      destruct Hc.
    + intros K. apply first_datelike_is_datelike in K. destruct K. congruence.
  - assert (U : uniform (nrows (prepared L raw)) (loaded (prepared L raw))).
    { apply loaded_uniform. now apply rectangular_prepared. }
    pose proof (uniform_get _ _ _ _ U G') as Len. cbn [series_length column_length] in Len. rewrite Len.
    rewrite nrows_prepared.
    pose proof (nrows_drop_duplicates _ (rectangular_rename rename_column raw R)) as K.
    now rewrite duplicated_rename, nrows_rename in K.
Qed.

End ProcessedNumbers.

Section Again.
Variable L : library.
Implicit Types (df : frame series).

Lemma set_same {C : Type} n (c : C) (df : frame C) :
  get n df = Some c -> set n c df = df.
Proof.
  induction df as [|[k c0] r IH]; cbn; [discriminate|].
  destruct (String.eqb n k) eqn:E; intros H.
  - now injection H as <-.
  - now rewrite IH.
Qed.

(** A label step run on a table that has the same source column and
    already holds what the step assigns changes nothing. *)
Ltac step_again :=
  intros H Gs Gl;
  unfold product_step, gender_step, income_step, usage_step, age_step,
    education_step, when_present, bind, try_except in *;
  rewrite Gs;
  match goal with
  | |- context [get ?n ?d] => destruct (get n d) as [s|]; [|reflexivity]
  end;
  repeat match type of H with
         | context [match ?x with _ => _ end] => destruct x; try discriminate
         end;
  inversion H; subst; rewrite set_same; [reflexivity|];
  apply Gl; apply get_set_same.

Lemma product_step_again d d2 d' :
  product_step d = Ok d2 -> get "product" d' = get "product" d ->
  (forall c, get "product_label" d2 = Some c -> get "product_label" d' = Some c) ->
  product_step d' = Ok d'.
Proof. step_again. Qed.

Lemma gender_step_again d d2 d' :
  gender_step d = Ok d2 -> get "gender" d' = get "gender" d ->
  (forall c, get "gender_label" d2 = Some c -> get "gender_label" d' = Some c) ->
  gender_step d' = Ok d'.
Proof. step_again. Qed.

Lemma income_step_again d d2 d' :
  income_step d = Ok d2 -> get "income" d' = get "income" d ->
  (forall c, get "income_bucket" d2 = Some c -> get "income_bucket" d' = Some c) ->
  income_step d' = Ok d'.
Proof. step_again. Qed.

Lemma usage_step_again d d2 d' :
  usage_step d = Ok d2 -> get "usage" d' = get "usage" d ->
  (forall c, get "usage_category" d2 = Some c -> get "usage_category" d' = Some c) ->
  usage_step d' = Ok d'.
Proof. step_again. Qed.

Lemma age_step_again d d2 d' :
  age_step d = Ok d2 -> get "age" d' = get "age" d ->
  (forall c, get "age_bucket" d2 = Some c -> get "age_bucket" d' = Some c) ->
  age_step d' = Ok d'.
Proof. step_again. Qed.

Lemma education_step_again d d2 d' :
  education_step L d = Ok d2 -> get "education" d' = get "education" d ->
  (forall c, get "education_label" d2 = Some c -> get "education_label" d' = Some c) ->
  education_step L d' = Ok d'.
Proof. step_again. Qed.

Lemma miles_step_again d d2 d' :
  miles_step d = Ok d2 -> get "miles" d' = get "miles" d ->
  (forall s, get "miles" d = Some s -> series_nrows d' = series_nrows d) ->
  (forall c, get "miles_category" d2 = Some c -> get "miles_category" d' = Some c) ->
  miles_step d' = Ok d'.
Proof.
  intros H Gs Hn Gl. unfold miles_step, when_present in *. rewrite Gs.
  destruct (get "miles" d) as [s|]; [|reflexivity].
  rewrite (Hn s eq_refl).
  destruct (try_except (miles_split s) _) as [c|]; cbn [bind] in *; [|discriminate].
  inversion H; subst. rewrite set_same; [reflexivity|].
  apply Gl, get_set_same.
Qed.

Lemma count_step_again d8 df' :
  count_step d8 = Ok df' -> count_step df' = Ok df'.
Proof.
  intros H. pose proof (count_step_shape _ _ H) as [->|(_ & c & ->)]; [exact H|].
  unfold count_step, has. now rewrite get_set_same, andb_false_r.
Qed.

Lemma count_step_same d8 df' t :
  count_step d8 = Ok df' -> t <> "count" -> get t df' = get t d8.
Proof.
  intros H Ht. apply count_step_shape in H. destruct H as [->|(_ & c & ->)]; auto.
  now apply get_set_other.
Qed.

Lemma datetime_step_same d7 d8 t :
  datetime_step L d7 = Ok d8 -> datelike t = false ->
  ~ In t ["date"; "hour"; "day_of_week"] -> get t d8 = get t d7.
Proof.
  intros H Ht Hn. apply datetime_step_shape in H.
  destruct H as [[_ ->]|(dtc & s & F & Gd & _ & _ & ->)]; auto.
  apply first_datelike_is_datelike in F. destruct F as [F _].
  cbn zeta. rewrite !get_set_other; auto.
  - intros ->. congruence.
  - intros ->. apply Hn. cbn. auto.
  - intros ->. apply Hn. cbn. auto.
  - intros ->. apply Hn. cbn. auto.
Qed.

Lemma first_datelike_app {C : Type} (df df' : frame C) extra :
  columns df' = columns df ++ extra ->
  (first_datelike df = None -> filter datelike extra = []) ->
  first_datelike df' = first_datelike df.
Proof.
  unfold first_datelike. intros -> H. rewrite filter_app.
  destruct (filter datelike (columns df)); auto. cbn. now rewrite H.
Qed.

Lemma datetime_step_again d7 d8 df' :
  datetime_step L d7 = Ok d8 -> count_step d8 = Ok df' ->
  datetime_step L df' = Ok df'.
Proof.
  intros H8 H9.
  assert (F : first_datelike df' = first_datelike d7).
  { transitivity (first_datelike d8).
    - apply (first_datelike_app _ _ _ (count_step_columns _ _ H9)).
      intros _. now destruct (_ && _).
    - apply (first_datelike_app _ _ _ (datetime_step_columns L _ _ H8)).
      unfold first_datelike. now destruct (filter datelike (columns d7)). }
  pose proof (datetime_step_shape L _ _ H8) as S8.
  destruct S8 as [[F7 E]|(dtc & s & F7 & Gd & Nd & Nh & E)].
  { apply datetime_step_none. congruence. }
  cbn zeta in E. set (ts := to_datetime L s) in *.
  pose proof (first_datelike_is_datelike _ _ F7) as [Dl _].
  assert (Nw : dtc <> "day_of_week") by (intros ->; discriminate).
  assert (Nc : dtc <> "count") by (intros ->; discriminate).
  assert (G1 : get dtc df' = Some (Datetime ts)).
  { rewrite (count_step_same _ _ _ H9 Nc), E.
    rewrite !get_set_other by assumption. apply get_set_same. }
  assert (G2 : get "date" df' = Some (Dates (map (option_map date_of) ts))).
  { rewrite (count_step_same _ _ _ H9) by discriminate. rewrite E.
    rewrite !get_set_other by discriminate. apply get_set_same. }
  assert (G3 : get "hour" df' = Some (Plain (CFloat (map (option_map hour_of) ts)))).
  { rewrite (count_step_same _ _ _ H9) by discriminate. rewrite E.
    rewrite !get_set_other by discriminate. apply get_set_same. }
  assert (G4 : get "day_of_week" df'
               = Some (Plain (CObject (map (option_map day_name_of) ts)))).
  { rewrite (count_step_same _ _ _ H9) by discriminate. rewrite E.
    apply get_set_same. }
  rewrite F7 in F. unfold first_datelike in F. unfold datetime_step.
  destruct (filter datelike (columns df')) as [|d r]; [discriminate|].
  cbn in F. injection F as ->.
  unfold get_or_raise. rewrite G1. cbn [bind to_datetime].
  rewrite (set_same dtc _ df' G1). rewrite G1. cbn [bind dt_values].
  rewrite (set_same "date" _ df' G2). rewrite G1. cbn [bind dt_values].
  rewrite (set_same "hour" _ df' G3). rewrite G1. cbn [bind dt_values].
  now rewrite (set_same "day_of_week" _ df' G4).
Qed.

(** X19.  Running the deriver on the table it returned changes nothing: every
    label is computed again from an untouched source column and found in
    place. *)
Theorem feature_engineering_idempotent n df df' :
  uniform n df ->
  feature_engineering L df = Ok df' ->
  feature_engineering L df' = Ok df'.
Proof.
  intros U H. pose proof H as H0. apply stages_shapes in H.
  destruct H as (d1 & d2 & d3 & d4 & d5 & d6 & d7 & d8
                 & (H1 & H2 & H3 & H4 & H5 & H6 & H7 & H8 & H9)
                 & (A1 & A2 & A3 & A4 & A5 & A6 & A7)).
  assert (Tail : forall t, datelike t = false ->
                   ~ In t ["date"; "hour"; "day_of_week"; "count"] ->
                   get t df' = get t d7).
  { intros t Dt Nt.
    rewrite (count_step_same _ _ t H9) by (intros ->; apply Nt; cbn; tauto).
    apply (datetime_step_same _ _ _ H8 Dt). intros K. apply Nt. cbn in *. tauto. }
  assert (E1 : product_step df' = Ok df').
  { apply (product_step_again _ _ _ H1).
    - rewrite Tail by (cbn; intuition discriminate).
      rewrite (keep_through _ _ _ _ A7), (keep_through _ _ _ _ A6),
        (keep_through _ _ _ _ A5), (keep_through _ _ _ _ A4),
        (keep_through _ _ _ _ A3), (keep_through _ _ _ _ A2),
        (keep_through _ _ _ _ A1) by discriminate. reflexivity.
    - intros c G. rewrite Tail by (cbn; intuition discriminate).
      rewrite (keep_through _ _ _ _ A7), (keep_through _ _ _ _ A6),
        (keep_through _ _ _ _ A5), (keep_through _ _ _ _ A4),
        (keep_through _ _ _ _ A3), (keep_through _ _ _ _ A2) by discriminate.
      exact G. }
  assert (E2 : gender_step df' = Ok df').
  { apply (gender_step_again _ _ _ H2).
    - rewrite Tail by (cbn; intuition discriminate).
      rewrite (keep_through _ _ _ _ A7), (keep_through _ _ _ _ A6),
        (keep_through _ _ _ _ A5), (keep_through _ _ _ _ A4),
        (keep_through _ _ _ _ A3), (keep_through _ _ _ _ A2) by discriminate.
      reflexivity.
    - intros c G. rewrite Tail by (cbn; intuition discriminate).
      rewrite (keep_through _ _ _ _ A7), (keep_through _ _ _ _ A6),
        (keep_through _ _ _ _ A5), (keep_through _ _ _ _ A4),
        (keep_through _ _ _ _ A3) by discriminate.
      exact G. }
  assert (E3 : income_step df' = Ok df').
  { apply (income_step_again _ _ _ H3).
    - rewrite Tail by (cbn; intuition discriminate).
      rewrite (keep_through _ _ _ _ A7), (keep_through _ _ _ _ A6),
        (keep_through _ _ _ _ A5), (keep_through _ _ _ _ A4),
        (keep_through _ _ _ _ A3) by discriminate.
      reflexivity.
    - intros c G. rewrite Tail by (cbn; intuition discriminate).
      rewrite (keep_through _ _ _ _ A7), (keep_through _ _ _ _ A6),
        (keep_through _ _ _ _ A5), (keep_through _ _ _ _ A4) by discriminate.
      exact G. }
  assert (E4 : miles_step df' = Ok df').
  { assert (Gm : get "miles" df' = get "miles" d3).
    { rewrite Tail by (cbn; intuition discriminate).
      rewrite (keep_through _ _ _ _ A7), (keep_through _ _ _ _ A6),
        (keep_through _ _ _ _ A5), (keep_through _ _ _ _ A4) by discriminate.
      reflexivity. }
    apply (miles_step_again _ _ _ H4 Gm).
    - intros s G.
      assert (U3 : uniform n d3).
      { eapply income_step_uniform; [|eassumption].
        eapply gender_step_uniform; [|eassumption].
        eapply product_step_uniform; eassumption. }
      assert (U' : uniform n df') by exact (feature_engineering_uniform L n df df' U H0).
      rewrite (uniform_nrows _ _ _ _ U3 G).
      rewrite <- Gm in G. apply (uniform_nrows _ _ _ _ U' G).
    - intros c G. rewrite Tail by (cbn; intuition discriminate).
      rewrite (keep_through _ _ _ _ A7), (keep_through _ _ _ _ A6),
        (keep_through _ _ _ _ A5) by discriminate.
      exact G. }
  assert (E5 : usage_step df' = Ok df').
  { apply (usage_step_again _ _ _ H5).
    - rewrite Tail by (cbn; intuition discriminate).
      rewrite (keep_through _ _ _ _ A7), (keep_through _ _ _ _ A6),
        (keep_through _ _ _ _ A5) by discriminate.
      reflexivity.
    - intros c G. rewrite Tail by (cbn; intuition discriminate).
      rewrite (keep_through _ _ _ _ A7), (keep_through _ _ _ _ A6) by discriminate.
      exact G. }
  assert (E6 : age_step df' = Ok df').
  { apply (age_step_again _ _ _ H6).
    - rewrite Tail by (cbn; intuition discriminate).
      rewrite (keep_through _ _ _ _ A7), (keep_through _ _ _ _ A6) by discriminate.
      reflexivity.
    - intros c G. rewrite Tail by (cbn; intuition discriminate).
      rewrite (keep_through _ _ _ _ A7) by discriminate.
      exact G. }
  assert (E7 : education_step L df' = Ok df').
  { apply (education_step_again _ _ _ H7).
    - rewrite Tail by (cbn; intuition discriminate).
      rewrite (keep_through _ _ _ _ A7) by discriminate.
      reflexivity.
    - intros c G. rewrite Tail by (cbn; intuition discriminate). exact G. }
  unfold feature_engineering.
  rewrite E1. cbn [bind]. rewrite E2. cbn [bind]. rewrite E3. cbn [bind].
  rewrite E4. cbn [bind]. rewrite E5. cbn [bind]. rewrite E6. cbn [bind].
  rewrite E7. cbn [bind].
  rewrite (datetime_step_again _ _ _ H8 H9). cbn [bind].
  apply (count_step_again _ _ H9).
Qed.

End Again.

(* ================================================================== *)
(** * Labels follow the order of their source *)

Section Order.
Variable L : library.
Implicit Types (df : frame series).

Lemma ordered_map labels (g : option Q -> option string) xs :
  (forall v w a b, g (Some v) = Some a -> g (Some w) = Some b -> (v <= w)%Q ->
                   label_rank labels a <= label_rank labels b) ->
  ordered_rows labels xs (map g xs).
Proof.
  intros M i j v w a b Xi Xj Yi Yj Hvw.
  rewrite nth_error_map, Xi in Yi. rewrite nth_error_map, Xj in Yj.
  cbn in Yi, Yj. injection Yi as Yi. injection Yj as Yj. eauto.
Qed.

Lemma three_way_ordered e1 e2 v w :
  (v <= w)%Q ->
  label_rank bucket_labels (three_way e1 e2 v)
  <= label_rank bucket_labels (three_way e1 e2 w).
Proof.
  intros H. unfold three_way.
  destruct (Qle_bool v e1) eqn:V1; [cbn; lia|].
  apply Qle_bool_gt in V1.
  assert (W1 : Qle_bool w e1 = false) by (apply Qle_bool_gt; lra).
  rewrite W1.
  destruct (Qle_bool v e2) eqn:V2; [destruct (Qle_bool w e2); cbn; lia|].
  apply Qle_bool_gt in V2.
  assert (W2 : Qle_bool w e2 = false) by (apply Qle_bool_gt; lra).
  rewrite W2. cbn. lia.
Qed.

Lemma usage_rule_ordered v w :
  (v <= w)%Q ->
  label_rank usage_labels (usage_rule v) <= label_rank usage_labels (usage_rule w).
Proof.
  intros H. unfold usage_rule.
  destruct (Qle_bool v 2.99) eqn:V1; [cbn; lia|].
  apply Qle_bool_gt in V1.
  assert (W1 : Qle_bool w 2.99 = false) by (apply Qle_bool_gt; lra).
  rewrite W1.
  destruct (Qle_bool v 5.0) eqn:V2; [destruct (Qle_bool w 5.0); cbn; lia|].
  apply Qle_bool_gt in V2.
  assert (W2 : Qle_bool w 5.0 = false) by (apply Qle_bool_gt; lra).
  rewrite W2. cbn. lia.
Qed.

Lemma age_bucket_ordered v w a b :
  age_bucket_of (Some v) = Some a -> age_bucket_of (Some w) = Some b ->
  (v <= w)%Q -> label_rank age_labels a <= label_rank age_labels b.
Proof.
  unfold age_bucket_of, label_of, age_bins, age_labels.
  cbn [searchsorted_left edge_ltb andb length].
  intros Ha Hb H. revert Ha Hb.
  repeat match goal with
         | |- context [Qle_bool ?x ?y] =>
             let E := fresh "E" in
             destruct (Qle_bool x y) eqn:E; cbn [negb];
             [apply Qle_bool_iff in E|apply Qle_bool_gt in E]
         end;
    cbn; intros Ha Hb; try discriminate;
    injection Ha as <-; injection Hb as <-; cbn; try lia; exfalso; lra.
Qed.

Lemma miles_split_ordered xs ys :
  miles_split (Plain (CFloat xs)) = Ok (Categorical ys) ->
  ordered_rows bucket_labels xs ys.
Proof.
  unfold miles_split. cbn [num_values bind].
  destruct (3 <=? series_nunique (Plain (CFloat xs))).
  - destruct (qcut 3 bucket_labels xs) as [zs|] eqn:Q; cbn [bind]; [|discriminate].
    intros H. injection H as <-. rewrite (qcut_three_way _ _ Q).
    apply ordered_map. intros v w a b Ha Hb Hvw. cbn in Ha, Hb.
    injection Ha as <-. injection Hb as <-. now apply three_way_ordered.
  - destruct (cut_equal_width 3 bucket_labels xs) as [zs|] eqn:Q;
      cbn [bind]; [|discriminate].
    intros H. injection H as <-.
    destruct (sort_asc (dropna xs)) as [|mn r] eqn:S.
    { unfold cut_equal_width in Q. rewrite S in Q.
      destruct (length xs =? 0); discriminate. }
    rewrite (cut_equal_width_three_way _ _ _ _ Q S).
    generalize (last (mn :: r) mn) as mx. intros mx.
    apply ordered_map. intros v w a b Ha Hb Hvw. cbn [option_map] in Ha, Hb.
    injection Ha as <-. injection Hb as <-.
    destruct (Qeq_bool mn mx); [apply Nat.le_refl|].
    now apply three_way_ordered.
Qed.

(** X20.  In the derived table the four binned labels follow the order of
    their source: of two rows, the one with the larger usage, age, income or
    miles never has the lower usage_category, age_bucket, income_bucket or
    miles_category. *)
Theorem binned_labels_follow_order n df df' :
  uniform n df ->
  feature_engineering L df = Ok df' ->
  (forall xs, get "usage" df = Some (Plain (CFloat xs)) ->
     exists ys, get "usage_category" df' = Some (Categorical ys)
                /\ ordered_rows usage_labels xs ys)
  /\ (forall xs, get "age" df = Some (Plain (CFloat xs)) ->
        exists ys, get "age_bucket" df' = Some (Categorical ys)
                   /\ ordered_rows age_labels xs ys)
  /\ (forall xs, get "income" df = Some (Plain (CFloat xs)) ->
        exists ys, get "income_bucket" df' = Some (Categorical ys)
                   /\ ordered_rows bucket_labels xs ys)
  /\ (forall xs ys, get "miles" df = Some (Plain (CFloat xs)) ->
        get "miles_category" df' = Some (Categorical ys) ->
        ordered_rows bucket_labels xs ys).
Proof.
  intros U H. split; [|split; [|split]].
  - intros xs G. eexists. split; [eapply usage_category_value; eauto|].
    apply ordered_map. intros v w a b Ha Hb Hvw.
    rewrite usage_category_of_rule in Ha, Hb. cbn in Ha, Hb.
    injection Ha as <-. injection Hb as <-. now apply usage_rule_ordered.
  - intros xs G. eexists. split; [eapply age_bucket_value; eauto|].
    apply ordered_map. apply age_bucket_ordered.
  - intros xs G. destruct (income_bucket_value L _ _ _ H G) as (ys & Gy & [Q|[_ C]]).
    + exists ys. split; [exact Gy|]. rewrite (qcut_three_way _ _ Q).
      intros i j v w a b Xi Xj Yi Yj Hvw.
      unfold zero_to_nan in Yi, Yj. rewrite map_map in Yi, Yj.
      rewrite nth_error_map, Xi in Yi. rewrite nth_error_map, Xj in Yj.
      cbn in Yi, Yj.
      destruct (Qeq_bool v 0); [discriminate|].
      destruct (Qeq_bool w 0); [discriminate|]. cbn in Yi, Yj.
      injection Yi as <-. injection Yj as <-. now apply three_way_ordered.
    + exists ys. split; [exact Gy|]. rewrite cut_income_bins in C.
      injection C as <-. apply ordered_map. intros v w a b Ha Hb Hvw.
      cbn in Ha, Hb. injection Ha as <-. injection Hb as <-.
      now apply three_way_ordered.
  - intros xs ys G Gy.
    destruct (miles_category_value L _ _ _ _ U H G) as (c & Gc & [M|[_ ->]]).
    + rewrite Gy in Gc. injection Gc as <-. now apply miles_split_ordered.
    + rewrite Gy in Gc. discriminate.
Qed.

End Order.

(* ================================================================== *)
(** * Product codes, education, dates and counts *)

Section Codes.
Variable L : library.
Implicit Types (df : frame series).

Lemma upper_char_not_small c : is_small (Text.upper_char c) = false.
Proof. destruct c as [[] [] [] [] [] [] [] []]; reflexivity. Qed.

Lemma upper_char_space c : Text.is_space (Text.upper_char c) = Text.is_space c.
Proof. destruct c as [[] [] [] [] [] [] [] []]; reflexivity. Qed.

Lemma upper_char_twice c : Text.upper_char (Text.upper_char c) = Text.upper_char c.
Proof. destruct c as [[] [] [] [] [] [] [] []]; reflexivity. Qed.

Lemma lower_char_twice c : Text.lower_char (Text.lower_char c) = Text.lower_char c.
Proof. destruct c as [[] [] [] [] [] [] [] []]; reflexivity. Qed.

Lemma product_code_chars s :
  every_char is_code_char (Text.remove_spaces (Text.upper s)) = true.
Proof.
  induction s as [|c r IH]; cbn [Text.upper Text.smap Text.remove_spaces]; auto.
  fold (Text.upper r).
  destruct (Text.is_space (Text.upper_char c)) eqn:E; auto.
  cbn [every_char]. unfold is_code_char at 1.
  now rewrite E, upper_char_not_small, IH.
Qed.

Lemma product_code_twice s :
  Text.remove_spaces (Text.upper (Text.remove_spaces (Text.upper s)))
  = Text.remove_spaces (Text.upper s).
Proof.
  induction s as [|c r IH]; cbn [Text.upper Text.smap Text.remove_spaces]; auto.
  fold (Text.upper r).
  destruct (Text.is_space (Text.upper_char c)) eqn:E; auto.
  cbn [Text.upper Text.smap Text.remove_spaces].
  fold (Text.upper (Text.remove_spaces (Text.upper r))).
  now rewrite upper_char_twice, E, IH.
Qed.

(** X21.  The product label is the product code in upper case without
    whitespace: it holds no whitespace and no small letter, and labelling a
    label gives the label back; a missing product has no label. *)
Theorem product_label_normal_form df df' xs :
  feature_engineering L df = Ok df' ->
  get "product" df = Some (Plain (CObject xs)) ->
  exists ys,
    get "product_label" df' = Some (Plain (CObject ys))
    /\ Forall2 (fun x y =>
                  match x with
                  | None => y = None
                  | Some s =>
                      exists l, y = Some l
                                /\ l = Text.remove_spaces (Text.upper s)
                                /\ every_char is_code_char l = true
                                /\ Text.remove_spaces (Text.upper l) = l
                  end) xs ys.
Proof.
  intros H G. eexists. split; [eapply product_label_value; eauto|].
  apply Forall2_map_in. intros [s|] _; cbn [option_map]; auto.
  eexists. split; [reflexivity|]. split; [reflexivity|].
  split; [apply product_code_chars|apply product_code_twice].
Qed.

Lemma lower_twice s : Text.lower (Text.lower s) = Text.lower s.
Proof.
  unfold Text.lower. induction s as [|c r IH]; cbn; auto.
  now rewrite lower_char_twice, IH.
Qed.

Lemma lower_no_capital s :
  every_char (fun c => negb (is_capital c)) (Text.lower s) = true.
Proof.
  apply every_char_smap. intros [[] [] [] [] [] [] [] []]; reflexivity.
Qed.

Lemma education_synonym_normal x :
  let l := education_synonym (Text.lower x) in
  ~ In l education_spellings
  /\ education_synonym (Text.lower l) = l
  /\ every_char (fun c => negb (is_capital c)) l = true.
Proof.
  cbv zeta.
  assert (Fix : forall l, In l ["bachelor"; "master"; "phd"] ->
                  ~ In l education_spellings
                  /\ education_synonym (Text.lower l) = l
                  /\ every_char (fun c => negb (is_capital c)) l = true).
  { intros l [<-|[<-|[<-|[]]]]; (split; [|split; reflexivity]);
      cbn; intuition discriminate. }
  remember (education_synonym (Text.lower x)) as l eqn:El.
  unfold education_synonym in El.
  destruct (String.eqb (Text.lower x) "bachelors") eqn:E1;
    [apply Fix; subst; cbn; tauto|].
  destruct (String.eqb (Text.lower x) "bachelor's") eqn:E2;
    [apply Fix; subst; cbn; tauto|].
  destruct (String.eqb (Text.lower x) "masters") eqn:E3;
    [apply Fix; subst; cbn; tauto|].
  destruct (String.eqb (Text.lower x) "master's") eqn:E4;
    [apply Fix; subst; cbn; tauto|].
  destruct (String.eqb (Text.lower x) "phd") eqn:E5;
    [apply Fix; subst; cbn; tauto|].
  subst l. split; [|split].
  - apply String.eqb_neq in E1, E2, E3, E4. cbn. intuition congruence.
  - rewrite lower_twice. unfold education_synonym.
    now rewrite E1, E2, E3, E4, E5.
  - apply lower_no_capital.
Qed.

(** X22.  The education label is the education in lower case with the four
    spellings replaced: it is never one of them, it has no capital letter, and
    labelling a label gives the label back. *)
Theorem education_label_normal_form df df' s :
  feature_engineering L df = Ok df' ->
  get "education" df = Some s ->
  exists ys,
    get "education_label" df' = Some (Plain (CObject ys))
    /\ length ys = series_length s
    /\ Forall (fun y => exists l,
                 y = Some l
                 /\ ~ In l education_spellings
                 /\ education_synonym (Text.lower l) = l
                 /\ every_char (fun c => negb (is_capital c)) l = true) ys.
Proof.
  intros H G. eexists. split; [eapply education_label_value; eauto|]. split.
  - now rewrite length_map, series_astype_str_length.
  - apply Forall_map, Forall_forall. intros x _.
    eexists. split; [reflexivity|]. apply education_synonym_normal.
Qed.

End Codes.

Section Dates.
Variable L : library.
Implicit Types (df : frame series).

Lemma prefix_shorter a b : forall s,
  String.prefix (a ++ b) s = true -> String.prefix a s = true.
Proof.
  induction a as [|c r IH]; intros [|d t]; cbn; auto.
  destruct (ascii_dec c d); auto.
Qed.

Lemma has_substring_shorter a b : forall s,
  Text.has_substring (a ++ b) s = true -> Text.has_substring a s = true.
Proof.
  induction s as [|d t IH]; cbn [Text.has_substring]; intros H.
  - apply orb_true_iff in H. destruct H as [H|H]; [|discriminate].
    apply prefix_shorter in H. now rewrite H.
  - apply orb_true_iff in H. destruct H as [H|H].
    + apply prefix_shorter in H. now rewrite H.
    + rewrite (IH H). apply orb_true_r.
Qed.

(** X23.  The date-like test keeps a name that contains date or time; its
    third question, whether the name contains datetime, never decides. *)
Theorem datelike_by_two_tests c :
  datelike c = Text.has_substring "date" c || Text.has_substring "time" c.
Proof.
  unfold datelike.
  destruct (Text.has_substring "datetime" c) eqn:E; [|apply orb_false_r].
  change "datetime" with ("date" ++ "time")%string in E.
  apply has_substring_shorter in E. now rewrite E.
Qed.





Lemma sources_before_count df d1 d2 d3 d4 d5 d6 d7 d8 t :
  product_step df = Ok d1 -> gender_step d1 = Ok d2 ->
  income_step d2 = Ok d3 -> miles_step d3 = Ok d4 ->
  usage_step d4 = Ok d5 -> age_step d5 = Ok d6 ->
  education_step L d6 = Ok d7 -> datetime_step L d7 = Ok d8 ->
  In t ["registered"; "casual"; "count"] ->
  get t d8 = get t df.
Proof.
  intros H1 H2 H3 H4 H5 H6 H7 H8 Ht.
  assert (LS : unchanged_outside label_names df d7 /\ extends_with label_names df d7).
  { apply (label_steps_frame L). exists d1, d2, d3, d4, d5, d6. auto 10. }
  destruct LS as [U7 _].
  rewrite (datetime_step_same L _ _ _ H8).
  - apply U7. repeat (destruct Ht as [<-|Ht]; [cbn; intuition discriminate|]).
    destruct Ht.
  - repeat (destruct Ht as [<-|Ht]; [reflexivity|]). destruct Ht.
  - repeat (destruct Ht as [<-|Ht]; [cbn; intuition discriminate|]). destruct Ht.
Qed.

(** X25.  The count column: with numeric registered and casual columns and no
    count, the deriver adds count as their sum row by row, missing where
    either is missing; a count column that is there is left alone; and without
    registered or without casual no count is made. *)
Theorem count_is_sum df df' :
  feature_engineering L df = Ok df' ->
  (forall xs ys,
     get "registered" df = Some (Plain (CFloat xs)) ->
     get "casual" df = Some (Plain (CFloat ys)) ->
     get "count" df = None ->
     get "count" df' = Some (Plain (CFloat (zip_with (both Qplus) xs ys))))
  /\ (forall c, get "count" df = Some c -> get "count" df' = Some c)
  /\ (get "registered" df = None \/ get "casual" df = None ->
      get "count" df' = get "count" df).
Proof.
  intros H. apply feature_engineering_stages in H.
  destruct H as (d1 & d2 & d3 & d4 & d5 & d6 & d7 & d8
                 & H1 & H2 & H3 & H4 & H5 & H6 & H7 & H8 & H9).
  pose proof (sources_before_count _ _ _ _ _ _ _ _ _ "registered"
                H1 H2 H3 H4 H5 H6 H7 H8 ltac:(cbn; tauto)) as Gr.
  pose proof (sources_before_count _ _ _ _ _ _ _ _ _ "casual"
                H1 H2 H3 H4 H5 H6 H7 H8 ltac:(cbn; tauto)) as Gc.
  pose proof (sources_before_count _ _ _ _ _ _ _ _ _ "count"
                H1 H2 H3 H4 H5 H6 H7 H8 ltac:(cbn; tauto)) as Gn.
  unfold count_step, has in H9. rewrite Gr, Gc, Gn in H9.
  split; [|split].
  - intros xs ys Xr Xc Xn. rewrite Xr, Xc, Xn in H9. cbn in H9.
    injection H9 as <-. apply get_set_same.
  - intros c Xn. rewrite Xn in H9. rewrite andb_false_r in H9.
    injection H9 as <-. congruence.
  - intros [X|X]; rewrite X in H9.
    + destruct (get "casual" df), (get "count" df); cbn in H9;
        injection H9 as <-; assumption.
    + destruct (get "registered" df), (get "count" df); cbn in H9;
        injection H9 as <-; assumption.
Qed.

End Dates.

(* ================================================================== *)
(** * The ends of the miles split *)

Section Extremes.







End Extremes.

(* ================================================================== *)
(** * Column names *)

Section Names.
Variable L : library.





Lemma lstrip_head_kept s : Text.lstrip (Text.lstrip s) = Text.lstrip s.
Proof.
  induction s as [|ch r IH]; cbn; auto.
  destruct (Text.is_space ch) eqn:E; auto. cbn. now rewrite E.
Qed.




End Names.

(* ================================================================== *)
(** * The imputer keeps the median *)

Section Median.

Lemma count_below_cons x a l :
  count_below x (a :: l) = (if Qle_bool x a then 0 else 1) + count_below x l.
Proof. unfold count_below. cbn. now destruct (Qle_bool x a). Qed.

Lemma count_upto_cons x a l :
  count_upto x (a :: l) = (if Qle_bool a x then 1 else 0) + count_upto x l.
Proof. unfold count_upto. cbn. now destruct (Qle_bool a x). Qed.

Lemma count_below_insert x a l :
  count_below x (insert_sorted a l) = count_below x (a :: l).
Proof.
  induction l as [|b r IH]; auto. cbn [insert_sorted].
  destruct (Qle_bool a b); auto.
  rewrite !count_below_cons, IH, count_below_cons. lia.
Qed.

Lemma count_upto_insert x a l :
  count_upto x (insert_sorted a l) = count_upto x (a :: l).
Proof.
  induction l as [|b r IH]; auto. cbn [insert_sorted].
  destruct (Qle_bool a b); auto.
  rewrite !count_upto_cons, IH, count_upto_cons. lia.
Qed.

Lemma count_below_sort x l : count_below x (sort_asc l) = count_below x l.
Proof.
  induction l as [|a r IH]; auto.
  now rewrite sort_cons, count_below_insert, !count_below_cons, IH.
Qed.

Lemma count_upto_sort x l : count_upto x (sort_asc l) = count_upto x l.
Proof.
  induction l as [|a r IH]; auto.
  now rewrite sort_cons, count_upto_insert, !count_upto_cons, IH.
Qed.

Lemma count_below_none x l : Forall (Qle x) l -> count_below x l = 0.
Proof.
  induction 1 as [|a r H _ IH]; auto. rewrite count_below_cons, IH.
  apply Qle_bool_iff in H. now rewrite H.
Qed.

(** In a sorted list fewer than [i + 1] values lie below the value at
    place [i], and more than [i] do not lie above it. *)
Lemma sorted_rank w : forall i,
  StronglySorted Qle w -> i < length w ->
  count_below (nth i w 0%Q) w <= i /\ i < count_upto (nth i w 0%Q) w.
Proof.
  induction w as [|a r IH]; intros i S Hi; [cbn in Hi; lia|].
  inversion S as [|? ? Sr F]; subst.
  rewrite count_below_cons, count_upto_cons. destruct i as [|j]; cbn [nth].
  - rewrite count_below_none by assumption.
    assert (E : Qle_bool a a = true) by (apply Qle_bool_iff, Qle_refl).
    rewrite E. lia.
  - cbn in Hi. destruct (IH j Sr ltac:(lia)) as [A B].
    assert (K : (a <= nth j r 0%Q)%Q).
    { rewrite Forall_forall in F. apply F, nth_In. lia. }
    apply Qle_bool_iff in K. rewrite K.
    destruct (Qle_bool (nth j r 0%Q) a); lia.
Qed.

Lemma count_below_mono x y l : (x <= y)%Q -> count_below x l <= count_below y l.
Proof.
  intros H. induction l as [|a r IH]; auto. rewrite !count_below_cons.
  destruct (Qle_bool x a) eqn:E1, (Qle_bool y a) eqn:E2; try lia.
  apply Qle_bool_iff in E2. apply Qle_bool_gt in E1. lra.
Qed.

Lemma count_upto_mono x y l : (x <= y)%Q -> count_upto x l <= count_upto y l.
Proof.
  intros H. induction l as [|a r IH]; auto. rewrite !count_upto_cons.
  destruct (Qle_bool a x) eqn:E1, (Qle_bool a y) eqn:E2; try lia.
  apply Qle_bool_iff in E1. apply Qle_bool_gt in E2. lra.
Qed.

Lemma count_upto_below x y l : (x < y)%Q -> count_upto x l <= count_below y l.
Proof.
  intros H. induction l as [|a r IH]; auto.
  rewrite count_upto_cons, count_below_cons.
  destruct (Qle_bool a x) eqn:E1, (Qle_bool y a) eqn:E2; try lia.
  apply Qle_bool_iff in E1, E2. lra.
Qed.

(** A value with at most [i] values below it and more than [i] values not
    above it stands at place [i] of the sorted list. *)
Lemma sorted_place w i x :
  StronglySorted Qle w -> i < length w ->
  count_below x w <= i -> i < count_upto x w ->
  (nth i w 0 == x)%Q.
Proof.
  intros S Hi A B. destruct (sorted_rank w i S Hi) as [A' B'].
  set (z := nth i w 0%Q) in *.
  destruct (Q_dec z x) as [[Lt|Gt]|E]; auto.
  - pose proof (count_upto_below z x w Lt). lia.
  - pose proof (count_upto_below x z w Gt). lia.
Qed.

Lemma odd_half n : Nat.odd n = true -> n = 2 * (n / 2) + 1.
Proof.
  intros H. apply Nat.odd_spec in H. destruct H as [k ->].
  replace ((2 * k + 1) / 2) with k; [lia|].
  apply (Nat.div_unique _ 2 k 1); lia.
Qed.

Lemma even_half n : Nat.odd n = false -> n = 2 * (n / 2).
Proof.
  intros H. assert (E : Nat.even n = true).
  { rewrite <- Nat.negb_odd. now rewrite H. }
  apply Nat.even_spec in E. destruct E as [k ->].
  replace (2 * k / 2) with k; [lia|].
  apply (Nat.div_unique _ 2 k 0); lia.
Qed.

Lemma half_between (a b : Q) :
  (((a + b) / 2 <= a \/ (a + b) / 2 <= b) /\ (a <= (a + b) / 2 \/ b <= (a + b) / 2))%Q.
Proof.
  assert (E : ((a + b) / 2 == (a + b) * (1 # 2))%Q) by field.
  rewrite E. destruct (Qlt_le_dec a b); split; lra.
Qed.

Lemma some_inj {A : Type} (x y : A) : Some x = Some y -> x = y.
Proof. congruence. Qed.

(** At most half of the values present lie below the median, and at least
    half of them do not lie above it. *)
Lemma median_counts xs m :
  median xs = Some m ->
  1 <= length (dropna xs)
  /\ 2 * count_below m (dropna xs) <= length (dropna xs)
  /\ length (dropna xs) <= 2 * count_upto m (dropna xs).
Proof.
  unfold median. rewrite <- (count_below_sort m), <- (count_upto_sort m).
  rewrite <- (sort_length (dropna xs)).
  pose proof (sort_sorted (dropna xs)) as S.
  set (v := sort_asc (dropna xs)) in *. set (n := length v).
  destruct (n =? 0) eqn:Z; [discriminate|]. apply Nat.eqb_neq in Z.
  assert (Hh : n / 2 < n) by (apply Nat.div_lt; lia).
  destruct (Nat.odd n) eqn:O; intros H; apply some_inj in H; subst m.
  - apply odd_half in O. destruct (sorted_rank v (n / 2) S Hh) as [A B]. lia.
  - apply even_half in O.
    assert (Hh' : n / 2 - 1 < n) by lia.
    destruct (sorted_rank v (n / 2) S Hh) as [A B].
    destruct (sorted_rank v (n / 2 - 1) S Hh') as [A' B'].
    set (a := nth (n / 2 - 1) v 0%Q) in *. set (b := nth (n / 2) v 0%Q) in *.
    destruct (half_between a b) as [[Ua|Ub] [La|Lb]].
    + pose proof (count_below_mono _ _ v Ua). pose proof (count_upto_mono _ _ v La). lia.
    + pose proof (count_below_mono _ _ v Ua). pose proof (count_upto_mono _ _ v Lb). lia.
    + pose proof (count_below_mono _ _ v Ub). pose proof (count_upto_mono _ _ v La). lia.
    + pose proof (count_below_mono _ _ v Ub). pose proof (count_upto_mono _ _ v Lb). lia.
Qed.

Lemma filled_counts m xs :
  length (dropna (fillna m xs)) = length xs
  /\ length (dropna xs) <= length xs
  /\ count_below m (dropna (fillna m xs)) = count_below m (dropna xs)
  /\ count_upto m (dropna (fillna m xs)) + length (dropna xs)
     = count_upto m (dropna xs) + length xs.
Proof.
  assert (E : Qle_bool m m = true) by (apply Qle_bool_iff, Qle_refl).
  induction xs as [|[a|] r (I1 & I2 & I3 & I4)]; [cbn; auto| |].
  - change (dropna (fillna m (Some a :: r))) with (a :: dropna (fillna m r)).
    change (dropna (Some a :: r)) with (a :: dropna r).
    rewrite !count_below_cons, !count_upto_cons. cbn [length].
    destruct (Qle_bool a m); lia.
  - change (dropna (fillna m (None :: r))) with (m :: dropna (fillna m r)).
    change (dropna (None :: r)) with (dropna r).
    rewrite !count_below_cons, !count_upto_cons, E. cbn [length]. lia.
Qed.

Lemma dropna_length {A : Type} (xs : list (option A)) :
  length (dropna xs) <= length xs.
Proof.
  induction xs as [|[a|] r IH]; [apply Nat.le_refl| |].
  - change (dropna (Some a :: r)) with (a :: dropna r). cbn [length]. lia.
  - change (dropna (None :: r)) with (dropna r). cbn [length]. lia.
Qed.

Lemma all_present {A : Type} (xs : list (option A)) :
  length (dropna xs) = length xs -> Forall (fun x => x <> None) xs.
Proof.
  induction xs as [|[a|] r IH]; intros H.
  - constructor.
  - constructor; [discriminate|]. apply IH.
    change (dropna (Some a :: r)) with (a :: dropna r) in H. cbn in H. lia.
  - exfalso. change (dropna (None :: r)) with (dropna r) in H. cbn [length] in H.
    pose proof (dropna_length r). lia.
Qed.

(** Filling the missing cells with the median keeps the median. *)
Lemma fill_keeps_median xs m :
  median xs = Some m ->
  exists m', median (fillna m xs) = Some m' /\ (m' == m)%Q.
Proof.
  intros M. destruct (median_counts xs m M) as (Hn & Hb & Hu).
  destruct (filled_counts m xs) as (F1 & F2 & F3 & F4).
  destruct (Nat.eq_dec (length (dropna xs)) (length xs)) as [Full|Gap].
  { exists m. split; [|reflexivity].
    rewrite fillna_none; auto. now apply all_present. }
  unfold median.
  pose proof (sort_sorted (dropna (fillna m xs))) as S.
  pose proof (count_below_sort m (dropna (fillna m xs))) as Cb.
  pose proof (count_upto_sort m (dropna (fillna m xs))) as Cu.
  pose proof (sort_length (dropna (fillna m xs))) as Len.
  set (w := sort_asc (dropna (fillna m xs))) in *. set (N := length w) in *.
  destruct (N =? 0) eqn:Z; [apply Nat.eqb_eq in Z; lia|].
  assert (Hh : N / 2 < N) by (apply Nat.div_lt; lia).
  destruct (Nat.odd N) eqn:O.
  - apply odd_half in O. eexists. split; [reflexivity|].
    apply sorted_place; auto; lia.
  - apply even_half in O. eexists. split; [reflexivity|].
    assert (E1 : (nth (N / 2 - 1) w 0 == m)%Q) by (apply sorted_place; auto; lia).
    assert (E2 : (nth (N / 2) w 0 == m)%Q) by (apply sorted_place; auto; lia).
    rewrite E1, E2. field.
Qed.

End Median.

Section KeepsMedian.
Variable L : library.

(** X28.  The imputer keeps the median: a numeric candidate that has a value
    has the same median after its missing cells are filled. *)
Theorem imputation_keeps_median df name c m :
  NoDup (columns df) ->
  In name numeric_candidates -> get name df = Some c ->
  median (to_numeric L c) = Some m ->
  exists ys m',
    get name (impute_and_cast L df) = Some (CFloat ys)
    /\ median ys = Some m' /\ (m' == m)%Q.
Proof.
  intros N Hin G M.
  destruct (fill_keeps_median _ _ M) as (m' & M' & E).
  exists (fillna m (to_numeric L c)), m'. split; [|split; assumption].
  rewrite get_impute_and_cast by assumption.
  rewrite candidate_not_categorical, in_existsb, G by assumption.
  cbn [option_map]. unfold impute_column, fill_value. now rewrite M.
Qed.

End KeepsMedian.

(** * The model on small inputs *)

Example rename_column_example : rename_column " Fit ness " = "fit_ness".
Proof. reflexivity. Qed.

Example median_example :
  median [Some 3%Q; None; Some 1%Q; Some 10%Q; Some 4%Q] = Some (7 # 2)%Q
  /\ median [Some 3%Q; Some 1%Q; Some 10%Q] = Some 3%Q
  /\ median [None; None] = None.
Proof. repeat split; reflexivity. Qed.

Example qcut_example :
  qcut 3 bucket_labels [Some 1%Q; Some 2%Q; Some 3%Q; Some 4%Q; None]
  = Ok [Some "low"; Some "low"; Some "medium"; Some "high"; None]
  /\ qcut 3 bucket_labels [Some 1%Q; Some 1%Q; Some 1%Q; Some 2%Q]
     = Raise ValueError
  /\ qcut 3 bucket_labels [None; None] = Raise ValueError.
Proof. repeat split; reflexivity. Qed.

Example cut_equal_width_example :
  cut_equal_width 3 bucket_labels [Some 1%Q; Some 1%Q; Some 2%Q]
  = Ok [Some "low"; Some "low"; Some "high"]
  /\ cut_equal_width 3 bucket_labels [Some 5%Q; None; Some 5%Q]
     = Ok [Some "medium"; None; Some "medium"]
  /\ cut_equal_width 3 bucket_labels [] = Raise ValueError.
Proof. repeat split; reflexivity. Qed.

Example drop_duplicates_example :
  drop_duplicates
    [("a", CFloat [Some 1%Q; None; Some 1%Q; None]);
     ("b", CObject [Some "x"; None; Some "x"; Some "y"])]
  = [("a", CFloat [Some 1%Q; None; None]);
     ("b", CObject [Some "x"; None; Some "y"])].
Proof. reflexivity. Qed.

Example basic_clean_example :
  basic_clean plain_library padded_table
  = [("name", CObject [Some "a"; Some "a"]); ("miles", CFloat [Some 1%Q; Some 1%Q])].
Proof. reflexivity. Qed.

Example datetime_example :
  feature_engineering plain_library timed_frame
  = Ok [("when_time", Datetime [Some 90000000000000%Z]);
        ("usage", Plain (CFloat [Some 6%Q]));
        ("usage_category", Categorical [Some "heavy"]);
        ("date", Dates [Some 1%Z]);
        ("hour", Plain (CFloat [Some 1%Q]));
        ("day_of_week", Plain (CObject [Some "Friday"]))]
  /\ feature_engineering plain_library [("date", Plain (CFloat [Some 1%Q]))]
     = Raise AttributeError.
Proof. split; reflexivity. Qed.

Ltac distinct_names :=
  vm_compute; repeat (constructor; [cbn; intuition discriminate|]); constructor.

Ltac one_cell_per_row := repeat constructor.

(* ================================================================== *)
(** * The claims on concrete tables *)

Lemma survey180_input : survey_input survey180.
Proof.
  split; [reflexivity|]. split; [one_cell_per_row|].
  split; vm_compute; reflexivity.
Qed.

Lemma survey180_zero_input : survey_input survey180_zero.
Proof.
  split; [reflexivity|]. split; [one_cell_per_row|].
  split; vm_compute; reflexivity.
Qed.

(** C3 at the survey table. *)
Lemma survey_end_to_end_witness :
  survey_input survey180
  /\ exists p,
       process plain_library survey180 = Ok p
       /\ columns p = survey_columns
       /\ uniform 179 p
       /\ Forall (fully_populated p)
            ["product_label"; "gender_label"; "miles_category"; "usage_category"]
       /\ age_labelled p
       /\ income_labelled p
       /\ generate_all plain_library (read_back plain_library p)
          = charts_without_education
       /\ length (generate_all plain_library (read_back plain_library p)) = 7.
Proof.
  split; [exact survey180_input|].
  apply (survey_end_to_end plain_library survey180). exact survey180_input.
Defined.

(** C3 as stated fails: the survey table yields seven files, not six, and
    with an income of 0 the income bucket of that row is missing. *)
Lemma survey_outcome_counterexample :
  survey_input survey180
  /\ ~ survey_outcome plain_library survey180 6
  /\ survey_input survey180_zero
  /\ forall files, ~ survey_outcome plain_library survey180_zero files.
Proof.
  split; [exact survey180_input|]. split; [|split; [exact survey180_zero_input|]].
  - intros (p & Hp & _ & _ & Hlen).
    vm_compute in Hp. injection Hp as <-. vm_compute in Hlen. discriminate.
  - intros files (p & Hp & _ & Hpop & _).
    vm_compute in Hp. injection Hp as <-.
    apply Forall_inv_tail, Forall_inv_tail, Forall_inv in Hpop.
    destruct Hpop as (s & Hs & Hb). vm_compute in Hs. injection Hs as <-.
    vm_compute in Hb. discriminate.
Qed.

Lemma mixed_table_processed : process plain_library mixed_table = Ok mixed_processed.
Proof. vm_compute. reflexivity. Qed.

(** C4 at a small table. *)
Lemma derived_labels_closed_witness :
  usage_labelled mixed_processed /\ age_labelled mixed_processed
  /\ income_labelled mixed_processed /\ miles_labelled mixed_processed.
Proof.
  destruct (derived_labels_closed plain_library mixed_table mixed_processed)
    as (Hu & Ha & Hi & Hm).
  - distinct_names.
  - one_cell_per_row.
  - exact mixed_table_processed.
  - repeat split; [apply Hu|apply Ha|apply Hi|apply Hm]; vm_compute; tauto.
Defined.

(** C4 as stated fails: the row with an income of 0 has no income bucket
    (and the rows with an age of 0 or 130 have no age bucket). *)
Lemma closed_label_sets_counterexample :
  process plain_library mixed_table = Ok mixed_processed
  /\ get "income_bucket" mixed_processed
     = Some (Categorical [None; Some "low"; Some "medium"; Some "high"])
  /\ ~ closed_label_sets mixed_processed.
Proof.
  split; [exact mixed_table_processed|]. split; [reflexivity|].
  intros (Hi & _). specialize (Hi _ eq_refl). cbn in Hi.
  apply Forall_inv in Hi. destruct Hi as (l & Hl & _). discriminate.
Qed.

(** C5 at a table with an unreadable and a missing income. *)
Lemma imputer_fills_with_median_witness :
  columns (impute_and_cast plain_library gappy_table) = columns gappy_table
  /\ get "income" (impute_and_cast plain_library gappy_table)
     = Some (CFloat [Some 3%Q; Some 4%Q; Some 4%Q; Some 10%Q; Some 4%Q])
  /\ exists ys,
       get "income" (impute_and_cast plain_library gappy_table) = Some (CFloat ys)
       /\ Forall (fun y => y <> None) ys
       /\ Forall2 (fun x y =>
                     match x with
                     | Some v => y = Some v
                     | None =>
                         y = Some
                               match
                                 median (to_numeric plain_library
                                           (CObject [Some "3"; Some "x"; None;
                                                     Some "10"; Some "4"]))
                               with
                               | Some m => m
                               | None => 0%Q
                               end
                     end)
                  (to_numeric plain_library
                     (CObject [Some "3"; Some "x"; None; Some "10"; Some "4"]))
                  ys.
Proof.
  assert (N : NoDup (columns gappy_table)) by distinct_names.
  destruct (imputer_fills_with_median plain_library gappy_table N) as (Hc & Hv).
  split; [exact Hc|]. split; [reflexivity|].
  apply Hv; [cbn; tauto|reflexivity].
Defined.

(** C6 at the four boundary values and a missing usage. *)
Lemma usage_category_thresholds_witness :
  usage_step usage_frame
  = Ok [("usage",
         Plain (CFloat [Some 2.99%Q; Some 3.0%Q; Some 5.0%Q; Some 5.01%Q; None]));
        ("usage_category",
         Categorical [Some "casual"; Some "regular"; Some "regular";
                      Some "heavy"; None])]
  /\ forall df', feature_engineering plain_library usage_frame = Ok df' ->
                 get "usage_category" df'
                 = Some (Categorical [Some "casual"; Some "regular";
                                      Some "regular"; Some "heavy"; None]).
Proof.
  assert (N : NoDup (columns usage_frame)) by distinct_names.
  destruct (usage_category_thresholds plain_library usage_frame
              [Some 2.99%Q; Some 3.0%Q; Some 5.0%Q; Some 5.01%Q; None] N eq_refl)
    as (Hs & Hd & _).
  split; [exact Hs|exact Hd].
Defined.


(** C8 at a table without text. *)
Lemma cleaner_second_run_witness :
  drop_duplicates (drop_duplicates numeric_table) = drop_duplicates numeric_table
  /\ nrows (basic_clean plain_library (basic_clean plain_library numeric_table))
     = nrows (basic_clean plain_library numeric_table).
Proof.
  assert (R : rectangular numeric_table) by one_cell_per_row.
  assert (N : NoDup (map rename_column (columns numeric_table))) by distinct_names.
  destruct (cleaner_second_run plain_library numeric_table R N)
    as (Hd & _ & _ & Hn).
  split; [exact Hd|]. apply Hn. repeat constructor.
Defined.

(** C8 as stated fails: the two rows differ before trimming and are equal
    after it, so the second run drops one more row. *)
Lemma cleaner_second_run_counterexample :
  rectangular padded_table
  /\ nrows (basic_clean plain_library padded_table) = 2
  /\ nrows (basic_clean plain_library (basic_clean plain_library padded_table)) = 1
  /\ nrows (basic_clean plain_library (basic_clean plain_library padded_table))
     <> nrows (basic_clean plain_library padded_table).
Proof.
  split; [one_cell_per_row|]. repeat split; try reflexivity.
  vm_compute. discriminate.
Qed.

(** C9 at a table with gaps. *)
Lemma imputer_idempotent_witness :
  impute_and_cast plain_library (impute_and_cast plain_library gappy_table)
  = impute_and_cast plain_library gappy_table.
Proof.
  apply (imputer_idempotent plain_library gappy_table). distinct_names.
Defined.

Lemma timed_frame_derived :
  feature_engineering plain_library timed_frame = Ok timed_derived.
Proof. vm_compute. reflexivity. Qed.

(** C10 at a frame with a date-like column. *)
Lemma feature_engineering_frame_witness :
  get "usage" timed_derived = Some (Plain (CFloat [Some 6%Q]))
  /\ get "when_time" timed_derived = Some (Datetime [Some 90000000000000%Z])
  /\ extends_with (derived_names ++ ["count"]) timed_frame timed_derived.
Proof.
  assert (N : NoDup (columns timed_frame)) by distinct_names.
  destruct (feature_engineering_frame plain_library timed_frame timed_derived
              N timed_frame_derived) as (Hk & Hd & Hx).
  split; [|split; [|exact Hx]].
  - apply Hk; [reflexivity|cbn; intuition discriminate|vm_compute; discriminate].
  - apply (Hd "when_time" (Plain (CFloat [Some 90000000000000%Q]))); reflexivity.
Defined.

(** C10 as stated fails: a usage_category column that is there already is
    not date-like and is overwritten. *)
Lemma keeps_all_but_datelike_counterexample :
  NoDup (columns relabelled_frame)
  /\ first_datelike relabelled_frame = None
  /\ feature_engineering plain_library relabelled_frame
     = Ok [("usage", Plain (CFloat [Some 1%Q]));
           ("usage_category", Categorical [Some "casual"])]
  /\ ~ keeps_all_but_datelike plain_library relabelled_frame.
Proof.
  split; [distinct_names|]. split; [reflexivity|]. split; [reflexivity|].
  intros K.
  specialize (K _ "usage_category" (Plain (CObject [Some "x"])) eq_refl eq_refl).
  assert (F : first_datelike relabelled_frame <> Some "usage_category")
    by (vm_compute; discriminate).
  specialize (K F). vm_compute in K. discriminate.
Qed.

(** X2 at a small table. *)
Lemma deriver_keeps_row_count_witness :
  exists p,
    feature_engineering plain_library (loaded small_table) = Ok p
    /\ uniform 3 p.
Proof.
  eexists. split; [vm_compute; reflexivity|].
  apply (deriver_keeps_row_count plain_library small_table);
    [one_cell_per_row|vm_compute; reflexivity].
Defined.

(** X3 at a table with a repeated row. *)
Lemma drop_duplicates_leaves_none_witness :
  Forall (eq false) (duplicated (drop_duplicates numeric_table))
  /\ nrows (drop_duplicates numeric_table)
     + count_occ Bool.bool_dec (duplicated numeric_table) true
     = nrows numeric_table
  /\ rows (drop_duplicates numeric_table)
     = drop_marked (duplicated numeric_table) (rows numeric_table).
Proof.
  apply (drop_duplicates_leaves_none numeric_table). one_cell_per_row.
Defined.

(* ================================================================== *)
(** * The further properties on concrete tables *)

Lemma gappy_table_derived :
  feature_engineering plain_library (loaded (impute_and_cast plain_library gappy_table))
  = Ok gappy_derived.
Proof. vm_compute. reflexivity. Qed.

Lemma small_table_derived :
  feature_engineering plain_library (loaded small_table) = Ok small_derived.
Proof. vm_compute. reflexivity. Qed.

Lemma coded_frame_derived :
  feature_engineering plain_library coded_frame = Ok coded_derived.
Proof. vm_compute. reflexivity. Qed.

Lemma schooled_frame_derived :
  feature_engineering plain_library schooled_frame = Ok schooled_derived.
Proof. vm_compute. reflexivity. Qed.

Lemma rides_frame_derived :
  feature_engineering plain_library rides_frame = Ok rides_derived.
Proof. vm_compute. reflexivity. Qed.

(** X4 at the mixed table. *)
Lemma process_returns_witness :
  exists p,
    process plain_library mixed_table = Ok p
    /\ columns p
       = ["usage"; "age"; "income"; "miles"; "income_bucket"; "miles_category";
          "usage_category"; "age_bucket"].
Proof.
  apply (process_returns plain_library mixed_table).
  - distinct_names.
  - vm_compute. discriminate.
  - vm_compute. intuition discriminate.
Defined.


(** X6 at a frame with a date-like column. *)
Lemma deriver_columns_witness :
  columns timed_derived
  = ["when_time"; "usage"; "usage_category"; "date"; "hour"; "day_of_week"]
  /\ NoDup (columns timed_derived).
Proof.
  destruct (deriver_columns plain_library timed_frame timed_derived timed_frame_derived)
    as [C N].
  split; [exact C|]. apply N. distinct_names.
Defined.





(** X13 at a gender column with a missing cell. *)
Lemma gender_missing_raises_witness :
  gender_step gender_gap = Raise TypeError
  /\ feature_engineering plain_library gender_gap = Raise TypeError.
Proof.
  destruct (gender_missing_raises plain_library gender_gap [Some "Male"; None] eq_refl
              ltac:(cbn; tauto)) as [H _].
  split; [exact H|reflexivity].
Defined.

(** X14 at a table whose gender column has a missing cell. *)
Lemma missing_category_is_nan_witness :
  get "gender_label" gappy_derived
  = Some (Plain (CObject [Some "male"; Some "nan"; Some "female"; Some "x";
                          Some "male"])).
Proof.
  assert (N : NoDup (columns gappy_table)) by distinct_names.
  destruct (missing_category_is_nan plain_library gappy_table gappy_derived N
              gappy_table_derived) as (_ & Hg & _).
  exact (Hg [Some " Male"; None; Some "f "; Some "x"; Some "M"] eq_refl).
Defined.

(** X15 at two rows that differ by a trailing blank. *)
Lemma cleaner_trims_text_witness :
  (exists n0 c0,
     In (n0, c0) padded_table /\ "name" = rename_column n0
     /\ CObject [Some "a"; Some "a"] = clean_column (duplicated padded_table) c0)
  /\ Forall (fun x => exists s, x = Some s /\ Text.strip s = s) [Some "a"; Some "a"].
Proof.
  assert (N : NoDup (clean_names padded_table)) by distinct_names.
  destruct (cleaner_trims_text plain_library padded_table "name"
              (CObject [Some "a"; Some "a"]) N eq_refl) as [H F].
  split; [exact H|]. now apply F.
Defined.

(** X16 at an income column with an unreadable and a missing cell: the
    fill value 4 lies between 3 and 10. *)
Lemma imputed_within_range_witness :
  (3 <= fill_value (to_numeric plain_library
                      (CObject [Some "3"; Some "x"; None; Some "10"; Some "4"])))%Q
  /\ (fill_value (to_numeric plain_library
                    (CObject [Some "3"; Some "x"; None; Some "10"; Some "4"]))
      <= 10)%Q
  /\ exists ys,
       get "income" (impute_and_cast plain_library gappy_table) = Some (CFloat ys)
       /\ Forall (fun y => exists v, y = Some v /\ (3 <= v)%Q /\ (v <= 10)%Q) ys.
Proof.
  assert (N : NoDup (columns gappy_table)) by distinct_names.
  exact (imputed_within_range plain_library gappy_table "income"
           (CObject [Some "3"; Some "x"; None; Some "10"; Some "4"])
           3%Q [4%Q; 10%Q] N ltac:(cbn; tauto) eq_refl eq_refl).
Defined.

(** X17 at the same table. *)
Lemma imputer_casts_text_witness :
  get "gender" (impute_and_cast plain_library gappy_table)
  = Some (CObject [Some "Male"; Some "nan"; Some "f"; Some "x"; Some "M"])
  /\ get "note" (impute_and_cast plain_library gappy_table) = get "note" gappy_table
  /\ nrows (impute_and_cast plain_library gappy_table) = nrows gappy_table.
Proof.
  assert (N : NoDup (columns gappy_table)) by distinct_names.
  destruct (imputer_casts_text plain_library gappy_table N) as (Ht & Hk & Hn).
  split; [|split; [|exact Hn]].
  - exact (proj1 (Ht "gender"
                     (CObject [Some " Male"; None; Some "f "; Some "x"; Some "M"])
                     ltac:(cbn; tauto) eq_refl)).
  - apply Hk; cbn; intuition discriminate.
Defined.

(** X18 at the mixed table: usage comes out complete, on all four rows. *)
Lemma processed_numbers_complete_witness :
  exists xs,
    get "usage" mixed_processed = Some (Plain (CFloat xs))
    /\ Forall (fun x => x <> None) xs
    /\ length xs + count_occ Bool.bool_dec (duplicated mixed_table) true
       = nrows mixed_table.
Proof.
  apply (processed_numbers_complete plain_library mixed_table mixed_processed "usage").
  - distinct_names.
  - one_cell_per_row.
  - exact mixed_table_processed.
  - cbn. tauto.
  - vm_compute. tauto.
Defined.

(** X19 at a frame with a date-like column. *)
Lemma feature_engineering_idempotent_witness :
  feature_engineering plain_library timed_derived = Ok timed_derived.
Proof.
  apply (feature_engineering_idempotent plain_library 1 timed_frame timed_derived).
  - repeat constructor.
  - exact timed_frame_derived.
Defined.

(** X20 at a small table: usage 1, 6 and 3. *)
Lemma binned_labels_follow_order_witness :
  exists ys,
    get "usage_category" small_derived = Some (Categorical ys)
    /\ ordered_rows usage_labels [Some 1%Q; Some 6%Q; Some 3%Q] ys.
Proof.
  destruct (binned_labels_follow_order plain_library 3 (loaded small_table)
              small_derived ltac:(repeat constructor) small_table_derived)
    as (Hu & _).
  exact (Hu [Some 1%Q; Some 6%Q; Some 3%Q] eq_refl).
Defined.

(** X21 at product codes in mixed case with a blank. *)
Lemma product_label_normal_form_witness :
  exists ys,
    get "product_label" coded_derived = Some (Plain (CObject ys))
    /\ Forall2 (fun x y =>
                  match x with
                  | None => y = None
                  | Some s =>
                      exists l, y = Some l
                                /\ l = Text.remove_spaces (Text.upper s)
                                /\ every_char is_code_char l = true
                                /\ Text.remove_spaces (Text.upper l) = l
                  end) [Some "kp 281"; None; Some "Kp781"] ys.
Proof.
  exact (product_label_normal_form plain_library coded_frame coded_derived
           [Some "kp 281"; None; Some "Kp781"] coded_frame_derived eq_refl).
Defined.

(** X22 at three educations, one of them missing. *)
Lemma education_label_normal_form_witness :
  exists ys,
    get "education_label" schooled_derived = Some (Plain (CObject ys))
    /\ length ys = 3
    /\ Forall (fun y => exists l,
                 y = Some l
                 /\ ~ In l education_spellings
                 /\ education_synonym (Text.lower l) = l
                 /\ every_char (fun c => negb (is_capital c)) l = true) ys.
Proof.
  exact (education_label_normal_form plain_library schooled_frame schooled_derived
           (Plain (CObject [Some "Bachelors"; Some "PhD"; None]))
           schooled_frame_derived eq_refl).
Defined.


(** X25 at two rows, one of them without a registered count. *)
Lemma count_is_sum_witness :
  get "count" rides_derived = Some (Plain (CFloat [Some 7%Q; None])).
Proof.
  destruct (count_is_sum plain_library rides_frame rides_derived rides_frame_derived)
    as (Hs & _).
  exact (Hs [Some 3%Q; None] [Some 4%Q; Some 1%Q] eq_refl eq_refl eq_refl).
Defined.


(** X28 at an income column with an unreadable and a missing cell: the
    median is 4 before and after. *)
Lemma imputation_keeps_median_witness :
  median (to_numeric plain_library
            (CObject [Some "3"; Some "x"; None; Some "10"; Some "4"]))
  = Some 4%Q
  /\ exists ys m',
       get "income" (impute_and_cast plain_library gappy_table) = Some (CFloat ys)
       /\ median ys = Some m' /\ (m' == 4)%Q.
Proof.
  assert (N : NoDup (columns gappy_table)) by distinct_names.
  split; [reflexivity|].
  exact (imputation_keeps_median plain_library gappy_table "income"
           (CObject [Some "3"; Some "x"; None; Some "10"; Some "4"]) 4%Q
           N ltac:(cbn; tauto) eq_refl eq_refl).
Defined.
